(** * Local linearity measure: a model of [alibi/confidence/model_linearity.py]

    The development embeds the module function by function.

    - Floating-point numbers are idealised as exact rationals ([Q]); the only
      non-finite value the module manufactures out of finite data in this
      idealisation, the mean of an empty slice, is kept as [NaN].
    - [numpy] arrays are a shape together with the row-major list of their
      entries; reshapes, repeats, stacking and broadcasting are written out on
      that representation, with the exceptions numpy raises.
    - Python exceptions are the [Raise] outcome of a computation.
    - The external collaborators (the prediction function, numpy's global
      random generator and scikit-learn's nearest-neighbour index) are reached
      through a state-and-exception monad whose state records every external
      call, so that "how many calls" and "before any work" are statements
      about the state.
    - Assertions are taken as enabled, and a [method] or [model_type] is a
      string (Python's [None] there behaves as an unsupported string).
    - Logging and wall-clock timing have no effect on any value and are left
      out, and with them the [verbose] argument of the inner functions. *)

From Stdlib Require Import String.
From Stdlib Require Import List ZArith QArith Qabs Qround Qminmax Lia Lqa Bool
  Arith PeanoNat Permutation Sorted.
Import ListNotations.

Set Implicit Arguments.
Open Scope Q_scope.

(** ** Exceptions and outcomes *)

Inductive exn : Type :=
| AssertionError
| AttributeError
| IndexError
| NameError
| TypeError
| ValueError
| ZeroDivisionError.

Inductive result (A : Type) : Type :=
| Ok (a : A)
| Raise (e : exn).

Arguments Ok {A} a.
Arguments Raise {A} e.

Definition rbind {A B} (r : result A) (k : A -> result B) : result B :=
  match r with
  | Ok a => k a
  | Raise e => Raise e
  end.

Definition rmap {A B} (f : A -> B) (r : result A) : result B :=
  rbind r (fun a => Ok (f a)).

(** [mapR f l] runs [f] on the elements from left to right and stops at the
    first exception. *)
Fixpoint mapR {A B} (f : A -> result B) (l : list A) : result (list B) :=
  match l with
  | [] => Ok []
  | a :: l' => rbind (f a) (fun b => rbind (mapR f l') (fun bs => Ok (b :: bs)))
  end.

(** ** Numbers *)

(** A float that is either a finite number or numpy's [nan]. *)
Inductive npfloat : Type :=
| Num (q : Q)
| NaN.

(** Python's comparison [s >= 0] on a float: false on [nan]. *)
Definition ge0 (s : npfloat) : Prop :=
  match s with
  | Num q => 0 <= q
  | NaN => False
  end.

Definition Qsum (l : list Q) : Q := fold_right Qplus 0 l.

(** [np.mean] of a slice: [nan] on an empty slice, else sum over count. *)
Definition np_mean (l : list Q) : npfloat :=
  match l with
  | [] => NaN
  | _ :: _ => Num (Qsum l / inject_Z (Z.of_nat (length l)))
  end.

(** [np.round]: round half to even. *)
Definition np_round (q : Q) : Z :=
  let f := Qfloor q in
  match Qcompare (q - inject_Z f) (1 # 2) with
  | Lt => f
  | Gt => (f + 1)%Z
  | Eq => if Z.even f then f else (f + 1)%Z
  end.

(** ** Arrays *)

Record ndarray : Type := mk_ndarray { shape : list nat; data : list Q }.

Definition size_of (s : list nat) : nat := fold_right Nat.mul 1%nat s.

(** Every numpy array has as many entries as its shape says. *)
Definition wf (a : ndarray) : Prop := length (data a) = size_of (shape a).

Definition shape_eqb (s t : list nat) : bool :=
  if list_eq_dec Nat.eq_dec s t then true else false.

(** [a.shape[i]] *)
Definition shape_at (a : ndarray) (i : nat) : result nat :=
  match nth_error (shape a) i with
  | Some n => Ok n
  | None => Raise IndexError
  end.

(** [a.reshape(s)] for a fully given shape [s]. *)
Definition reshape (a : ndarray) (s : list nat) : result ndarray :=
  if (length (data a) =? size_of s)%nat
  then Ok (mk_ndarray s (data a))
  else Raise ValueError.

(** [a.reshape(n, -1)]: the second dimension is inferred; numpy refuses to
    infer it when [n] is zero or does not divide the size. *)
Definition reshape_rows (a : ndarray) (n : nat) : result ndarray :=
  if (n =? 0)%nat then Raise ValueError
  else if (length (data a) mod n =? 0)%nat
       then Ok (mk_ndarray [n; (length (data a) / n)%nat] (data a))
       else Raise ValueError.

(** The [i]-th block of [w] consecutive entries. *)
Definition row (w i : nat) (l : list Q) : list Q := firstn w (skipn (i * w) l).

(** Entry of a three-dimensional array of shape [(_, K, D)]. *)
Definition get3 (K D : nat) (a : ndarray) (i k j : nat) : Q :=
  nth ((i * K + k) * D + j) (data a) 0.

(** Entry of a two-dimensional array of shape [(_, D)]. *)
Definition get2 (D : nat) (a : ndarray) (i j : nat) : Q :=
  nth (i * D + j) (data a) 0.

(** [np.stack(l, axis=0)] of arrays: needs at least one array and equal
    shapes. *)
Definition np_stack (l : list ndarray) : result ndarray :=
  match l with
  | [] => Raise ValueError
  | a :: _ =>
      if forallb (fun b => shape_eqb (shape b) (shape a)) l
      then Ok (mk_ndarray (length l :: shape a) (concat (map data l)))
      else Raise ValueError
  end.

(** [np.array(l)] of a Python list of arrays: the empty list gives an empty
    one-dimensional array, arrays of unequal shapes are refused. *)
Definition np_array (l : list ndarray) : result ndarray :=
  match l with
  | [] => Ok (mk_ndarray [0%nat] [])
  | _ :: _ => np_stack l
  end.

(** [a[indices]] on a two-dimensional array: the selected rows, in the order
    of [indices]. *)
Definition take_rows (a : ndarray) (indices : list nat) : result ndarray :=
  match shape a with
  | [n; d] =>
      rbind (mapR (fun i => if (i <? n)%nat then Ok (row d i (data a))
                            else Raise IndexError) indices)
            (fun rs => Ok (mk_ndarray [length indices; d] (concat rs)))
  | _ => Raise IndexError
  end.

(** [np.repeat(a, reps, axis=1)]: every block along axis 1 is repeated [reps]
    times in place. *)
Definition np_repeat_axis1 (a : ndarray) (reps : nat) : result ndarray :=
  match shape a with
  | s0 :: s1 :: rest =>
      let w := size_of rest in
      Ok (mk_ndarray (s0 :: (s1 * reps)%nat :: rest)
            (flat_map (fun i => concat (repeat (row w i (data a)) reps))
                      (seq 0 (s0 * s1))))
  | _ => Raise ValueError
  end.

(** Elementwise map, e.g. [a ** 2] or [2 * a - 1]. *)
Definition np_map (f : Q -> Q) (a : ndarray) : ndarray :=
  mk_ndarray (shape a) (map f (data a)).

(** *** Broadcasting *)

(** Shapes are aligned on the right; the shorter one is padded with ones. *)
Definition pad_shape (n : nat) (s : list nat) : list nat :=
  repeat 1%nat (n - length s) ++ s.

Fixpoint broadcast_shapes (s t : list nat) : result (list nat) :=
  match s, t with
  | [], [] => Ok []
  | a :: s', b :: t' =>
      rbind (broadcast_shapes s' t')
            (fun r => if (a =? b)%nat then Ok (a :: r)
                      else if (a =? 1)%nat then Ok (b :: r)
                      else if (b =? 1)%nat then Ok (a :: r)
                      else Raise ValueError)
  | _, _ => Raise ValueError
  end.

(** The entries of [f a b] for two arrays of the same rank whose shapes are
    compatible: a dimension of extent one is read at index zero. *)
Fixpoint bcast (f : Q -> Q -> Q) (s t : list nat) (da db : list Q) : list Q :=
  match s, t with
  | a :: s', b :: t' =>
      flat_map (fun i => bcast f s' t'
                           (row (size_of s') (if (a =? 1)%nat then 0 else i) da)
                           (row (size_of t') (if (b =? 1)%nat then 0 else i) db))
               (seq 0 (if (a =? 1)%nat then b else a))
  | _, _ => [f (nth 0 da 0) (nth 0 db 0)]
  end.

(** A binary ufunc ([+], [-], [*]) with numpy broadcasting. *)
Definition np_binop (f : Q -> Q -> Q) (a b : ndarray) : result ndarray :=
  let n := Nat.max (length (shape a)) (length (shape b)) in
  let s := pad_shape n (shape a) in
  let t := pad_shape n (shape b) in
  rbind (broadcast_shapes s t)
        (fun r => Ok (mk_ndarray r (bcast f s t (data a) (data b)))).

(** [np.matmul(np.array([a, b]).T, alphas).T]: [np.array] needs equal shapes,
    the product contracts the stacked axis against [alphas], which therefore
    has two entries; entry [idx] of the result is
    [a[idx] * alphas[0] + b[idx] * alphas[1]]. *)
Definition superpose (a b : ndarray) (alphas : list Q) : result ndarray :=
  if shape_eqb (shape a) (shape b) then
    match alphas with
    | [a0; a1] =>
        Ok (mk_ndarray (shape a)
              (map (fun uv => fst uv * a0 + snd uv * a1)
                   (combine (data a) (data b))))
    | _ => Raise ValueError
    end
  else Raise ValueError.

(** An array of floats that may hold [nan]: the scores. *)
Record scores : Type := mk_scores { sshape : list nat; sdata : list npfloat }.

(** [a.mean(tuple(range(1, m)))]: the mean over the axes [1 .. m - 1].  Entry
    [(i, t)] of the result averages [a[i, u, t]] over the middle indices [u];
    an axis beyond the rank of [a] is refused. *)
Definition mean_axes (m : nat) (a : ndarray) : result scores :=
  if ((2 <=? m) && (length (shape a) <? m))%nat then Raise ValueError
  else match shape a with
       | [] => Ok (mk_scores [] (map Num (data a)))
       | s0 :: rest =>
           let mid := size_of (firstn (m - 1) rest) in
           let tail := size_of (skipn (m - 1) rest) in
           Ok (mk_scores (s0 :: skipn (m - 1) rest)
                 (flat_map
                    (fun i =>
                       map (fun t =>
                              np_mean
                                (map (fun u =>
                                        nth ((i * mid + u) * tail + t)%nat
                                            (data a) 0)
                                     (seq 0 mid)))
                           (seq 0 tail))
                    (seq 0 s0)))
       end.

(** [s[-1:]] on a shape. *)
Definition last_dim (s : list nat) : list nat := skipn (length s - 1) s.

(** ** The outside world *)

(** An external call made by the module. *)
Inductive event : Type :=
| EvPredict (batch : ndarray)
    (** [predict_fn(batch)] *)
| EvRandint (high : Z) (size : list nat)
    (** [np.random.randint(high, size=size)] *)
| EvKNeighbors (n_neighbors : Z) (train queries : ndarray)
    (** [NearestNeighbors(n_neighbors, algorithm='ball_tree').fit(train)
        .kneighbors(queries)] *).

(** The state of the world: the raw stream behind numpy's global generator,
    how much of it has been consumed, and the external calls so far. *)
Record world : Type := mk_world {
  entropy : nat -> Z;
  cursor : nat;
  trace : list event
}.

(** Computations that may raise and that act on the world; the world survives
    an exception. *)
Definition M (A : Type) : Type := world -> result A * world.

Definition ret {A} (a : A) : M A := fun w => (Ok a, w).

Definition raise {A} (e : exn) : M A := fun w => (Raise e, w).

Definition bind {A B} (m : M A) (k : A -> M B) : M B :=
  fun w => match m w with
           | (Ok a, w') => k a w'
           | (Raise e, w') => (Raise e, w')
           end.

Definition lift {A} (r : result A) : M A := fun w => (r, w).

(** [assert c] *)
Definition assert (c : bool) : M unit :=
  if c then ret tt else raise AssertionError.

Declare Scope py_scope.
Delimit Scope py_scope with py.
Notation "x <- m ;; k" := (bind m (fun x => k))
  (at level 61, m at next level, right associativity) : py_scope.
Notation "m ;; k" := (bind m (fun _ => k))
  (at level 61, right associativity) : py_scope.
Open Scope py_scope.

Definition log_event (e : event) : M unit :=
  fun w => (Ok tt, mk_world (entropy w) (cursor w) (trace w ++ [e])).

(** A call of the prediction function, an opaque total map from a batch to
    an array of outputs. *)
Definition predict (predict_fn : ndarray -> ndarray) (batch : ndarray)
  : M ndarray :=
  log_event (EvPredict batch) ;; ret (predict_fn batch).

(** [np.random.randint(high, size=size)]: [size_of size] draws, each in
    [0 .. high - 1], laid out row-major. *)
Definition randint (high : Z) (size : list nat) : M ndarray :=
  if (high <=? 0)%Z then raise ValueError
  else fun w =>
    (Ok (mk_ndarray size
           (map (fun i => inject_Z (entropy w (cursor w + i)%nat mod high))
                (seq 0 (size_of size)))),
     mk_world (entropy w) (cursor w + size_of size)
              (trace w ++ [EvRandint high size])).

(** [np.random.randint] called with a Python tuple of ints as [size]: a
    negative extent is refused. *)
Definition randint_size (high : Z) (size : list Z) : M ndarray :=
  if existsb (fun n => (n <? 0)%Z) size then raise ValueError
  else randint high (map Z.to_nat size).

(** ** Neighbourhood samplers *)

(** A feature range is one [(min, max)] row per feature: the type fixes the
    second extent of the source's [(dim, 2)] array. *)
Definition FeatureRange : Type := list (Q * Q).

(** The step sizes
    [np.abs(features_range[:, 1] - features_range[:, 0]) * (1 / float(res))]. *)
Definition grid_deltas (features_range : FeatureRange) (res : Z)
  : result ndarray :=
  if (res =? 0)%Z then Raise ZeroDivisionError
  else Ok (mk_ndarray [length features_range]
             (map (fun r => Qabs (snd r - fst r) * (1 / inject_Z res))
                  features_range)).

(** [size = np.round(epsilon * res).astype(int); if size <= 2: size = 2] *)
Definition grid_size (epsilon : Q) (res : Z) : Z :=
  let size := np_round (epsilon * inject_Z res) in
  if (size <=? 2)%Z then 2%Z else size.

Definition _sample_gridSampling (x : ndarray)
  (features_range : option FeatureRange) (epsilon : Q) (nb_samples : Z)
  (res : Z) : M ndarray :=
  nb_instances <- lift (shape_at x 0) ;;
  x <- lift (reshape_rows x nb_instances) ;;
  dim <- lift (shape_at x 1) ;;
  assert (0 <? dim)%nat ;;
  assert (match features_range with Some _ => true | None => false end) ;;
  let size := grid_size epsilon res in
  deltas <- lift (grid_deltas (match features_range with
                               | Some r => r
                               | None => []
                               end) res) ;;
  let sz := [Z.of_nat nb_instances; nb_samples; Z.of_nat dim] in
  bits <- randint_size 2 sz ;;
  let rnd_sign := np_map (fun b => 2 * b - 1) bits in
  mags <- randint_size size sz ;;
  let rnd := np_map (fun m => m + 1) mags in
  rnd <- lift (np_binop Qmult rnd_sign rnd) ;;
  vprime <- lift (np_binop Qmult rnd deltas) ;;
  x0 <- lift (shape_at x 0) ;;
  x1 <- lift (shape_at x 1) ;;
  xr <- lift (reshape x [x0; 1%nat; x1]) ;;
  X_sampled <- lift (np_binop Qplus xr vprime) ;;
  ret X_sampled.

(** ** Scorers *)

(** [(a - b) ** 2] *)
Definition squared_difference (a b : ndarray) : result ndarray :=
  rmap (np_map (fun d => d ^ 2)) (np_binop Qminus a b).

Definition _calculate_linearity_regression (predict_fn : ndarray -> ndarray)
  (x : ndarray) (input_shape : list nat) (X_samples : ndarray)
  (alphas : list Q) : M (ndarray * ndarray * scores) :=
  let ss := firstn 2 (shape X_samples) in
  s0 <- lift (shape_at X_samples 0) ;;
  s1 <- lift (shape_at X_samples 1) ;;
  X_samples <- lift (reshape X_samples ((s0 * s1)%nat :: input_shape)) ;;
  outs <- predict predict_fn X_samples ;;
  outs <- lift (reshape outs (ss ++ [1%nat])) ;;
  x_out <- predict predict_fn x ;;
  x_out <- lift (reshape x_out (shape x_out ++ [1%nat])) ;;
  xo0 <- lift (shape_at x_out 0) ;;
  xo <- lift (reshape x_out (xo0 :: 1%nat :: tl (shape x_out))) ;;
  o1 <- lift (shape_at outs 1) ;;
  x_out_stack <- lift (np_repeat_axis1 xo o1) ;;
  sum_out <- lift (superpose x_out_stack outs alphas) ;;
  X_samples <- lift (reshape X_samples (ss ++ input_shape)) ;;
  x0 <- lift (shape_at x 0) ;;
  xr <- lift (reshape x (x0 :: 1%nat :: tl (shape x))) ;;
  xs1 <- lift (shape_at X_samples 1) ;;
  x_stack <- lift (np_repeat_axis1 xr xs1) ;;
  summ <- lift (superpose x_stack X_samples alphas) ;;
  m0 <- lift (shape_at summ 0) ;;
  m1 <- lift (shape_at summ 1) ;;
  flat <- lift (reshape summ ((m0 * m1)%nat :: skipn 2 (shape summ))) ;;
  out_sum <- predict predict_fn flat ;;
  out_sum <- lift (reshape out_sum (ss ++ [1%nat])) ;;
  sq <- lift (squared_difference out_sum sum_out) ;;
  linearity_score <- lift (mean_axes (length (shape sum_out)) sq) ;;
  ret (out_sum, sum_out, linearity_score).

Section Externals.

(** The natural logarithm.  Its values are irrational, so it enters as a
    function on the idealised numbers; nothing below depends on which.  (A
    classifier returns probabilities, so the argument [p + 1e-10] is
    positive; numpy's [-inf] and [nan] on other arguments are outside the
    idealisation.) *)
Variable np_log : Q -> Q.

(** scikit-learn's index: [kneighbors train n_neighbors queries] is the
    index array returned by
    [NearestNeighbors(n_neighbors, algorithm='ball_tree').fit(train)
     .kneighbors(queries)], one row of indices per query. *)
Variable kneighbors : ndarray -> Z -> ndarray -> result (list (list nat)).

(** [np.log(a + 1e-10)] *)
Definition log_floor (a : ndarray) : ndarray :=
  np_map (fun p => np_log (p + (1 # 10000000000))) a.

Definition _calculate_linearity_measure (predict_fn : ndarray -> ndarray)
  (x : ndarray) (input_shape : list nat) (X_samples : ndarray)
  (alphas : list Q) : M (ndarray * ndarray * scores) :=
  let ss := firstn 2 (shape X_samples) in
  s0 <- lift (shape_at X_samples 0) ;;
  s1 <- lift (shape_at X_samples 1) ;;
  X_samples <- lift (reshape X_samples ((s0 * s1)%nat :: input_shape)) ;;
  outs <- predict predict_fn X_samples ;;
  let outs := log_floor outs in
  x_out <- predict predict_fn x ;;
  let x_out := log_floor x_out in
  outs <- lift (reshape outs (ss ++ last_dim (shape outs))) ;;
  xo0 <- lift (shape_at x_out 0) ;;
  xo <- lift (reshape x_out (xo0 :: 1%nat :: tl (shape x_out))) ;;
  o1 <- lift (shape_at outs 1) ;;
  x_out_stack <- lift (np_repeat_axis1 xo o1) ;;
  sum_out <- lift (superpose x_out_stack outs alphas) ;;
  X_samples <- lift (reshape X_samples (ss ++ input_shape)) ;;
  x0 <- lift (shape_at x 0) ;;
  xr <- lift (reshape x (x0 :: 1%nat :: tl (shape x))) ;;
  xs1 <- lift (shape_at X_samples 1) ;;
  x_stack <- lift (np_repeat_axis1 xr xs1) ;;
  summ <- lift (superpose x_stack X_samples alphas) ;;
  m0 <- lift (shape_at summ 0) ;;
  m1 <- lift (shape_at summ 1) ;;
  flat <- lift (reshape summ ((m0 * m1)%nat :: skipn 2 (shape summ))) ;;
  out_sum <- predict predict_fn flat ;;
  let out_sum := log_floor out_sum in
  out_sum <- lift (reshape out_sum (ss ++ last_dim (shape out_sum))) ;;
  sq <- lift (squared_difference out_sum sum_out) ;;
  linearity_score <- lift (mean_axes (length (shape sum_out)) sq) ;;
  ret (out_sum, sum_out, linearity_score).

(** One turn of the loop of [_sample_knn] for instance [i]; the training set
    is flattened in place and carried to the next turn. *)
Definition knn_step (x : ndarray) (nb_samples : Z) (i : nat)
  (X_train : ndarray) : M (ndarray * ndarray) :=
  n <- lift (shape_at X_train 0) ;;
  X_train <- lift (reshape_rows X_train n) ;;
  n <- lift (shape_at X_train 0) ;;
  d <- lift (shape_at x 1) ;;
  X_stack <- lift (np_stack (repeat (mk_ndarray [d] (row d i (data x))) n)) ;;
  n' <- lift (shape_at X_stack 0) ;;
  X_stack <- lift (reshape_rows X_stack n') ;;
  log_event (EvKNeighbors nb_samples X_train X_stack) ;;
  indices <- lift (kneighbors X_train nb_samples X_stack) ;;
  indices <- lift (match indices with
                   | r :: _ => Ok r
                   | [] => Raise IndexError
                   end) ;;
  X_sampled_tmp <- lift (take_rows X_train indices) ;;
  ret (X_train, X_sampled_tmp).

Fixpoint knn_loop (x : ndarray) (nb_samples : Z) (range : list nat)
  (X_train : ndarray) : M (list ndarray) :=
  match range with
  | [] => ret []
  | i :: range' =>
      st <- knn_step x nb_samples i X_train ;;
      rest <- knn_loop x nb_samples range' (fst st) ;;
      ret (snd st :: rest)
  end.

Definition _sample_knn (x X_train : ndarray) (nb_samples : Z) : M ndarray :=
  x0 <- lift (shape_at x 0) ;;
  x <- lift (reshape_rows x x0) ;;
  nb_instances <- lift (shape_at x 0) ;;
  X_sampled <- knn_loop x nb_samples (seq 0 nb_instances) X_train ;;
  lift (np_array X_sampled).

(** ** Dispatch *)

Definition _linearity_measure (predict_fn : ndarray -> ndarray) (x : ndarray)
  (X_train : option ndarray) (features_range : option FeatureRange)
  (method : string) (epsilon : Q) (nb_samples : Z) (res : Z)
  (alphas : option (list Q)) (model_type : string) : M scores :=
  let input_shape := tl (shape x) in
  assert ((method =? "knn")%string || (method =? "gridSampling")%string) ;;
  X_sampled <-
    (if (method =? "knn")%string then
       assert (match X_train with Some _ => true | None => false end) ;;
       match X_train with
       | Some X_train => _sample_knn x X_train nb_samples
       | None => raise AssertionError
       end
     else if (method =? "gridSampling")%string then
       assert (match features_range with Some _ => true | None => false end) ;;
       _sample_gridSampling x features_range epsilon nb_samples res
     else raise NameError) ;;
  let alphas := match alphas with
                | None => [1 # 2; 1 # 2]
                | Some a => a
                end in
  if (model_type =? "classifier")%string then
    r <- _calculate_linearity_measure predict_fn x input_shape X_sampled alphas ;;
    ret (snd r)
  else if (model_type =? "regressor")%string then
    r <- _calculate_linearity_regression predict_fn x input_shape X_sampled
           alphas ;;
    ret (snd r)
  else raise NameError.

(** [a.min()] and [a.max()] of a slice; numpy refuses an empty one. *)
Definition np_min (l : list Q) : result Q :=
  match l with
  | [] => Raise ValueError
  | a :: l' => Ok (fold_left Qmin l' a)
  end.

Definition np_max (l : list Q) : result Q :=
  match l with
  | [] => Raise ValueError
  | a :: l' => Ok (fold_left Qmax l' a)
  end.

(** Column [j] of an [(n, d)] array. *)
Definition column (n d j : nat) (l : list Q) : list Q :=
  map (fun i => nth (i * d + j) l 0) (seq 0 n).

Definition _infer_features_range (X_train : ndarray) : result FeatureRange :=
  rbind (shape_at X_train 0) (fun n =>
  rbind (reshape_rows X_train n) (fun X_train =>
  rbind (shape_at X_train 0) (fun n =>
  rbind (shape_at X_train 1) (fun d =>
  rbind (mapR (fun j => np_min (column n d j (data X_train))) (seq 0 d))
        (fun mins =>
  rbind (mapR (fun j => np_max (column n d j (data X_train))) (seq 0 d))
        (fun maxs => Ok (combine mins maxs))))))).

(** The stateless entry point. *)
Definition linearity_measure (predict_fn : ndarray -> ndarray) (x : ndarray)
  (features_range : option FeatureRange) (method : string)
  (X_train : option ndarray) (epsilon : Q) (nb_samples : Z) (res : Z)
  (alphas : option (list Q)) (model_type : string) : M scores :=
  if (method =? "knn")%string then
    assert (match X_train with Some _ => true | None => false end) ;;
    _linearity_measure predict_fn x X_train None method epsilon nb_samples res
      alphas model_type
  else if (method =? "gridSampling")%string then
    assert (match features_range, X_train with
            | None, None => false
            | _, _ => true
            end) ;;
    features_range <-
      match X_train, features_range with
      | Some X_train, None =>
          r <- lift (_infer_features_range X_train) ;; ret (Some r)
      | _, _ => ret features_range
      end ;;
    _linearity_measure predict_fn x None features_range method epsilon
      nb_samples res alphas model_type
  else raise NameError.

(** ** The stateful facade *)

(** The Python objects the facade handles besides arrays: ints and tuples of
    ints (shapes). *)
Inductive pyobj : Type :=
| PyInt (n : Z)
| PyTuple (items : list Z).

(** [iter(o)]: a tuple yields its items, an [int] is not iterable. *)
Definition py_iter (o : pyobj) : result (list pyobj) :=
  match o with
  | PyInt _ => Raise TypeError
  | PyTuple items => Ok (map PyInt items)
  end.

(** [a.shape] as a Python tuple and [t[i]] on a tuple. *)
Definition py_shape (a : ndarray) : pyobj :=
  PyTuple (map Z.of_nat (shape a)).

Definition py_getitem (o : pyobj) (i : nat) : result pyobj :=
  match o with
  | PyInt _ => Raise TypeError
  | PyTuple items =>
      match nth_error items i with
      | Some v => Ok (PyInt v)
      | None => Raise IndexError
      end
  end.

(** The attributes of a [LinearityMeasure]; the three set by [fit] are
    absent before it. *)
Record LinearityMeasure : Type := mk_LinearityMeasure {
  self_method : string;
  self_epsilon : Q;
  self_nb_samples : Z;
  self_res : Z;
  self_alphas : option (list Q);
  self_model_type : string;
  self_verbose : bool;
  self_is_fit : bool;
  self_X_train : option ndarray;
  self_features_range : option FeatureRange;
  self_input_shape : option (list nat)
}.

(** [LinearityMeasure.__init__] *)
Definition LinearityMeasure_init (method : string) (epsilon : Q)
  (nb_samples : Z) (res : Z) (alphas : option (list Q)) (model_type : string)
  (verbose : bool) : LinearityMeasure :=
  mk_LinearityMeasure method epsilon nb_samples res alphas model_type verbose
    false None None None.

(** [LinearityMeasure.fit]; an exception leaves the object unfit. *)
Definition LinearityMeasure_fit (self : LinearityMeasure) (X_train : ndarray)
  : result LinearityMeasure :=
  rbind (_infer_features_range X_train) (fun features_range =>
  Ok (mk_LinearityMeasure (self_method self) (self_epsilon self)
        (self_nb_samples self) (self_res self) (self_alphas self)
        (self_model_type self) (self_verbose self)
        true (Some X_train) (Some features_range) (Some (tl (shape X_train))))).

Definition set_features_range (self : LinearityMeasure)
  (features_range : FeatureRange) : LinearityMeasure :=
  mk_LinearityMeasure (self_method self) (self_epsilon self)
    (self_nb_samples self) (self_res self) (self_alphas self)
    (self_model_type self) (self_verbose self) (self_is_fit self)
    (self_X_train self) (Some features_range) (self_input_shape self).

(** [LinearityMeasure.linearity_measure]; returns the object as the call
    leaves it together with the scores. *)
Definition LinearityMeasure_linearity_measure (self : LinearityMeasure)
  (predict_fn : ndarray -> ndarray) (x : ndarray)
  : M (LinearityMeasure * scores) :=
  let input_shape := tl (shape x) in
  (if self_is_fit self then
     assert (match self_input_shape self with
             | Some s => shape_eqb input_shape s
             | None => false
             end)
   else ret tt) ;;
  if (self_method self =? "knn")%string then
    assert (self_is_fit self) ;;
    X_train <- lift (match self_X_train self with
                     | Some X => Ok X
                     | None => Raise AttributeError
                     end) ;;
    lin <- _linearity_measure predict_fn x (Some X_train) None
             (self_method self) (self_epsilon self) (self_nb_samples self)
             (self_res self) (self_alphas self) (self_model_type self) ;;
    ret (self, lin)
  else if (self_method self =? "gridSampling")%string then
    self <- (if negb (self_is_fit self) then
               d <- lift (py_getitem (py_shape x) 1) ;;
               items <- lift (py_iter d) ;;
               ret (set_features_range self (map (fun _ => (0, 1)) items))
             else ret self) ;;
    features_range <- lift (match self_features_range self with
                            | Some r => Ok r
                            | None => Raise AttributeError
                            end) ;;
    lin <- _linearity_measure predict_fn x None (Some features_range)
             (self_method self) (self_epsilon self) (self_nb_samples self)
             (self_res self) (self_alphas self) (self_model_type self) ;;
    ret (self, lin)
  else raise NameError.

End Externals.

(** ** Reference collaborators *)

(** Squared Euclidean distance; ordering points by it is ordering them by
    Euclidean distance. *)
Definition sqdist (a b : list Q) : Q :=
  Qsum (map (fun uv => (fst uv - snd uv) ^ 2) (combine a b)).

Fixpoint insert_by (key : nat -> Q) (i : nat) (l : list nat) : list nat :=
  match l with
  | [] => [i]
  | j :: l' =>
      if Qle_bool (key i) (key j) then i :: l else j :: insert_by key i l'
  end.

Definition sort_by (key : nat -> Q) (l : list nat) : list nat :=
  fold_right (insert_by key) [] l.

(** An exact nearest-neighbour index: per query, the training indices by
    increasing distance (earlier index first among equals), cut at
    [n_neighbors]; the arguments scikit-learn refuses are refused. *)
Definition exact_kneighbors (train : ndarray) (n_neighbors : Z)
  (queries : ndarray) : result (list (list nat)) :=
  match shape train, shape queries with
  | [n; d], [m; d'] =>
      if ((d =? d')%nat && (1 <=? d)%nat && (1 <=? n_neighbors)%Z
          && (n_neighbors <=? Z.of_nat n)%Z)%bool
      then Ok (map (fun r =>
                      firstn (Z.to_nat n_neighbors)
                        (sort_by (fun j => sqdist (row d r (data queries))
                                                  (row d j (data train)))
                                 (seq 0 n)))
                   (seq 0 m))
      else Raise ValueError
  | _, _ => Raise ValueError
  end.

Definition dot (a b : list Q) : Q :=
  Qsum (map (fun uv => fst uv * snd uv) (combine a b)).

(** An affine regressor [v |-> A . v + b], one output per row of the batch. *)
Definition affine_fn (A : list Q) (b : Q) (batch : ndarray) : ndarray :=
  let n := hd 0%nat (shape batch) in
  let w := size_of (tl (shape batch)) in
  mk_ndarray [n] (map (fun r => dot A (row w r (data batch)) + b) (seq 0 n)).

(** ** Vocabulary of the statements *)

(** The extent of a broadcast dimension. *)
Definition bdim (a b : nat) : nat := if (a =? 1)%nat then b else a.

(** The index at which a dimension of extent [a] is read. *)
Definition bidx (a i : nat) : nat := if (a =? 1)%nat then 0%nat else i.

(** A score that is a number is not negative. *)
Definition nan_or_ge0 (s : npfloat) : Prop :=
  match s with
  | Num q => 0 <= q
  | NaN => True
  end.


(** The coefficients a scoring run uses: [alphas], or [(0.5, 0.5)]. *)
Definition effective_alphas (alphas : option (list Q)) : list Q :=
  match alphas with
  | None => [1 # 2; 1 # 2]
  | Some a => a
  end.

(** A prediction function shaped like a regressor on instances of shape
    [input_shape]: one output per instance of the batch. *)
Definition regressor_shaped (predict_fn : ndarray -> ndarray)
  (input_shape : list nat) : Prop :=
  forall batch m,
    shape batch = m :: input_shape ->
    shape (predict_fn batch) = [m] /\ wf (predict_fn batch).

(** A prediction function shaped like a classifier with [C] classes. *)
Definition classifier_shaped (predict_fn : ndarray -> ndarray)
  (input_shape : list nat) (C : nat) : Prop :=
  forall batch m,
    shape batch = m :: input_shape ->
    shape (predict_fn batch) = [m; C] /\ wf (predict_fn batch).

(** The prediction function has the shape its [model_type] asks for. *)
Definition predict_shaped (model_type : string)
  (predict_fn : ndarray -> ndarray) (input_shape : list nat) : Prop :=
  (model_type = "regressor"%string /\ regressor_shaped predict_fn input_shape)
  \/
  (model_type = "classifier"%string /\
   exists C, classifier_shaped predict_fn input_shape C).

(** The batches handed to [predict_fn], in call order. *)
Fixpoint predict_batches (t : list event) : list ndarray :=
  match t with
  | [] => []
  | EvPredict b :: t' => b :: predict_batches t'
  | _ :: t' => predict_batches t'
  end.

Definition predict_calls (t : list event) : nat := length (predict_batches t).


(** [idxs] lists the [k] points nearest to [q] among the [n] rows (of width
    [d]) of [train]: distinct rows, nearest first, none of the rows left out
    nearer than a listed one. *)
Definition k_nearest (n d : nat) (train q : list Q) (k : nat)
  (idxs : list nat) : Prop :=
  length idxs = k /\
  NoDup idxs /\
  (forall j, In j idxs -> (j < n)%nat) /\
  (forall a b, (a < b < k)%nat ->
     sqdist q (row d (nth a idxs 0%nat) train)
     <= sqdist q (row d (nth b idxs 0%nat) train)) /\
  (forall j m, In j idxs -> (m < n)%nat -> ~ In m idxs ->
     sqdist q (row d j train) <= sqdist q (row d m train)).

(** [X_train[indices]] on the flattened training set: the [(k, d)] array of
    the training rows listed in [idxs]. *)
Definition selected_rows (k d : nat) (train : list Q) (idxs : list nat)
  : ndarray :=
  mk_ndarray [k; d] (concat (map (fun j => row d j train) idxs)).

(** Indices compared by a key. *)
Definition key_le (key : nat -> Q) (a b : nat) : Prop := key a <= key b.

(** What scikit-learn documents for [kneighbors] on a fitted index: for
    [1 <= n_neighbors <= n] and queries of the training dimension, one row of
    indices per query, the nearest [n_neighbors] training points in order of
    increasing distance. *)
Definition kneighbors_contract
  (kneighbors : ndarray -> Z -> ndarray -> result (list (list nat))) : Prop :=
  forall train n_neighbors queries n d m,
    shape train = [n; d] -> length (data train) = (n * d)%nat ->
    shape queries = [m; d] -> length (data queries) = (m * d)%nat ->
    (1 <= d)%nat -> (1 <= n_neighbors <= Z.of_nat n)%Z ->
    exists idx,
      kneighbors train n_neighbors queries = Ok idx /\
      length idx = m /\
      forall r, (r < m)%nat ->
        k_nearest n d (data train) (row d r (data queries))
          (Z.to_nat n_neighbors) (nth r idx []).

(** ** Sample runs *)

(** A world in which nothing has happened yet, over the raw stream [f]. *)
Definition fresh_world (f : nat -> Z) : world := mk_world f 0 [].

(** A world whose raw random stream is 0, 1, 2, ... *)
Definition ex_world : world := fresh_world (fun i => Z.of_nat i).

(** The instance [[1, 1]] and the feature range [[0, 2], [0, 2]]. *)
Definition ex_x : ndarray := mk_ndarray [1%nat; 2%nat] [1; 1].
Definition ex_range : FeatureRange := [(0, 2); (0, 2)].

(** The grid sample around [ex_x] for the default [epsilon = 0.04] and
    [res = 100], three samples, and the same for [epsilon = 0]. *)
Definition ex_grid_sample : ndarray :=
  Eval vm_compute in
    match fst (_sample_gridSampling ex_x (Some ex_range) (4 # 100) 3 100
                 ex_world) with
    | Ok X => X
    | Raise _ => mk_ndarray [] []
    end.


(** A stand-in for the logarithm in sample runs (its first-order expansion
    at one); the regressor runs do not use it. *)
Definition ex_log (p : Q) : Q := p - 1.

(** The regressor [v |-> v[0] + v[1]] and the same shifted by one. *)
Definition ex_linear : ndarray -> ndarray := affine_fn [1; 1] 0.

(** A classifier with two constant class probabilities. *)
Definition ex_classifier (batch : ndarray) : ndarray :=
  let n := hd 0%nat (shape batch) in
  mk_ndarray [n; 2%nat] (flat_map (fun _ => [1 # 4; 3 # 4]) (seq 0 n)).

(** The training set [[0,0],[1,1],[2,2]]. *)
Definition ex_train : ndarray := mk_ndarray [3%nat; 2%nat] [0; 0; 1; 1; 2; 2].

(** A scoring run of the regressor on a grid neighbourhood of three
    samples. *)
Definition ex_grid_run : result scores * world :=
  _linearity_measure ex_log exact_kneighbors ex_linear ex_x None
    (Some ex_range) "gridSampling" (4 # 100) 3 100 None "regressor" ex_world.

Definition ex_grid_scores : scores :=
  Eval vm_compute in
    match fst ex_grid_run with
    | Ok s => s
    | Raise _ => mk_scores [] []
    end.

(** A scoring run of the classifier on the two nearest training points. *)
Definition ex_classifier_run : result scores * world :=
  _linearity_measure ex_log exact_kneighbors ex_classifier ex_x (Some ex_train)
    None "knn" (4 # 100) 2 100 None "classifier" ex_world.

(** The same grid run with no samples at all. *)
Definition ex_empty_run : result scores * world :=
  _linearity_measure ex_log exact_kneighbors ex_linear ex_x None
    (Some ex_range) "gridSampling" (4 # 100) 0 100 None "regressor" ex_world.

(** One 2x2 instance and a training set of two 2x2 instances. *)
Definition ex_image_x : ndarray :=
  mk_ndarray [1%nat; 2%nat; 2%nat] [1; 1; 1; 1].

Definition ex_image_train : ndarray :=
  mk_ndarray [2%nat; 2%nat; 2%nat] [0; 0; 0; 0; 1; 1; 1; 2].






(** ** Vocabulary of the further statements *)

(** The weighted sum [u * a0 + v * a1] of two flattened instances. *)
Definition superposition (a0 a1 : Q) (u v : list Q) : list Q :=
  map (fun p => fst p * a0 + snd p * a1) (combine u v).

(** A regressor that sends each instance of the batch, flattened, through
    [f]. *)
Definition rowwise_fn (f : list Q -> Q) (batch : ndarray) : ndarray :=
  let n := hd 0%nat (shape batch) in
  let w := size_of (tl (shape batch)) in
  mk_ndarray [n] (map (fun r => f (row w r (data batch))) (seq 0 n)).

(** A classifier that sends each instance of the batch, flattened, through
    [f], which returns [C] class probabilities. *)
Definition rowwise_classifier (C : nat) (f : list Q -> list Q)
  (batch : ndarray) : ndarray :=
  let n := hd 0%nat (shape batch) in
  let w := size_of (tl (shape batch)) in
  mk_ndarray [n; C] (flat_map (fun r => f (row w r (data batch))) (seq 0 n)).

(** The mean over [count] entries, from entry [start] on, of the squared
    differences of two arrays. *)
Definition mean_squared_difference (a b : list Q) (start count : nat)
  : npfloat :=
  np_mean (map (fun u => (nth (start + u) a 0 - nth (start + u) b 0) ^ 2)
               (seq 0 count)).

(** ** Further sample runs *)

(** A quadratic regressor, [v |-> v . v], acting instance by instance, and
    the regression scorer on the grid sample around [ex_x]. *)
Definition ex_quadratic (v : list Q) : Q := dot v v.

Definition ex_scorer_run : result (ndarray * ndarray * scores) * world :=
  _calculate_linearity_regression (rowwise_fn ex_quadratic) ex_x [2%nat]
    ex_grid_sample [1 # 2; 1 # 2] ex_world.

Definition ex_scorer_result : ndarray * ndarray * scores :=
  Eval vm_compute in
    match fst ex_scorer_run with
    | Ok r => r
    | Raise _ => (mk_ndarray [] [], mk_ndarray [] [], mk_scores [] [])
    end.

Definition ex_out_sum : ndarray := Eval vm_compute in fst (fst ex_scorer_result).
Definition ex_sum_out : ndarray := Eval vm_compute in snd (fst ex_scorer_result).
Definition ex_score : scores := Eval vm_compute in snd ex_scorer_result.

(** A classifier with two classes whose probabilities depend on the first
    feature, and the classifier scorer on the same sample. *)
Definition ex_probs (v : list Q) : list Q :=
  [nth 0 v 0 * nth 0 v 0 * (1 # 4); 1 - nth 0 v 0 * nth 0 v 0 * (1 # 4)].

Definition ex_classifier_scorer_run
  : result (ndarray * ndarray * scores) * world :=
  _calculate_linearity_measure ex_log (rowwise_classifier 2 ex_probs) ex_x
    [2%nat] ex_grid_sample [1 # 2; 1 # 2] ex_world.

Definition ex_classifier_scorer_result : ndarray * ndarray * scores :=
  Eval vm_compute in
    match fst ex_classifier_scorer_run with
    | Ok r => r
    | Raise _ => (mk_ndarray [] [], mk_ndarray [] [], mk_scores [] [])
    end.

Definition ex_log_out_sum : ndarray :=
  Eval vm_compute in fst (fst ex_classifier_scorer_result).
Definition ex_log_sum_out : ndarray :=
  Eval vm_compute in snd (fst ex_classifier_scorer_result).
Definition ex_log_score : scores :=
  Eval vm_compute in snd ex_classifier_scorer_result.





(** A feature range with a row too many for [ex_x]. *)
Definition ex_long_range : FeatureRange := [(0, 2); (0, 2); (0, 2)].

(** The nearest-neighbour sampler on [ex_x] and [ex_train]. *)
Definition ex_knn_sampler_run : result ndarray * world :=
  _sample_knn exact_kneighbors ex_x ex_train 2 ex_world.

Definition ex_knn_sample : ndarray :=
  Eval vm_compute in
    match fst ex_knn_sampler_run with
    | Ok X => X
    | Raise _ => mk_ndarray [] []
    end.

(** A facade set up for grid sampling, and the same after [fit(ex_train)]. *)
Definition ex_facade : LinearityMeasure :=
  LinearityMeasure_init "gridSampling" (4 # 100) 3 100 None "regressor" false.

Definition ex_fitted : LinearityMeasure :=
  Eval vm_compute in
    match LinearityMeasure_fit ex_facade ex_train with
    | Ok self => self
    | Raise _ => ex_facade
    end.

Definition ex_facade_run : result (LinearityMeasure * scores) * world :=
  LinearityMeasure_linearity_measure ex_log exact_kneighbors ex_fitted
    ex_linear ex_x ex_world.

(** A training set without instances. *)
Definition ex_empty_train : ndarray := mk_ndarray [0%nat; 2%nat] [].

(** ** Counting prediction calls *)

(** Whatever its outcome, the computation [m] makes at most [n] calls of the
    prediction function. *)
Definition calls_at_most (n : nat) {A} (m : M A) : Prop :=
  forall w r w', m w = (r, w') ->
    (predict_calls (trace w') <= predict_calls (trace w) + n)%nat.
(** * Reasoning about computations *)

Unset Implicit Arguments.

Lemma bind_ok {A B} (m : M A) (k : A -> M B) w b w' :
  bind m k w = (Ok b, w') ->
  exists a w1, m w = (Ok a, w1) /\ k a w1 = (Ok b, w').
Proof.
  unfold bind. destruct (m w) as [[a|e] w1]; intros H.
  - exists a, w1. split; [reflexivity | exact H].
  - discriminate H.
Qed.

Lemma lift_ok {A} (r : result A) w a w' :
  lift r w = (Ok a, w') -> r = Ok a /\ w' = w.
Proof. unfold lift. intros H. inversion H. split; reflexivity. Qed.

Lemma ret_ok {A} (a0 : A) w a w' :
  ret a0 w = (Ok a, w') -> a = a0 /\ w' = w.
Proof. unfold ret. intros H. inversion H. split; reflexivity. Qed.

Lemma assert_ok c w u w' :
  assert c w = (Ok u, w') -> c = true /\ w' = w.
Proof.
  unfold assert. destruct c; intros H.
  - apply ret_ok in H. destruct H as [_ H]. split; [reflexivity | exact H].
  - discriminate H.
Qed.

Lemma rbind_ok {A B} (r : result A) (k : A -> result B) b :
  rbind r k = Ok b -> exists a, r = Ok a /\ k a = Ok b.
Proof.
  destruct r as [a|e]; simpl; intros H.
  - exists a. split; [reflexivity | exact H].
  - discriminate H.
Qed.

Lemma predict_ok predict_fn batch w a w' :
  predict predict_fn batch w = (Ok a, w') ->
  a = predict_fn batch /\
  w' = mk_world (entropy w) (cursor w) (trace w ++ [EvPredict batch]).
Proof.
  unfold predict, bind, log_event, ret. intros H. inversion H.
  split; reflexivity.
Qed.

Lemma Ok_inj {A} (a b : A) : Ok a = Ok b -> a = b.
Proof. intros H. inversion H. reflexivity. Qed.

Ltac ok_subst H :=
  apply Ok_inj in H;
  match type of H with _ = ?b => subst b end.

(** Peels the successful run recorded in hypothesis [H] one step at a
    time. *)
Ltac step H :=
  let a := fresh "v" in
  let w := fresh "w" in
  let H1 := fresh "E" in
  apply bind_ok in H; destruct H as (a & w & H1 & H);
  first [ apply lift_ok in H1; destruct H1 as [H1 ->]
        | apply assert_ok in H1; destruct H1 as [H1 ->]
        | apply ret_ok in H1; destruct H1 as [-> ->]
        | apply predict_ok in H1; destruct H1 as [-> ->]
        | idtac ].


(** * Lists laid out in rows *)

Section Layout.

Context {A B : Type}.

Lemma length_flat_map_uniform (f : A -> list B) (l : list A) (m : nat) :
  (forall a, In a l -> length (f a) = m) ->
  length (flat_map f l) = (length l * m)%nat.
Proof.
  induction l as [|a l IH]; intros Hf; cbn [flat_map length].
  - reflexivity.
  - rewrite length_app, IH, (Hf a); [lia | left; reflexivity |].
    intros a' Ha'. apply Hf. right. exact Ha'.
Qed.

Lemma nth_flat_map_uniform (f : A -> list B) (l : list A) (m : nat) a0 d i j :
  (forall a, In a l -> length (f a) = m) ->
  (i < length l)%nat -> (j < m)%nat ->
  nth (i * m + j) (flat_map f l) d = nth j (f (nth i l a0)) d.
Proof.
  revert i. induction l as [|a l IH]; intros i Hf Hi Hj; cbn [length] in Hi.
  - lia.
  - cbn [flat_map]. destruct i as [|i].
    + cbn [Nat.mul Nat.add nth]. rewrite app_nth1; [reflexivity|].
      rewrite (Hf a); [exact Hj | left; reflexivity].
    + rewrite app_nth2; rewrite (Hf a) by (left; reflexivity); [|lia].
      replace (S i * m + j - m)%nat with (i * m + j)%nat by lia.
      cbn [nth]. apply IH; [|lia|exact Hj].
      intros a' Ha'. apply Hf. right. exact Ha'.
Qed.

End Layout.

Lemma nth_row w i j (l : list Q) d :
  (j < w)%nat -> nth j (row w i l) d = nth (i * w + j) l d.
Proof.
  intros Hj. unfold row. rewrite nth_firstn.
  destruct (Nat.ltb_spec j w) as [_|H]; [|lia].
  rewrite nth_skipn. reflexivity.
Qed.

Lemma length_row w i (l : list Q) :
  (i * w + w <= length l)%nat -> length (row w i l) = w.
Proof.
  intros H. unfold row. rewrite length_firstn, length_skipn. lia.
Qed.

Lemma bidx_lt a b i : (i < bdim a b)%nat -> (bidx a i < a)%nat.
Proof.
  unfold bdim, bidx. destruct (Nat.eqb_spec a 1) as [->|Ha]; intros H; lia.
Qed.

Lemma bidx_same a i : (i < a)%nat -> bidx a i = i.
Proof.
  unfold bidx. destruct (Nat.eqb_spec a 1) as [->|Ha]; intros H; lia.
Qed.

Lemma bdim_same a : bdim a a = a.
Proof. unfold bdim. destruct (Nat.eqb_spec a 1); congruence. Qed.

(** ** Broadcasting, entry by entry *)

Lemma bcast_length f s : forall t da db,
  length s = length t ->
  length (bcast f s t da db) = size_of (map (fun p => bdim (fst p) (snd p)) (combine s t)).
Proof.
  induction s as [|a s IH]; intros [|b t] da db Hl; try discriminate Hl.
  - reflexivity.
  - cbn [bcast combine map size_of fold_right fst snd].
    rewrite length_flat_map_uniform
      with (m := size_of (map (fun p => bdim (fst p) (snd p)) (combine s t))).
    + rewrite length_seq. reflexivity.
    + intros i _. apply IH. injection Hl as Hl. exact Hl.
Qed.

Lemma nth_row3 (l : list Q) a2 a3 i k j :
  (k < a2)%nat -> (j < a3)%nat ->
  nth 0 (row 1 j (row (a3 * 1) k (row (a2 * (a3 * 1)) i l))) 0 =
  nth ((i * a2 + k) * a3 + j) l 0.
Proof.
  intros Hk Hj.
  rewrite nth_row by lia. rewrite nth_row by lia. rewrite nth_row by nia.
  f_equal. nia.
Qed.

Lemma bcast3_nth f a1 a2 a3 b1 b2 b3 da db i k j :
  (i < bdim a1 b1)%nat -> (k < bdim a2 b2)%nat -> (j < bdim a3 b3)%nat ->
  (bidx b2 k < b2)%nat -> (bidx b3 j < b3)%nat ->
  nth ((i * bdim a2 b2 + k) * bdim a3 b3 + j)
      (bcast f [a1; a2; a3] [b1; b2; b3] da db) 0 =
  f (nth ((bidx a1 i * a2 + bidx a2 k) * a3 + bidx a3 j) da 0)
    (nth ((bidx b1 i * b2 + bidx b2 k) * b3 + bidx b3 j) db 0).
Proof.
  intros Hi Hk Hj Hbk Hbj.
  cbn [bcast size_of fold_right].
  fold (bdim a1 b1) (bdim a2 b2) (bdim a3 b3).
  replace ((i * bdim a2 b2 + k) * bdim a3 b3 + j)%nat
    with (i * (bdim a2 b2 * bdim a3 b3) + (k * bdim a3 b3 + j))%nat by lia.
  rewrite nth_flat_map_uniform with (a0 := 0%nat);
    [ | | rewrite length_seq; exact Hi | nia ].
  2:{ intros a _. rewrite length_flat_map_uniform with (m := bdim a3 b3).
      - rewrite length_seq. reflexivity.
      - intros c _. rewrite length_flat_map_uniform with (m := 1%nat).
        + rewrite length_seq. lia.
        + intros; reflexivity. }
  rewrite seq_nth by exact Hi. cbn [Nat.add].
  rewrite nth_flat_map_uniform with (a0 := 0%nat);
    [ | | rewrite length_seq; exact Hk | exact Hj ].
  2:{ intros c _. rewrite length_flat_map_uniform with (m := 1%nat).
      - rewrite length_seq. lia.
      - intros; reflexivity. }
  rewrite seq_nth by exact Hk. cbn [Nat.add].
  replace j with (j * 1 + 0)%nat at 1 by lia.
  rewrite nth_flat_map_uniform with (a0 := 0%nat);
    [ | intros; reflexivity | rewrite length_seq; exact Hj | lia ].
  rewrite seq_nth by exact Hj. cbn [Nat.add nth].
  fold (bidx a1 i) (bidx a2 k) (bidx a3 j) (bidx b1 i) (bidx b2 k) (bidx b3 j).
  rewrite !nth_row3; [reflexivity | assumption | assumption | |];
    eapply bidx_lt; eassumption.
Qed.

Lemma broadcast_shapes_ok s : forall t,
  Forall2 (fun a b => a = b \/ a = 1%nat \/ b = 1%nat) s t ->
  broadcast_shapes s t = Ok (map (fun p => bdim (fst p) (snd p)) (combine s t)).
Proof.
  induction s as [|a s IH]; intros t H; inversion H as [|? b ? t' Hab Hst]; subst.
  - reflexivity.
  - cbn [broadcast_shapes combine map fst snd]. rewrite (IH _ Hst). cbn [rbind].
    unfold bdim.
    destruct (Nat.eqb_spec a b) as [->|Hne].
    + destruct (Nat.eqb_spec b 1); congruence.
    + destruct (Nat.eqb_spec a 1) as [->|Ha]; [reflexivity|].
      destruct (Nat.eqb_spec b 1) as [->|Hb]; [reflexivity|].
      destruct Hab as [?|[?|?]]; contradiction.
Qed.

Lemma np_binop_rank3 f a b a1 a2 a3 b1 b2 b3 :
  shape a = [a1; a2; a3] -> shape b = [b1; b2; b3] ->
  Forall2 (fun a b => a = b \/ a = 1%nat \/ b = 1%nat)
          [a1; a2; a3] [b1; b2; b3] ->
  np_binop f a b =
    Ok (mk_ndarray [bdim a1 b1; bdim a2 b2; bdim a3 b3]
          (bcast f [a1; a2; a3] [b1; b2; b3] (data a) (data b))).
Proof.
  intros Ha Hb Hc. unfold np_binop. rewrite Ha, Hb.
  cbn [length Nat.max pad_shape Nat.sub repeat app].
  rewrite (broadcast_shapes_ok _ _ Hc). reflexivity.
Qed.

Lemma np_binop_rank3_vector f a b a1 a2 a3 b3 :
  shape a = [a1; a2; a3] -> shape b = [b3] ->
  a3 = b3 \/ a3 = 1%nat \/ b3 = 1%nat ->
  np_binop f a b =
    Ok (mk_ndarray [a1; a2; bdim a3 b3]
          (bcast f [a1; a2; a3] [1%nat; 1%nat; b3] (data a) (data b))).
Proof.
  intros Ha Hb Hc. unfold np_binop. rewrite Ha, Hb.
  cbn [length Nat.max pad_shape Nat.sub repeat app].
  rewrite broadcast_shapes_ok.
  - cbn [combine map fst snd]. unfold bdim at 1 2.
    destruct (Nat.eqb_spec a1 1) as [->|?], (Nat.eqb_spec a2 1) as [->|?];
      reflexivity.
  - constructor; [right; right; reflexivity|].
    constructor; [right; right; reflexivity|].
    constructor; [exact Hc | constructor].
Qed.

Lemma randint_ok high size w a w' :
  randint high size w = (Ok a, w') ->
  (0 < high)%Z /\
  a = mk_ndarray size
        (map (fun i => inject_Z (entropy w (cursor w + i)%nat mod high))
             (seq 0 (size_of size))) /\
  w' = mk_world (entropy w) (cursor w + size_of size)
         (trace w ++ [EvRandint high size]).
Proof.
  unfold randint. destruct (Z.leb_spec high 0) as [Hle|Hlt]; intros H.
  - discriminate H.
  - inversion H. repeat split. exact Hlt.
Qed.

Lemma randint_size3_ok high N nb D w a w' :
  randint_size high [Z.of_nat N; nb; Z.of_nat D] w = (Ok a, w') ->
  (0 <= nb)%Z /\
  randint high [N; Z.to_nat nb; D] w = (Ok a, w').
Proof.
  unfold randint_size. cbn [existsb map].
  destruct (Z.ltb_spec (Z.of_nat N) 0); [lia|].
  destruct (Z.ltb_spec (Z.of_nat D) 0); [lia|].
  destruct (Z.ltb_spec nb 0); cbn [orb]; intros Hr; [discriminate Hr|].
  rewrite !Nat2Z.id in Hr. split; [lia | exact Hr].
Qed.

Lemma reshape_rows_ok a n b :
  reshape_rows a n = Ok b ->
  n <> 0%nat /\ (length (data a) mod n = 0)%nat /\
  b = mk_ndarray [n; (length (data a) / n)%nat] (data a).
Proof.
  unfold reshape_rows. destruct (Nat.eqb_spec n 0); [discriminate|].
  destruct (Nat.eqb_spec (length (data a) mod n) 0); [|discriminate].
  intros H. inversion H. auto.
Qed.

Lemma reshape_ok a s b :
  reshape a s = Ok b -> length (data a) = size_of s /\ b = mk_ndarray s (data a).
Proof.
  unfold reshape. destruct (Nat.eqb_spec (length (data a)) (size_of s));
    [|discriminate].
  intros H. inversion H. auto.
Qed.

Lemma shape_at_ok a i n : shape_at a i = Ok n -> nth_error (shape a) i = Some n.
Proof.
  unfold shape_at. destruct (nth_error (shape a) i); [|discriminate].
  intros H. inversion H. reflexivity.
Qed.

Lemma grid_deltas_ok fr res d :
  grid_deltas fr res = Ok d ->
  res <> 0%Z /\
  d = mk_ndarray [length fr]
        (map (fun r => Qabs (snd r - fst r) * (1 / inject_Z res)) fr).
Proof.
  unfold grid_deltas. destruct (Z.eqb_spec res 0); [discriminate|].
  intros H. inversion H. auto.
Qed.

Lemma nth_map_seq {A} (g : nat -> A) n idx d :
  (idx < n)%nat -> nth idx (map g (seq 0 n)) d = g idx.
Proof.
  intros H. rewrite nth_indep with (d' := g 0%nat) by (rewrite length_map, length_seq; exact H).
  rewrite map_nth. rewrite seq_nth by exact H. reflexivity.
Qed.

Lemma nth_map_in {A B} (g : A -> B) l idx d d' :
  (idx < length l)%nat -> nth idx (map g l) d = g (nth idx l d').
Proof.
  intros H. rewrite nth_indep with (d' := g d') by (rewrite length_map; exact H).
  apply map_nth.
Qed.

(** What a successful run of the grid sampler returns, entry by entry. *)
Lemma sample_grid_entries x fr epsilon nb_samples res w X w' :
  _sample_gridSampling x (Some fr) epsilon nb_samples res w = (Ok X, w') ->
  exists N D,
    let K := Z.to_nat nb_samples in
    hd_error (shape x) = Some N /\ N <> 0%nat /\
    length (data x) = (N * D)%nat /\ (0 < D)%nat /\
    (0 <= nb_samples)%Z /\ res <> 0%Z /\
    (length fr = D ->
     shape X = [N; K; D] /\
     forall i k j, (i < N)%nat -> (k < K)%nat -> (j < D)%nat ->
       get3 K D X i k j =
       get2 D x i j +
       (2 * inject_Z (entropy w (cursor w + ((i * K + k) * D + j))%nat mod 2) - 1)
       * (inject_Z (entropy w (cursor w + N * (K * (D * 1))
                               + ((i * K + k) * D + j))%nat
                    mod grid_size epsilon res) + 1)
       * (Qabs (snd (nth j fr (0, 0)) - fst (nth j fr (0, 0)))
          * (1 / inject_Z res))).
Proof.
  intros H. unfold _sample_gridSampling in H.
  step H. step H. step H. step H. step H. step H.
  apply shape_at_ok in E.
  apply reshape_rows_ok in E0. destruct E0 as (HN & Hmod & ->).
  apply shape_at_ok in E1. cbn in E1. injection E1 as <-.
  apply Nat.ltb_lt in E2.
  apply grid_deltas_ok in E4. destruct E4 as (Hres & ->).
  step H. apply randint_size3_ok in E0. destruct E0 as (Hnb & E0).
  apply randint_ok in E0. destruct E0 as (_ & -> & ->).
  step H. apply randint_size3_ok in E0. destruct E0 as (_ & E0).
  apply randint_ok in E0. destruct E0 as (_ & -> & ->).
  cbn [entropy cursor trace] in H.
  exists v, (length (data x) / v)%nat. cbn zeta.
  set (D := (length (data x) / v)%nat) in *.
  set (K := Z.to_nat nb_samples) in *.
  split. { destruct (shape x); [discriminate E | exact E]. }
  split; [exact HN|].
  split. { unfold D. apply Nat.Div0.div_exact in Hmod. exact Hmod. }
  split; [exact E2|]. split; [exact Hnb|]. split; [exact Hres|].
  intros Hfr.
  step H.
  erewrite np_binop_rank3 in E0;
    [ | reflexivity | reflexivity
      | repeat (constructor; [left; reflexivity|]); constructor ].
  ok_subst E0. rewrite !bdim_same in H.
  step H.
  erewrite np_binop_rank3_vector in E0;
    [ | reflexivity | reflexivity | left; symmetry; exact Hfr ].
  ok_subst E0. rewrite Hfr, bdim_same in H.
  step H. cbn in E0. ok_subst E0.
  step H. cbn in E0. ok_subst E0.
  step H. apply reshape_ok in E0. destruct E0 as (_ & ->).
  step H.
  erewrite np_binop_rank3 in E0;
    [ | reflexivity | reflexivity
      | constructor; [left; reflexivity|];
        constructor; [right; left; reflexivity|];
        constructor; [left; reflexivity | constructor] ].
  ok_subst E0.
  apply ret_ok in H. destruct H as [-> _].
  cbn [shape data np_map] in *.
  split.
  { rewrite !bdim_same. reflexivity. }
  intros i k j Hi Hk Hj. unfold get3, get2. cbn [data].
  pose proof (@bcast3_nth Qplus v 1%nat D v K D) as Hb.
  rewrite !bdim_same in Hb. unfold bdim in Hb at 1 2. cbn [Nat.eqb] in Hb.
  rewrite Hb; clear Hb; try assumption;
    [ | rewrite bidx_same by assumption; assumption
      | rewrite bidx_same by assumption; assumption ].
  rewrite ?(bidx_same _ _ Hi), ?(bidx_same _ _ Hk), ?(bidx_same _ _ Hj).
  unfold bidx at 1. cbn [Nat.eqb].
  replace ((i * 1 + 0) * D + j)%nat with (i * D + j)%nat by lia.
  f_equal.
  pose proof (@bcast3_nth Qmult v K D 1%nat 1%nat D) as Hb.
  rewrite !bdim_same in Hb.
  replace (bdim v 1) with v in Hb
    by (unfold bdim; destruct (Nat.eqb_spec v 1); congruence).
  replace (bdim K 1) with K in Hb
    by (unfold bdim; destruct (Nat.eqb_spec K 1); congruence).
  rewrite Hb; clear Hb; try assumption;
    [ | unfold bidx; cbn [Nat.eqb]; lia
      | rewrite bidx_same by assumption; assumption ].
  rewrite ?(bidx_same _ _ Hi), ?(bidx_same _ _ Hk), ?(bidx_same _ _ Hj).
  unfold bidx. cbn [Nat.eqb].
  replace ((0 * 1 + 0) * D + j)%nat with j by lia.
  rewrite nth_map_in with (d' := (0, 0)) by (rewrite Hfr; exact Hj).
  f_equal.
  pose proof (@bcast3_nth Qmult v K D v K D) as Hb.
  rewrite !bdim_same in Hb.
  rewrite Hb; clear Hb; try assumption;
    [ | rewrite bidx_same by assumption; assumption
      | rewrite bidx_same by assumption; assumption ].
  rewrite ?(bidx_same _ _ Hi), ?(bidx_same _ _ Hk), ?(bidx_same _ _ Hj).
  rewrite !map_map.
  assert (Hidx : ((i * K + k) * D + j < size_of [v; K; D])%nat).
  { cbn [size_of fold_right].
    assert (i * K + k + 1 <= v * K)%nat by nia.
    assert ((i * K + k + 1) * D <= (v * K) * D)%nat
      by (apply Nat.mul_le_mono_r; assumption).
    lia. }
  rewrite !nth_map_seq by exact Hidx.
  cbn [size_of fold_right]. reflexivity.
Qed.

(** ** The integer steps of the grid sampler *)

Lemma grid_size_max epsilon res :
  grid_size epsilon res = Z.max 2 (np_round (epsilon * inject_Z res)).
Proof.
  unfold grid_size. destruct (Z.leb_spec (np_round (epsilon * inject_Z res)) 2); lia.
Qed.

Lemma grid_size_ge2 epsilon res : (2 <= grid_size epsilon res)%Z.
Proof. rewrite grid_size_max. lia. Qed.






(** * The grid sampler stays on its grid *)






(** * The facade *)

Section Facade.

Variable np_log : Q -> Q.
Variable kneighbors : ndarray -> Z -> ndarray -> result (list (list nat)).

(** An unfit grid facade never gets past building the fallback range: the
    comprehension iterates over [x.shape[1]], an [int]. *)
Lemma unfit_grid_raises (self : LinearityMeasure) predict_fn x w :
  self_is_fit self = false ->
  self_method self = "gridSampling"%string ->
  LinearityMeasure_linearity_measure np_log kneighbors self predict_fn x w =
    (Raise (match nth_error (shape x) 1 with
            | Some _ => TypeError
            | None => IndexError
            end), w).
Proof.
  intros Hfit Hm.
  unfold LinearityMeasure_linearity_measure.
  rewrite Hfit, Hm. cbn.
  unfold bind, ret, lift, py_getitem, py_shape. cbn.
  destruct (shape x) as [|a [|b r]]; reflexivity.
Qed.

(** C2: the unfit grid facade is meant to fall back to a unit range and
    return the scores; as written it raises instead, whatever the instance
    batch and the prediction function: [TypeError] from iterating over the
    int [x.shape[1]] (or [IndexError] when [x] has no second axis), with no
    sampling and no prediction done. *)
Theorem unfit_grid_facade_raises epsilon nb_samples res alphas model_type
  verbose predict_fn x w :
  LinearityMeasure_linearity_measure np_log kneighbors
    (LinearityMeasure_init "gridSampling" epsilon nb_samples res alphas
       model_type verbose) predict_fn x w
  = (Raise (match nth_error (shape x) 1 with
            | Some _ => TypeError
            | None => IndexError
            end), w).
Proof.
  unfold LinearityMeasure_linearity_measure, LinearityMeasure_init.
  cbn [self_is_fit self_method String.eqb Ascii.eqb Bool.eqb negb].
  unfold bind at 1. cbn [ret].
  unfold bind at 1. unfold bind at 1. unfold bind at 1.
  unfold lift, py_getitem, py_shape.
  rewrite nth_error_map.
  destruct (nth_error (shape x) 1) as [d|]; reflexivity.
Qed.

Lemma unfit_knn_raises (self : LinearityMeasure) predict_fn x w :
  self_is_fit self = false ->
  self_method self = "knn"%string ->
  LinearityMeasure_linearity_measure np_log kneighbors self predict_fn x w =
    (Raise AssertionError, w).
Proof.
  intros Hfit Hm.
  unfold LinearityMeasure_linearity_measure.
  rewrite Hfit, Hm. reflexivity.
Qed.

Lemma fit_grid_unfolds (self self' : LinearityMeasure) X_train predict_fn x w :
  self_method self = "gridSampling"%string ->
  LinearityMeasure_fit self X_train = Ok self' ->
  exists features_range,
    _infer_features_range X_train = Ok features_range /\
    self_features_range self' = Some features_range /\
    self_is_fit self' = true /\
    LinearityMeasure_linearity_measure np_log kneighbors self' predict_fn x w =
      (if shape_eqb (tl (shape x)) (tl (shape X_train)) then
         lin <- _linearity_measure np_log kneighbors predict_fn x None
                  (Some features_range) "gridSampling" (self_epsilon self)
                  (self_nb_samples self) (self_res self) (self_alphas self)
                  (self_model_type self) ;;
         ret (self', lin)
       else raise AssertionError) w.
Proof.
  intros Hm Hfit. unfold LinearityMeasure_fit in Hfit.
  apply rbind_ok in Hfit. destruct Hfit as (fr & Hfr & Hfit).
  inversion Hfit; subst self'; clear Hfit.
  exists fr. split; [exact Hfr|]. split; [reflexivity|]. split; [reflexivity|].
  unfold LinearityMeasure_linearity_measure. cbn. rewrite Hm. cbn.
  destruct (shape_eqb (tl (shape x)) (tl (shape X_train))); reflexivity.
Qed.

End Facade.

(** * Scores *)

Lemma Qsum_nonneg l : Forall (fun q => 0 <= q) l -> 0 <= Qsum l.
Proof.
  induction 1 as [|q l Hq _ IH]; cbn [Qsum fold_right].
  - apply Qle_refl.
  - fold (Qsum l). lra.
Qed.

Lemma np_mean_nonneg l : Forall (fun q => 0 <= q) l -> nan_or_ge0 (np_mean l).
Proof.
  intros H. destruct l as [|q l]; cbn [np_mean nan_or_ge0]; [exact I|].
  apply Qle_shift_div_l.
  - change 0 with (inject_Z 0). rewrite <- Zlt_Qlt. cbn [length]. lia.
  - rewrite Qmult_0_l. apply Qsum_nonneg. exact H.
Qed.

Lemma nth_nonneg l n : Forall (fun q => 0 <= q) l -> 0 <= nth n l 0.
Proof.
  intros H. destruct (nth_in_or_default n l 0) as [Hin|Hd].
  - rewrite Forall_forall in H. apply H. exact Hin.
  - rewrite Hd. apply Qle_refl.
Qed.

Lemma mean_axes_nonneg m a s :
  mean_axes m a = Ok s ->
  Forall (fun q => 0 <= q) (data a) ->
  Forall nan_or_ge0 (sdata s).
Proof.
  unfold mean_axes. intros H Ha.
  destruct ((2 <=? m)%nat && (length (shape a) <? m)%nat); [discriminate H|].
  destruct (shape a) as [|s0 rest]; apply Ok_inj in H; subst s; cbn [sdata].
  - rewrite Forall_map. eapply Forall_impl; [|exact Ha]. intros q Hq. exact Hq.
  - rewrite Forall_forall. intros f Hf.
    apply in_flat_map in Hf. destruct Hf as (i & _ & Hf).
    apply in_map_iff in Hf. destruct Hf as (t & <- & _).
    apply np_mean_nonneg. rewrite Forall_map, Forall_forall.
    intros u _. apply nth_nonneg. exact Ha.
Qed.

Lemma Qsquare_nonneg (d : Q) : 0 <= d ^ 2.
Proof. cbn. nra. Qed.

Lemma squared_difference_nonneg a b sq :
  squared_difference a b = Ok sq -> Forall (fun q => 0 <= q) (data sq).
Proof.
  unfold squared_difference, rmap. intros H.
  apply rbind_ok in H. destruct H as (d & _ & H).
  apply Ok_inj in H. subst sq. cbn [np_map data].
  rewrite Forall_map, Forall_forall. intros q _. apply Qsquare_nonneg.
Qed.

Lemma regression_scores_nonneg predict_fn x input_shape X_samples alphas w r w' :
  _calculate_linearity_regression predict_fn x input_shape X_samples alphas w
    = (Ok r, w') ->
  Forall nan_or_ge0 (sdata (snd r)).
Proof.
  intros H. unfold _calculate_linearity_regression in H.
  repeat step H.
  apply ret_ok in H. destruct H as [-> _]. cbn [snd].
  eapply mean_axes_nonneg; [eassumption|].
  eapply squared_difference_nonneg; eassumption.
Qed.

Lemma classifier_scores_nonneg np_log predict_fn x input_shape X_samples alphas
  w r w' :
  _calculate_linearity_measure np_log predict_fn x input_shape X_samples alphas w
    = (Ok r, w') ->
  Forall nan_or_ge0 (sdata (snd r)).
Proof.
  intros H. unfold _calculate_linearity_measure in H.
  repeat step H.
  apply ret_ok in H. destruct H as [-> _]. cbn [snd].
  eapply mean_axes_nonneg; [eassumption|].
  eapply squared_difference_nonneg; eassumption.
Qed.

(** * External calls of a scoring run *)

Lemma predict_batches_app t u :
  predict_batches (t ++ u) = predict_batches t ++ predict_batches u.
Proof.
  induction t as [|e t IH]; cbn [app predict_batches]; [reflexivity|].
  destruct e; rewrite IH; reflexivity.
Qed.

Lemma shape_eqb_eq s t : shape_eqb s t = true -> s = t.
Proof. unfold shape_eqb. destruct (list_eq_dec Nat.eq_dec s t); congruence. Qed.

Lemma shape_eqb_refl s : shape_eqb s s = true.
Proof. unfold shape_eqb. destruct (list_eq_dec Nat.eq_dec s s); congruence. Qed.

Lemma superpose_ok a b alphas c :
  superpose a b alphas = Ok c ->
  shape a = shape b /\
  exists a0 a1,
    alphas = [a0; a1] /\
    c = mk_ndarray (shape a)
          (map (fun uv => fst uv * a0 + snd uv * a1) (combine (data a) (data b))).
Proof.
  unfold superpose. destruct (shape_eqb (shape a) (shape b)) eqn:E; [|discriminate].
  apply shape_eqb_eq in E.
  destruct alphas as [|a0 [|a1 [|? ?]]]; try discriminate.
  intros H. apply Ok_inj in H. subst c. split; [exact E|].
  exists a0, a1. split; reflexivity.
Qed.

Lemma np_repeat_axis1_ok a reps c :
  np_repeat_axis1 a reps = Ok c ->
  exists s0 s1 rest,
    shape a = s0 :: s1 :: rest /\
    c = mk_ndarray (s0 :: (s1 * reps)%nat :: rest)
          (flat_map (fun i => concat (repeat (row (size_of rest) i (data a)) reps))
                    (seq 0 (s0 * s1))).
Proof.
  unfold np_repeat_axis1. destruct (shape a) as [|s0 [|s1 rest]]; try discriminate.
  intros H. apply Ok_inj in H. subst c. exists s0, s1, rest. split; reflexivity.
Qed.

(** The part of a scorer that builds the batch of superposed inputs: it
    succeeds only when the instances and the samples agree in shape. *)
Lemma superposed_batch_shape x X_samples' input_shape s0 s1 x0 xs1 xr x_stack
  alphas summ m0 m1 flat :
  shape X_samples' = [s0; s1] ++ input_shape ->
  reshape x (x0 :: 1%nat :: tl (shape x)) = Ok xr ->
  shape_at X_samples' 1 = Ok xs1 ->
  np_repeat_axis1 xr xs1 = Ok x_stack ->
  superpose x_stack X_samples' alphas = Ok summ ->
  shape_at summ 0 = Ok m0 ->
  shape_at summ 1 = Ok m1 ->
  reshape summ ((m0 * m1)%nat :: skipn 2 (shape summ)) = Ok flat ->
  shape flat = (s0 * s1)%nat :: input_shape /\ tl (shape x) = input_shape /\
  x0 = s0.
Proof.
  intros HX Hxr Hxs1 Hrep Hsup Hm0 Hm1 Hflat.
  apply reshape_ok in Hxr. destruct Hxr as (_ & ->).
  apply shape_at_ok in Hxs1. rewrite HX in Hxs1. cbn in Hxs1.
  injection Hxs1 as <-.
  apply np_repeat_axis1_ok in Hrep.
  destruct Hrep as (t0 & t1 & rest & Hsh & ->). cbn [shape] in Hsh.
  injection Hsh as <- <- <-.
  apply superpose_ok in Hsup. destruct Hsup as (Hsh & a0 & a1 & _ & ->).
  cbn [shape] in Hsh. rewrite HX in Hsh. cbn [app] in Hsh.
  injection Hsh as -> Hs1 Hin.
  apply shape_at_ok in Hm0, Hm1. cbn in Hm0, Hm1.
  injection Hm0 as <-. injection Hm1 as <-.
  apply reshape_ok in Hflat. destruct Hflat as (_ & ->). cbn [shape skipn].
  rewrite Hs1, Hin. auto.
Qed.

Lemma regression_trace predict_fn x input_shape X_samples alphas w r w' :
  _calculate_linearity_regression predict_fn x input_shape X_samples alphas w
    = (Ok r, w') ->
  exists n b1 b3,
    shape b1 = n :: input_shape /\ shape b3 = n :: input_shape /\
    entropy w' = entropy w /\ cursor w' = cursor w /\
    trace w' = trace w ++ [EvPredict b1; EvPredict x; EvPredict b3].
Proof.
  intros H. unfold _calculate_linearity_regression in H.
  repeat step H.
  apply ret_ok in H. destruct H as [_ ->]. cbn [entropy cursor trace].
  pose proof E as Hs0. pose proof E0 as Hs1.
  apply shape_at_ok in Hs0, Hs1.
  assert (Hss : firstn 2 (shape X_samples) = [v; v0]).
  { destruct (shape X_samples) as [|p [|q t]]; try discriminate.
    cbn in Hs0, Hs1. injection Hs0 as ->. injection Hs1 as ->. reflexivity. }
  rewrite Hss in *.
  apply reshape_ok in E1. destruct E1 as (_ & ->).
  pose proof E11 as HX. apply reshape_ok in HX. destruct HX as (_ & HX).
  destruct (superposed_batch_shape x v11 input_shape v v0 _ _ _ _ _ _ _ _ _
              ltac:(rewrite HX; reflexivity) E13 E14 E15 E16 E17 E18 E19)
    as (Hflat & _ & _).
  exists (v * v0)%nat,
    {| shape := (v * v0)%nat :: input_shape; data := data X_samples |}, v19.
  split; [reflexivity|]. split; [exact Hflat|].
  split; [reflexivity|]. split; [reflexivity|].
  rewrite <- !app_assoc. reflexivity.
Qed.

Lemma classifier_trace np_log predict_fn x input_shape X_samples alphas w r w' :
  _calculate_linearity_measure np_log predict_fn x input_shape X_samples alphas w
    = (Ok r, w') ->
  exists n b1 b3,
    shape b1 = n :: input_shape /\ shape b3 = n :: input_shape /\
    entropy w' = entropy w /\ cursor w' = cursor w /\
    trace w' = trace w ++ [EvPredict b1; EvPredict x; EvPredict b3].
Proof.
  intros H. unfold _calculate_linearity_measure in H.
  repeat step H.
  apply ret_ok in H. destruct H as [_ ->]. cbn [entropy cursor trace].
  pose proof E as Hs0. pose proof E0 as Hs1.
  apply shape_at_ok in Hs0, Hs1.
  assert (Hss : firstn 2 (shape X_samples) = [v; v0]).
  { destruct (shape X_samples) as [|p [|q t]]; try discriminate.
    cbn in Hs0, Hs1. injection Hs0 as ->. injection Hs1 as ->. reflexivity. }
  rewrite Hss in *.
  apply reshape_ok in E1. destruct E1 as (_ & ->).
  pose proof E10 as HX. apply reshape_ok in HX. destruct HX as (_ & HX).
  destruct (superposed_batch_shape x v10 input_shape v v0 _ _ _ _ _ _ _ _ _
              ltac:(rewrite HX; reflexivity) E12 E13 E14 E15 E16 E17 E18)
    as (Hflat & _ & _).
  exists (v * v0)%nat,
    {| shape := (v * v0)%nat :: input_shape; data := data X_samples |}, v18.
  split; [reflexivity|]. split; [exact Hflat|].
  split; [reflexivity|]. split; [reflexivity|].
  rewrite <- !app_assoc. reflexivity.
Qed.

Lemma sample_grid_no_predict x features_range epsilon nb_samples res w X w' :
  _sample_gridSampling x features_range epsilon nb_samples res w = (Ok X, w') ->
  predict_batches (trace w') = predict_batches (trace w).
Proof.
  intros H. unfold _sample_gridSampling in H.
  do 7 step H.
  unfold randint_size in E5.
  destruct (existsb _ _) in E5; [discriminate E5|].
  apply randint_ok in E5. destruct E5 as (_ & _ & ->).
  step H.
  unfold randint_size in E5.
  destruct (existsb _ _) in E5; [discriminate E5|].
  apply randint_ok in E5. destruct E5 as (_ & _ & ->).
  repeat step H.
  apply ret_ok in H. destruct H as [_ ->]. cbn [trace].
  rewrite !predict_batches_app. cbn [predict_batches]. rewrite !app_nil_r.
  reflexivity.
Qed.

Section SamplerCalls.

Variable kneighbors : ndarray -> Z -> ndarray -> result (list (list nat)).

Lemma knn_step_no_predict x nb_samples i X_train w st w' :
  knn_step kneighbors x nb_samples i X_train w = (Ok st, w') ->
  predict_batches (trace w') = predict_batches (trace w).
Proof.
  intros H. unfold knn_step in H.
  repeat step H.
  apply ret_ok in H. destruct H as [_ ->]. cbn [trace].
  rewrite predict_batches_app. cbn [predict_batches]. apply app_nil_r.
Qed.

Lemma knn_loop_no_predict x nb_samples range : forall X_train w l w',
  knn_loop kneighbors x nb_samples range X_train w = (Ok l, w') ->
  predict_batches (trace w') = predict_batches (trace w).
Proof.
  induction range as [|i range IH]; intros X_train w l w' H; cbn [knn_loop] in H.
  - apply ret_ok in H. destruct H as [_ ->]. reflexivity.
  - step H. step H. apply ret_ok in H. destruct H as [_ ->].
    rewrite (IH _ _ _ _ E0). eapply knn_step_no_predict. exact E.
Qed.

Lemma sample_knn_no_predict x X_train nb_samples w X w' :
  _sample_knn kneighbors x X_train nb_samples w = (Ok X, w') ->
  predict_batches (trace w') = predict_batches (trace w).
Proof.
  intros H. unfold _sample_knn in H.
  do 4 step H. apply lift_ok in H. destruct H as [_ ->].
  eapply knn_loop_no_predict. exact E2.
Qed.

End SamplerCalls.

(** * How often the prediction function is called *)

Section PredictCalls.

Variable np_log : Q -> Q.
Variable kneighbors : ndarray -> Z -> ndarray -> result (list (list nat)).

(** C1, amended: a scoring run that returns scores calls [predict_fn] exactly
    three times, whatever the model type, the sampling strategy, the number of
    instances and the number of samples: once on the batch of all samples,
    once on the instances, once on the batch of all superposed inputs. *)
Theorem scoring_calls_predict_three_times predict_fn x X_train features_range
  method epsilon nb_samples res alphas model_type w s w' :
  _linearity_measure np_log kneighbors predict_fn x X_train features_range
    method epsilon nb_samples res alphas model_type w = (Ok s, w') ->
  predict_calls (trace w') = (predict_calls (trace w) + 3)%nat /\
  exists n samples superposed,
    predict_batches (trace w')
    = predict_batches (trace w) ++ [samples; x; superposed] /\
    shape samples = n :: tl (shape x) /\
    shape superposed = n :: tl (shape x).
Proof.
  intros H. unfold _linearity_measure in H.
  step H. step H.
  assert (Hsampler : predict_batches (trace w0) = predict_batches (trace w)).
  { destruct (method =? "knn")%string.
    - step E0. destruct X_train as [X_train|]; [|discriminate E0].
      eapply sample_knn_no_predict. exact E0.
    - destruct (method =? "gridSampling")%string; [|discriminate E0].
      step E0. eapply sample_grid_no_predict. exact E0. }
  assert (Hscore : exists n b1 b3,
             shape b1 = n :: tl (shape x) /\ shape b3 = n :: tl (shape x) /\
             trace w' = trace w0 ++ [EvPredict b1; EvPredict x; EvPredict b3]).
  { destruct (model_type =? "classifier")%string.
    - step H. apply ret_ok in H. destruct H as [_ ->].
      destruct (classifier_trace _ _ _ _ _ _ _ _ _ E1)
        as (n & b1 & b3 & H1 & H3 & _ & _ & Ht).
      exists n, b1, b3. auto.
    - destruct (model_type =? "regressor")%string; [|discriminate H].
      step H. apply ret_ok in H. destruct H as [_ ->].
      destruct (regression_trace _ _ _ _ _ _ _ _ E1)
        as (n & b1 & b3 & H1 & H3 & _ & _ & Ht).
      exists n, b1, b3. auto. }
  destruct Hscore as (n & b1 & b3 & H1 & H3 & Ht).
  assert (Hb : predict_batches (trace w')
               = predict_batches (trace w) ++ [b1; x; b3]).
  { rewrite Ht, predict_batches_app, Hsampler. reflexivity. }
  split.
  - unfold predict_calls. rewrite Hb, length_app. reflexivity.
  - exists n, b1, b3. auto.
Qed.

End PredictCalls.

Lemma scoring_calls_predict_three_times_witness :
  predict_calls (trace (snd ex_grid_run))
  = (predict_calls (trace ex_world) + 3)%nat /\
  exists n samples superposed,
    predict_batches (trace (snd ex_grid_run))
    = predict_batches (trace ex_world) ++ [samples; ex_x; superposed] /\
    shape samples = n :: tl (shape ex_x) /\
    shape superposed = n :: tl (shape ex_x).
Proof.
  apply (scoring_calls_predict_three_times ex_log exact_kneighbors ex_linear
           ex_x None (Some ex_range) "gridSampling" (4 # 100) 3 100 None
           "regressor" ex_world ex_grid_scores (snd ex_grid_run)).
  apply injective_projections; [vm_compute; reflexivity | reflexivity].
Defined.

(** C1 as stated fails: a run with one instance and three samples makes
    three calls, not two. *)
Lemma scoring_run_with_three_predict_calls :
  fst ex_grid_run = Ok ex_grid_scores /\
  predict_calls (trace (snd ex_grid_run)) = 3%nat /\
  predict_calls (trace (snd ex_grid_run)) <> 2%nat.
Proof.
  split; [vm_compute; reflexivity|].
  split; [vm_compute; reflexivity|].
  vm_compute. discriminate.
Qed.

(** * Scores are never negative *)

Section ScoreSign.

Variable np_log : Q -> Q.
Variable kneighbors : ndarray -> Z -> ndarray -> result (list (list nat)).

(** C7, amended: every per-instance score returned by a scoring run, for
    either sampling strategy and either model type, is [>= 0] or [nan]; it is
    [nan] when the mean runs over an empty slice. *)
Theorem scores_nonnegative_or_nan predict_fn x X_train features_range method
  epsilon nb_samples res alphas model_type w s w' :
  _linearity_measure np_log kneighbors predict_fn x X_train features_range
    method epsilon nb_samples res alphas model_type w = (Ok s, w') ->
  Forall nan_or_ge0 (sdata s).
Proof.
  intros H. unfold _linearity_measure in H.
  step H. step H.
  destruct (model_type =? "classifier")%string.
  - step H. apply ret_ok in H. destruct H as [-> _].
    eapply classifier_scores_nonneg. exact E1.
  - destruct (model_type =? "regressor")%string; [|discriminate H].
    step H. apply ret_ok in H. destruct H as [-> _].
    eapply regression_scores_nonneg. exact E1.
Qed.

End ScoreSign.

Lemma scores_nonnegative_or_nan_witness : Forall nan_or_ge0 (sdata ex_grid_scores).
Proof.
  apply (scores_nonnegative_or_nan ex_log exact_kneighbors ex_linear
           ex_x None (Some ex_range) "gridSampling" (4 # 100) 3 100 None
           "regressor" ex_world ex_grid_scores (snd ex_grid_run)).
  apply injective_projections; [vm_compute; reflexivity | reflexivity].
Defined.

Example classifier_run_scores_zero :
  exists q, fst ex_classifier_run = Ok (mk_scores [1%nat] [Num q]) /\ q == 0.
Proof. eexists. split; [vm_compute; reflexivity | reflexivity]. Qed.

(** C7 as stated fails: with [nb_samples = 0] the grid strategy returns the
    score [nan], which is not [>= 0]. *)
Lemma empty_neighbourhood_scores_nan :
  fst ex_empty_run = Ok (mk_scores [1%nat] [NaN]) /\
  ~ Forall ge0 [NaN].
Proof.
  split; [vm_compute; reflexivity|].
  intros H. inversion H as [|? ? Hn _]. exact Hn.
Qed.

(** * The feature range of a training set *)

Lemma Qmin_cases (a b : Q) : Qmin a b = a \/ Qmin a b = b.
Proof.
  unfold Qmin, GenericMinMax.gmin. destruct (a ?= b); auto.
Qed.

Lemma Qmax_cases (a b : Q) : Qmax a b = a \/ Qmax a b = b.
Proof.
  unfold Qmax, GenericMinMax.gmax. destruct (a ?= b); auto.
Qed.

Lemma fold_min_spec l : forall a,
  In (fold_left Qmin l a) (a :: l) /\
  forall q, In q (a :: l) -> fold_left Qmin l a <= q.
Proof.
  induction l as [|b l IH]; intros a; cbn [fold_left].
  - split; [left; reflexivity|]. intros q [<-|[]]. apply Qle_refl.
  - destruct (IH (Qmin a b)) as (Hin & Hle). split.
    + destruct Hin as [Hin|Hin]; [|right; right; exact Hin].
      rewrite <- Hin. destruct (Qmin_cases a b) as [->| ->];
        [left | right; left]; reflexivity.
    + intros q [<-|[<-|Hq]].
      * eapply Qle_trans; [apply Hle; left; reflexivity | apply Q.le_min_l].
      * eapply Qle_trans; [apply Hle; left; reflexivity | apply Q.le_min_r].
      * apply Hle. right. exact Hq.
Qed.

Lemma fold_max_spec l : forall a,
  In (fold_left Qmax l a) (a :: l) /\
  forall q, In q (a :: l) -> q <= fold_left Qmax l a.
Proof.
  induction l as [|b l IH]; intros a; cbn [fold_left].
  - split; [left; reflexivity|]. intros q [<-|[]]. apply Qle_refl.
  - destruct (IH (Qmax a b)) as (Hin & Hle). split.
    + destruct Hin as [Hin|Hin]; [|right; right; exact Hin].
      rewrite <- Hin. destruct (Qmax_cases a b) as [->| ->];
        [left | right; left]; reflexivity.
    + intros q [<-|[<-|Hq]].
      * eapply Qle_trans; [apply Q.le_max_l | apply Hle; left; reflexivity].
      * eapply Qle_trans; [apply Q.le_max_r | apply Hle; left; reflexivity].
      * apply Hle. right. exact Hq.
Qed.

Lemma np_min_ok l :
  l <> [] ->
  exists m, np_min l = Ok m /\ In m l /\ forall q, In q l -> m <= q.
Proof.
  destruct l as [|a l]; [congruence|]. intros _.
  exists (fold_left Qmin l a). split; [reflexivity|]. apply fold_min_spec.
Qed.

Lemma np_max_ok l :
  l <> [] ->
  exists m, np_max l = Ok m /\ In m l /\ forall q, In q l -> q <= m.
Proof.
  destruct l as [|a l]; [congruence|]. intros _.
  exists (fold_left Qmax l a). split; [reflexivity|]. apply fold_max_spec.
Qed.

Lemma mapR_ok {A B} (f : A -> result B) (P : A -> B -> Prop) l :
  (forall a, In a l -> exists b, f a = Ok b /\ P a b) ->
  exists bs, mapR f l = Ok bs /\ Forall2 P l bs.
Proof.
  induction l as [|a l IH]; intros H; cbn [mapR].
  - exists []. split; [reflexivity | constructor].
  - destruct (H a (or_introl eq_refl)) as (b & Hb & HP).
    destruct IH as (bs & Hbs & HF); [intros a' Ha'; apply H; right; exact Ha'|].
    exists (b :: bs). rewrite Hb, Hbs. split; [reflexivity|].
    constructor; assumption.
Qed.

Lemma Forall2_nth_seq {B} (P : nat -> B -> Prop) n bs d :
  Forall2 P (seq 0 n) bs ->
  length bs = n /\ forall j, (j < n)%nat -> P j (nth j bs d).
Proof.
  intros H. pose proof (Forall2_length H) as Hl. rewrite length_seq in Hl.
  split; [symmetry; exact Hl|].
  intros j Hj.
  assert (Hg : forall l bs k, Forall2 P l bs -> (k < length l)%nat ->
                 P (nth k l 0%nat) (nth k bs d)).
  { clear. intros l bs k H. revert k.
    induction H as [|a b l bs Hab _ IH]; intros k Hk; cbn [length] in Hk.
    - lia.
    - destruct k as [|k]; cbn [nth]; [exact Hab | apply IH; lia]. }
  specialize (Hg _ _ j H). rewrite length_seq in Hg. specialize (Hg Hj).
  rewrite seq_nth in Hg by exact Hj. exact Hg.
Qed.

Lemma column_nonempty n d j l : n <> 0%nat -> column n d j l <> [].
Proof.
  intros Hn. unfold column. destruct n as [|n]; [congruence|].
  cbn [seq map]. discriminate.
Qed.

Lemma in_column n d j l q :
  In q (column n d j l) <-> exists i, (i < n)%nat /\ q = nth (i * d + j) l 0.
Proof.
  unfold column. rewrite in_map_iff. split.
  - intros (i & <- & Hi). apply in_seq in Hi. exists i. split; [lia | reflexivity].
  - intros (i & Hi & ->). exists i. split; [reflexivity | apply in_seq; lia].
Qed.

(** On a training set of [n >= 1] instances with [d] flattened features,
    [_infer_features_range] returns, per feature, the least and the greatest
    value the feature takes in the training set. *)
Lemma infer_features_range_spec X_train n d :
  hd_error (shape X_train) = Some n -> n <> 0%nat ->
  length (data X_train) = (n * d)%nat ->
  exists features_range,
    _infer_features_range X_train = Ok features_range /\
    length features_range = d /\
    forall j, (j < d)%nat ->
      (forall i, (i < n)%nat ->
         fst (nth j features_range (0, 0)) <= get2 d X_train i j
         <= snd (nth j features_range (0, 0))) /\
      (exists i, (i < n)%nat /\
         fst (nth j features_range (0, 0)) = get2 d X_train i j) /\
      (exists i, (i < n)%nat /\
         snd (nth j features_range (0, 0)) = get2 d X_train i j).
Proof.
  intros Hn Hn0 Hlen. unfold _infer_features_range, shape_at.
  destruct (shape X_train) as [|n' rest] eqn:Hs; [discriminate Hn|].
  injection Hn as ->. cbn [nth_error rbind].
  unfold reshape_rows.
  destruct (Nat.eqb_spec n 0) as [?|_]; [contradiction|].
  rewrite Hlen, Nat.mul_comm, Nat.Div0.mod_mul, Nat.div_mul by exact Hn0.
  cbn [Nat.eqb rbind shape nth_error data].
  destruct (mapR_ok (fun j => np_min (column n d j (data X_train)))
              (fun j m => In m (column n d j (data X_train)) /\
                          forall q, In q (column n d j (data X_train)) -> m <= q)
              (seq 0 d)) as (mins & Hmins & Fmin).
  { intros j _. apply np_min_ok, column_nonempty, Hn0. }
  destruct (mapR_ok (fun j => np_max (column n d j (data X_train)))
              (fun j m => In m (column n d j (data X_train)) /\
                          forall q, In q (column n d j (data X_train)) -> q <= m)
              (seq 0 d)) as (maxs & Hmaxs & Fmax).
  { intros j _. apply np_max_ok, column_nonempty, Hn0. }
  rewrite Hmins, Hmaxs. cbn [rbind].
  exists (combine mins maxs). split; [reflexivity|].
  destruct (Forall2_nth_seq _ d mins 0 Fmin) as (Lmin & Nmin).
  destruct (Forall2_nth_seq _ d maxs 0 Fmax) as (Lmax & Nmax).
  split; [rewrite length_combine, Lmin, Lmax; apply Nat.min_id|].
  intros j Hj. rewrite combine_nth by congruence. cbn [fst snd].
  destruct (Nmin j Hj) as (Imin & Bmin). destruct (Nmax j Hj) as (Imax & Bmax).
  unfold get2. split; [|split].
  - intros i Hi. split.
    + apply Bmin. apply in_column. exists i. auto.
    + apply Bmax. apply in_column. exists i. auto.
  - apply in_column in Imin. exact Imin.
  - apply in_column in Imax. exact Imax.
Qed.

Example infer_features_range_of_ex_train :
  _infer_features_range ex_train = Ok [(0, 2); (0, 2)].
Proof. reflexivity. Qed.

(** * The stateless entry point with grid sampling *)

Section Stateless.

Variable np_log : Q -> Q.
Variable kneighbors : ndarray -> Z -> ndarray -> result (list (list nat)).

(** C9: with [method = 'gridSampling'], the stateless entry point raises an
    assertion error, before any sampling or prediction, when neither a
    training set nor a feature range is given; given a training set (of
    [n >= 1] instances) and no range, it scores with the range inferred from
    the training set, whose row [j] holds the least and the greatest value of
    flattened feature [j]. *)
Theorem grid_needs_range_or_training_set predict_fn x epsilon nb_samples res
  alphas model_type w X_train n d :
  hd_error (shape X_train) = Some n -> n <> 0%nat ->
  length (data X_train) = (n * d)%nat ->
  linearity_measure np_log kneighbors predict_fn x None "gridSampling" None
    epsilon nb_samples res alphas model_type w = (Raise AssertionError, w)
  /\
  exists features_range,
    _infer_features_range X_train = Ok features_range /\
    linearity_measure np_log kneighbors predict_fn x None "gridSampling"
      (Some X_train) epsilon nb_samples res alphas model_type w
    = _linearity_measure np_log kneighbors predict_fn x None
        (Some features_range) "gridSampling" epsilon nb_samples res alphas
        model_type w /\
    length features_range = d /\
    forall j, (j < d)%nat ->
      (forall i, (i < n)%nat ->
         fst (nth j features_range (0, 0)) <= get2 d X_train i j
         <= snd (nth j features_range (0, 0))) /\
      (exists i, (i < n)%nat /\
         fst (nth j features_range (0, 0)) = get2 d X_train i j) /\
      (exists i, (i < n)%nat /\
         snd (nth j features_range (0, 0)) = get2 d X_train i j).
Proof.
  intros Hn Hn0 Hlen. split; [reflexivity|].
  destruct (infer_features_range_spec X_train n d Hn Hn0 Hlen)
    as (fr & Hfr & Hl & Hspec).
  exists fr. split; [exact Hfr|]. split; [|split; [exact Hl | exact Hspec]].
  unfold linearity_measure. cbn [String.eqb Ascii.eqb Bool.eqb].
  cbn [assert]. unfold bind at 1. cbn [ret].
  unfold bind at 1. unfold bind at 1. rewrite Hfr. unfold lift. cbn [ret].
  reflexivity.
Qed.

End Stateless.

Lemma grid_needs_range_or_training_set_witness :
  linearity_measure ex_log exact_kneighbors ex_linear ex_x None "gridSampling"
    None (4 # 100) 3 100 None "regressor" ex_world
  = (Raise AssertionError, ex_world)
  /\
  exists features_range,
    _infer_features_range ex_train = Ok features_range /\
    linearity_measure ex_log exact_kneighbors ex_linear ex_x None
      "gridSampling" (Some ex_train) (4 # 100) 3 100 None "regressor" ex_world
    = _linearity_measure ex_log exact_kneighbors ex_linear ex_x None
        (Some features_range) "gridSampling" (4 # 100) 3 100 None "regressor"
        ex_world /\
    length features_range = 2%nat /\
    forall j, (j < 2)%nat ->
      (forall i, (i < 3)%nat ->
         fst (nth j features_range (0, 0)) <= get2 2 ex_train i j
         <= snd (nth j features_range (0, 0))) /\
      (exists i, (i < 3)%nat /\
         fst (nth j features_range (0, 0)) = get2 2 ex_train i j) /\
      (exists i, (i < 3)%nat /\
         snd (nth j features_range (0, 0)) = get2 2 ex_train i j).
Proof.
  apply (grid_needs_range_or_training_set ex_log exact_kneighbors ex_linear
           ex_x (4 # 100) 3 100 None "regressor" ex_world ex_train 3 2).
  - reflexivity.
  - lia.
  - reflexivity.
Defined.

(** * The nearest-neighbour sampler *)

Lemma row_concat_uniform (blocks : list (list Q)) D r :
  Forall (fun b => length b = D) blocks ->
  (r < length blocks)%nat ->
  row D r (concat blocks) = nth r blocks [].
Proof.
  intros HF. revert r. induction HF as [|b bs Hb _ IH]; intros r Hr;
    cbn [length] in Hr; [lia|].
  cbn [concat]. unfold row. destruct r as [|r].
  - cbn [Nat.mul skipn nth]. rewrite firstn_app, Hb, Nat.sub_diag.
    cbn [firstn]. rewrite app_nil_r. apply firstn_all2. lia.
  - cbn [nth]. rewrite skipn_app, Hb.
    rewrite skipn_all2 by lia. cbn [app].
    replace (S r * D - D)%nat with (r * D)%nat by lia.
    apply IH. lia.
Qed.

Lemma row_row (l : list Q) K D i k :
  (k < K)%nat -> row D k (row (K * D) i l) = row D (i * K + k) l.
Proof.
  intros Hk. unfold row.
  rewrite skipn_firstn_comm, firstn_firstn, skipn_skipn.
  f_equal; [nia | f_equal; nia].
Qed.

Lemma length_concat_uniform (blocks : list (list Q)) D :
  Forall (fun b => length b = D) blocks ->
  length (concat blocks) = (length blocks * D)%nat.
Proof.
  induction 1 as [|b bs Hb _ IH]; cbn [concat length]; [reflexivity|].
  rewrite length_app, Hb, IH. lia.
Qed.

Lemma bind_lift_ok {A B} (r : result A) (a : A) (k : A -> M B) w :
  r = Ok a -> bind (lift r) k w = k a w.
Proof. intros ->. reflexivity. Qed.

Lemma reshape_rows_exact a n d :
  n <> 0%nat -> length (data a) = (n * d)%nat ->
  reshape_rows a n = Ok (mk_ndarray [n; d] (data a)).
Proof.
  intros Hn Hl. unfold reshape_rows.
  destruct (Nat.eqb_spec n 0) as [?|_]; [contradiction|].
  rewrite Hl, Nat.mul_comm, Nat.Div0.mod_mul, Nat.div_mul by exact Hn.
  reflexivity.
Qed.

Lemma shape_at_hd a n : hd_error (shape a) = Some n -> shape_at a 0 = Ok n.
Proof.
  unfold shape_at. destruct (shape a); cbn; [discriminate|].
  intros H. injection H as ->. reflexivity.
Qed.

Lemma np_stack_repeat a n :
  n <> 0%nat ->
  np_stack (repeat a n)
  = Ok (mk_ndarray (n :: shape a) (concat (repeat (data a) n))).
Proof.
  intros Hn. destruct n as [|n]; [congruence|].
  assert (H : forallb (fun b => shape_eqb (shape b) (shape a)) (repeat a (S n))
              = true).
  { apply forallb_forall. intros b Hb. apply repeat_spec in Hb. subst b.
    apply shape_eqb_refl. }
  rewrite <- (map_repeat a (S n) data).
  rewrite <- (repeat_length a (S n)) at 2.
  cbn [repeat] in *. unfold np_stack. rewrite H. reflexivity.
Qed.

Lemma take_rows_ok a n d idxs :
  shape a = [n; d] -> (forall j, In j idxs -> (j < n)%nat) ->
  take_rows a idxs
  = Ok (mk_ndarray [length idxs; d]
          (concat (map (fun j => row d j (data a)) idxs))).
Proof.
  intros Hs Hb. unfold take_rows. rewrite Hs.
  assert (H : mapR (fun i => if (i <? n)%nat then Ok (row d i (data a))
                             else Raise IndexError) idxs
              = Ok (map (fun j => row d j (data a)) idxs)).
  { induction idxs as [|j idxs IH]; cbn [mapR map]; [reflexivity|].
    destruct (Nat.ltb_spec j n) as [_|Hge].
    - cbn [rbind]. rewrite IH; [reflexivity|].
      intros j' Hj'. apply Hb. right. exact Hj'.
    - specialize (Hb j (or_introl eq_refl)). lia. }
  rewrite H. reflexivity.
Qed.

Lemma np_array_uniform l s :
  l <> [] -> Forall (fun a => shape a = s) l ->
  np_array l = Ok (mk_ndarray (length l :: s) (concat (map data l))).
Proof.
  intros Hne HF. destruct l as [|a l]; [congruence|].
  unfold np_array, np_stack.
  assert (H : forallb (fun b => shape_eqb (shape b) (shape a)) (a :: l) = true).
  { apply forallb_forall. intros b Hb. rewrite Forall_forall in HF.
    rewrite (HF b Hb), (HF a (or_introl eq_refl)). apply shape_eqb_refl. }
  rewrite H. rewrite Forall_forall in HF. rewrite (HF a (or_introl eq_refl)).
  reflexivity.
Qed.

Section KnnSampler.

Variable kneighbors : ndarray -> Z -> ndarray -> result (list (list nat)).
Hypothesis contract : kneighbors_contract kneighbors.

Variables (x X_train : ndarray) (nb_samples : Z) (N n D : nat).
Hypothesis x_rows : hd_error (shape x) = Some N.
Hypothesis x_nonempty : N <> 0%nat.
Hypothesis x_size : length (data x) = (N * D)%nat.
Hypothesis train_rows : hd_error (shape X_train) = Some n.
Hypothesis train_size : length (data X_train) = (n * D)%nat.
Hypothesis features : (1 <= D)%nat.
Hypothesis k_range : (1 <= nb_samples <= Z.of_nat n)%Z.

Local Abbreviation K := (Z.to_nat nb_samples).
Local Abbreviation x2 := (mk_ndarray [N; D] (data x)).
Local Abbreviation train2 := (mk_ndarray [n; D] (data X_train)).
Local Abbreviation selected := (selected_rows K D (data X_train)).

Lemma length_x_row i : (i < N)%nat -> length (row D i (data x)) = D.
Proof. intros Hi. apply length_row. rewrite x_size. nia. Qed.

Lemma knn_step_spec i :
  (i < N)%nat ->
  exists idxs,
    k_nearest n D (data X_train) (row D i (data x)) K idxs /\
    forall X_train' w,
      hd_error (shape X_train') = Some n -> data X_train' = data X_train ->
      exists w',
        knn_step kneighbors x2 nb_samples i X_train' w
        = (Ok (train2, selected idxs), w').
Proof.
  intros Hi.
  assert (Hn : n <> 0%nat) by lia.
  set (stack := mk_ndarray [n; D] (concat (repeat (row D i (data x)) n))).
  assert (Hstack : length (data stack) = (n * D)%nat).
  { cbn [data stack]. rewrite length_concat_uniform with (D := D).
    - rewrite repeat_length. reflexivity.
    - apply Forall_forall. intros b Hb. apply repeat_spec in Hb. subst b.
      apply length_x_row. exact Hi. }
  destruct (contract train2 nb_samples stack n D n eq_refl train_size eq_refl
              Hstack features k_range) as (idx & Hidx & Hlen & Hnear).
  destruct idx as [|idxs idx']; [cbn in Hlen; lia|].
  exists idxs.
  assert (Hk : k_nearest n D (data X_train) (row D i (data x)) K idxs).
  { specialize (Hnear 0%nat ltac:(lia)). cbn [nth] in Hnear.
    replace (row D 0 (data stack)) with (row D i (data x)) in Hnear;
      [exact Hnear|].
    cbn [data stack]. rewrite row_concat_uniform.
    - destruct n; [congruence | reflexivity].
    - apply Forall_forall. intros b Hb. apply repeat_spec in Hb. subst b.
      apply length_x_row. exact Hi.
    - rewrite repeat_length. lia. }
  split; [exact Hk|].
  intros X_train' w Hs Hd.
  unfold knn_step.
  rewrite (bind_lift_ok _ n) by (apply shape_at_hd; exact Hs).
  rewrite (bind_lift_ok _ (mk_ndarray [n; D] (data X_train')))
    by (apply reshape_rows_exact; [exact Hn | rewrite Hd; exact train_size]).
  rewrite (bind_lift_ok _ n) by reflexivity.
  rewrite (bind_lift_ok _ D) by reflexivity.
  cbn [data].
  rewrite (bind_lift_ok _ (mk_ndarray [n; D]
                             (concat (repeat (row D i (data x)) n))))
    by (rewrite np_stack_repeat by exact Hn; reflexivity).
  rewrite (bind_lift_ok _ n) by reflexivity.
  rewrite (bind_lift_ok _ stack)
    by (apply reshape_rows_exact; [exact Hn | exact Hstack]).
  rewrite Hd.
  unfold bind at 1. cbn [log_event].
  rewrite (bind_lift_ok _ (idxs :: idx')) by exact Hidx.
  rewrite (bind_lift_ok _ idxs) by reflexivity.
  destruct Hk as (HlenK & _ & Hbound & _).
  rewrite (bind_lift_ok _ (selected idxs)).
  - eexists. reflexivity.
  - rewrite (take_rows_ok train2 n D idxs eq_refl Hbound).
    unfold selected_rows. rewrite HlenK. reflexivity.
Qed.

Lemma knn_loop_spec range :
  (forall i, In i range -> (i < N)%nat) ->
  exists idxss,
    Forall2 (fun i idxs =>
               k_nearest n D (data X_train) (row D i (data x)) K idxs)
            range idxss /\
    forall X_train' w,
      hd_error (shape X_train') = Some n -> data X_train' = data X_train ->
      exists w',
        knn_loop kneighbors x2 nb_samples range X_train' w
        = (Ok (map selected idxss), w').
Proof.
  induction range as [|i range IH]; intros Hr.
  - exists []. split; [constructor|]. intros X_train' w _ _.
    exists w. reflexivity.
  - destruct (knn_step_spec i (Hr i (or_introl eq_refl))) as (idxs & Hk & Hstep).
    destruct IH as (idxss & HF & Hloop);
      [intros j Hj; apply Hr; right; exact Hj|].
    exists (idxs :: idxss). split; [constructor; assumption|].
    intros X_train' w Hs Hd. cbn [knn_loop map].
    destruct (Hstep X_train' w Hs Hd) as (w1 & E1).
    destruct (Hloop train2 w1 eq_refl eq_refl) as (w2 & E2).
    exists w2. unfold bind at 1. rewrite E1. cbn [fst snd].
    unfold bind at 1. rewrite E2. reflexivity.
Qed.

Lemma sample_knn_spec :
  exists idxss,
    Forall2 (fun i idxs =>
               k_nearest n D (data X_train) (row D i (data x)) K idxs)
            (seq 0 N) idxss /\
    forall w,
      exists w',
        _sample_knn kneighbors x X_train nb_samples w
        = (Ok (mk_ndarray [N; K; D] (concat (map data (map selected idxss)))),
           w').
Proof.
  destruct (knn_loop_spec (seq 0 N)) as (idxss & HF & Hloop).
  { intros i Hi. apply in_seq in Hi. lia. }
  exists idxss. split; [exact HF|].
  intros w. unfold _sample_knn.
  rewrite (bind_lift_ok _ N) by (apply shape_at_hd; exact x_rows).
  rewrite (bind_lift_ok _ x2)
    by (apply reshape_rows_exact; [exact x_nonempty | exact x_size]).
  rewrite (bind_lift_ok _ N) by reflexivity.
  destruct (Hloop X_train w train_rows eq_refl) as (w' & E).
  exists w'. unfold bind. rewrite E. unfold lift.
  pose proof (Forall2_length HF) as Hlen. rewrite length_seq in Hlen.
  rewrite (np_array_uniform (map selected idxss) [K; D]).
  - rewrite length_map, <- Hlen. reflexivity.
  - destruct idxss; [cbn in Hlen; congruence | discriminate].
  - apply Forall_forall. intros a Ha. apply in_map_iff in Ha.
    destruct Ha as (idxs & <- & _). reflexivity.
Qed.

(** Sample [k] of instance [i] is the training row listed at place [k]. *)
Lemma selected_row idxss i k :
  Forall2 (fun i idxs =>
             k_nearest n D (data X_train) (row D i (data x)) K idxs)
          (seq 0 N) idxss ->
  (i < N)%nat -> (k < K)%nat ->
  row D (i * K + k) (concat (map data (map selected idxss)))
  = row D (nth k (nth i idxss []) 0%nat) (data X_train).
Proof.
  intros HF Hi Hk.
  pose proof (Forall2_length HF) as Hlen. rewrite length_seq in Hlen.
  destruct (Forall2_nth_seq _ N idxss [] HF) as (_ & Hnth).
  assert (Hrows : forall idxs, In idxs idxss ->
            Forall (fun b => length b = D)
                   (map (fun j => row D j (data X_train)) idxs) /\
            length idxs = K).
  { intros idxs Hin. apply (In_nth _ _ []) in Hin.
    destruct Hin as (p & Hp & <-). rewrite <- Hlen in Hp.
    destruct (Hnth p Hp) as (HlK & _ & Hb & _). split; [|exact HlK].
    apply Forall_forall. intros b Hb'. apply in_map_iff in Hb'.
    destruct Hb' as (j & <- & Hj). apply length_row.
    specialize (Hb j Hj). rewrite train_size. nia. }
  rewrite <- row_row by exact Hk.
  rewrite row_concat_uniform.
  - rewrite map_map.
    rewrite nth_indep with (d' := data (selected []))
      by (rewrite length_map; lia).
    rewrite (map_nth (fun idxs => data (selected idxs)) idxss [] i).
    unfold selected_rows. cbn [data].
    destruct (Hrows (nth i idxss [])) as (HD & HK);
      [apply nth_In; lia|].
    rewrite row_concat_uniform; [|exact HD | rewrite length_map; lia].
    rewrite nth_indep with (d' := row D 0 (data X_train))
      by (rewrite length_map; lia).
    apply (map_nth (fun j => row D j (data X_train))).
  - apply Forall_forall. intros b Hb. apply in_map_iff in Hb.
    destruct Hb as (a & <- & Ha). apply in_map_iff in Ha.
    destruct Ha as (idxs & <- & Hin). unfold selected_rows. cbn [data].
    destruct (Hrows idxs Hin) as (HD & HK).
    rewrite length_concat_uniform with (D := D) by exact HD.
    rewrite length_map, HK. reflexivity.
  - rewrite !length_map. lia.
Qed.

End KnnSampler.

(** ** The exact index meets the contract *)

Section InsertionSort.

Variable key : nat -> Q.

Local Abbreviation R := (key_le key).

Lemma insert_by_perm i l : Permutation (insert_by key i l) (i :: l).
Proof.
  induction l as [|j l IH]; cbn [insert_by]; [apply Permutation_refl|].
  destruct (Qle_bool (key i) (key j)); [apply Permutation_refl|].
  eapply Permutation_trans; [apply perm_skip, IH | apply perm_swap].
Qed.

Lemma sort_by_perm l : Permutation (sort_by key l) l.
Proof.
  induction l as [|i l IH]; cbn [sort_by fold_right]; [constructor|].
  eapply Permutation_trans; [apply insert_by_perm | apply perm_skip, IH].
Qed.

Lemma insert_by_sorted i l :
  StronglySorted R l -> StronglySorted R (insert_by key i l).
Proof.
  induction 1 as [|j l Hs IH Hj]; cbn [insert_by].
  - constructor; constructor.
  - destruct (Qle_bool (key i) (key j)) eqn:E.
    + apply Qle_bool_iff in E. constructor.
      * constructor; assumption.
      * constructor; [exact E|].
        eapply Forall_impl; [|exact Hj]. intros a Ha. unfold key_le in *.
        eapply Qle_trans; eassumption.
    + constructor; [exact IH|].
      assert (Hji : R j i).
      { unfold key_le. destruct (Qlt_le_dec (key i) (key j)) as [Hlt|Hle].
        - apply Qlt_le_weak in Hlt. apply Qle_bool_iff in Hlt. congruence.
        - exact Hle. }
      apply Forall_forall. intros a Ha.
      apply (Permutation_in _ (insert_by_perm i l)) in Ha.
      destruct Ha as [<-|Ha]; [exact Hji|].
      rewrite Forall_forall in Hj. apply Hj. exact Ha.
Qed.

Lemma sort_by_sorted l : StronglySorted R (sort_by key l).
Proof.
  induction l as [|i l IH]; cbn [sort_by fold_right]; [constructor|].
  apply insert_by_sorted. exact IH.
Qed.

Lemma sorted_app_le p : forall q,
  StronglySorted R (p ++ q) -> forall a b, In a p -> In b q -> R a b.
Proof.
  induction p as [|c p IH]; intros q Hs a b Ha Hb; [contradiction|].
  cbn [app] in Hs. inversion Hs as [|? ? Hs' Hc]; subst.
  destruct Ha as [<-|Ha].
  - rewrite Forall_forall in Hc. apply Hc. apply in_or_app. right. exact Hb.
  - eapply IH; eassumption.
Qed.

Lemma sorted_nth l : StronglySorted R l ->
  forall a b, (a < b < length l)%nat -> R (nth a l 0%nat) (nth b l 0%nat).
Proof.
  induction 1 as [|c l Hs IH Hc]; intros a b Hab; cbn [length] in Hab; [lia|].
  destruct b as [|b]; [lia|]. destruct a as [|a]; cbn [nth].
  - rewrite Forall_forall in Hc. apply Hc. apply nth_In. lia.
  - apply IH. lia.
Qed.

Lemma sorted_prefix_nearest n k :
  (k <= n)%nat ->
  let idxs := firstn k (sort_by key (seq 0 n)) in
  length idxs = k /\
  NoDup idxs /\
  (forall j, In j idxs -> (j < n)%nat) /\
  (forall a b, (a < b < k)%nat -> R (nth a idxs 0%nat) (nth b idxs 0%nat)) /\
  (forall j m, In j idxs -> (m < n)%nat -> ~ In m idxs -> R j m).
Proof.
  intros Hk idxs.
  set (s := sort_by key (seq 0 n)) in *.
  pose proof (sort_by_perm (seq 0 n)) as Hp. fold s in Hp.
  pose proof (sort_by_sorted (seq 0 n)) as Hs. fold s in Hs.
  assert (Hls : length s = n).
  { rewrite (Permutation_length Hp). apply length_seq. }
  assert (Hsplit : s = idxs ++ skipn k s)
    by (symmetry; apply firstn_skipn).
  assert (Hlen : length idxs = k).
  { unfold idxs. rewrite length_firstn. lia. }
  assert (Hnd : NoDup s).
  { eapply Permutation_NoDup; [apply Permutation_sym; exact Hp | apply seq_NoDup]. }
  split; [exact Hlen|]. split; [|split; [|split]].
  - rewrite Hsplit in Hnd. eapply NoDup_app_remove_r. exact Hnd.
  - intros j Hj. assert (Hin : In j s) by (rewrite Hsplit; apply in_or_app; auto).
    apply (Permutation_in _ Hp) in Hin. apply in_seq in Hin. lia.
  - intros a b Hab.
    assert (Hsi : StronglySorted R idxs).
    { rewrite Hsplit in Hs. clear - Hs. induction idxs as [|c p IH]; [constructor|].
      cbn [app] in Hs. inversion Hs as [|? ? Hs' Hc]; subst.
      constructor; [apply IH; exact Hs'|].
      apply Forall_app in Hc. apply Hc. }
    apply sorted_nth; [exact Hsi | lia].
  - intros j m Hj Hm Hnot.
    assert (Hin : In m s).
    { apply (Permutation_in _ (Permutation_sym Hp)). apply in_seq. lia. }
    rewrite Hsplit in Hin. apply in_app_or in Hin.
    destruct Hin as [Hin|Hin]; [contradiction|].
    rewrite Hsplit in Hs. eapply sorted_app_le; eassumption.
Qed.

End InsertionSort.

Lemma exact_kneighbors_contract : kneighbors_contract exact_kneighbors.
Proof.
  intros train k queries n d m Ht _ Hq _ Hd Hk.
  unfold exact_kneighbors. rewrite Ht, Hq.
  rewrite Nat.eqb_refl.
  destruct (Nat.leb_spec 1 d) as [_|?]; [|lia].
  destruct (Z.leb_spec 1 k) as [_|?]; [|lia].
  destruct (Z.leb_spec k (Z.of_nat n)) as [_|?]; [|lia].
  cbn [andb]. eexists. split; [reflexivity|].
  split; [rewrite length_map, length_seq; reflexivity|].
  intros r Hr. rewrite nth_map_seq by exact Hr.
  unfold k_nearest.
  apply (sorted_prefix_nearest
           (fun j => sqdist (row d r (data queries)) (row d j (data train)))
           n (Z.to_nat k)).
  lia.
Qed.

(** C5: for a training set of [n] points and a batch of [N >= 1] instances
    of the same flattened dimension, and [1 <= nb_samples <= n], the
    nearest-neighbour sampler returns, whatever the state of the world (so
    the same on every run), for each instance the [nb_samples] training
    points closest to it by Euclidean distance over flattened vectors, in
    non-decreasing order of distance. *)
Theorem knn_sampler_returns_nearest kneighbors x X_train nb_samples N n D :
  kneighbors_contract kneighbors ->
  hd_error (shape x) = Some N -> N <> 0%nat ->
  length (data x) = (N * D)%nat ->
  hd_error (shape X_train) = Some n ->
  length (data X_train) = (n * D)%nat ->
  (1 <= D)%nat -> (1 <= nb_samples <= Z.of_nat n)%Z ->
  exists X,
    (forall w, fst (_sample_knn kneighbors x X_train nb_samples w) = Ok X) /\
    shape X = [N; Z.to_nat nb_samples; D] /\
    forall i, (i < N)%nat ->
      exists idxs,
        k_nearest n D (data X_train) (row D i (data x))
          (Z.to_nat nb_samples) idxs /\
        forall k, (k < Z.to_nat nb_samples)%nat ->
          row D (i * Z.to_nat nb_samples + k) (data X)
          = row D (nth k idxs 0%nat) (data X_train).
Proof.
  intros Hc Hx HN Hxs Ht Hts HD Hk.
  destruct (sample_knn_spec kneighbors Hc x X_train nb_samples N n D
              Hx HN Hxs Ht Hts HD Hk) as (idxss & HF & Hrun).
  eexists. split; [|split].
  - intros w. destruct (Hrun w) as (w' & E). rewrite E. reflexivity.
  - reflexivity.
  - intros i Hi. exists (nth i idxss []).
    destruct (Forall2_nth_seq _ N idxss [] HF) as (_ & Hnth).
    split; [apply Hnth; exact Hi|].
    intros k Hk'. cbn [data].
    apply (selected_row x X_train nb_samples N n D HN Hxs Hts HD Hk idxss i k
             HF Hi Hk').
Qed.

Lemma knn_sampler_returns_nearest_witness :
  exists X,
    (forall w, fst (_sample_knn exact_kneighbors ex_x ex_train 2 w) = Ok X) /\
    shape X = [1%nat; Z.to_nat 2; 2%nat] /\
    forall i, (i < 1)%nat ->
      exists idxs,
        k_nearest 3 2 (data ex_train) (row 2 i (data ex_x)) (Z.to_nat 2) idxs /\
        forall k, (k < Z.to_nat 2)%nat ->
          row 2 (i * Z.to_nat 2 + k) (data X)
          = row 2 (nth k idxs 0%nat) (data ex_train).
Proof.
  apply (knn_sampler_returns_nearest exact_kneighbors ex_x ex_train 2 1 3 2).
  - exact exact_kneighbors_contract.
  - reflexivity.
  - lia.
  - reflexivity.
  - reflexivity.
  - reflexivity.
  - lia.
  - lia.
Defined.

(** C6, amended: each of the [nb_samples] neighbourhood members returned by
    the nearest-neighbour sampler is a training instance flattened to a
    vector of [prod(input_shape)] features: the sampler returns an array of
    shape [(N, nb_samples, prod(input_shape))] whose rows are rows of the
    flattened training set, for any rank of [input_shape]. *)
Theorem knn_sampler_returns_flattened_rows kneighbors x X_train nb_samples N n
  input_shape :
  kneighbors_contract kneighbors ->
  shape x = N :: input_shape -> N <> 0%nat -> wf x ->
  shape X_train = n :: input_shape -> wf X_train ->
  (1 <= size_of input_shape)%nat -> (1 <= nb_samples <= Z.of_nat n)%Z ->
  exists X,
    (forall w, fst (_sample_knn kneighbors x X_train nb_samples w) = Ok X) /\
    shape X = [N; Z.to_nat nb_samples; size_of input_shape] /\
    forall i k, (i < N)%nat -> (k < Z.to_nat nb_samples)%nat ->
      exists m, (m < n)%nat /\
        row (size_of input_shape) (i * Z.to_nat nb_samples + k) (data X)
        = row (size_of input_shape) m (data X_train).
Proof.
  intros Hc Hx HN Hwx Ht Hwt HD Hk.
  unfold wf in Hwx, Hwt. rewrite Hx in Hwx. rewrite Ht in Hwt.
  cbn [size_of fold_right] in Hwx, Hwt. fold (size_of input_shape) in Hwx, Hwt.
  assert (Hx' : hd_error (shape x) = Some N) by (rewrite Hx; reflexivity).
  assert (Ht' : hd_error (shape X_train) = Some n) by (rewrite Ht; reflexivity).
  destruct (sample_knn_spec kneighbors Hc x X_train nb_samples N n
              (size_of input_shape) Hx' HN Hwx Ht' Hwt HD Hk)
    as (idxss & HF & Hrun).
  eexists. split; [|split].
  - intros w. destruct (Hrun w) as (w' & E). rewrite E. reflexivity.
  - reflexivity.
  - intros i k Hi Hk'.
    destruct (Forall2_nth_seq _ N idxss [] HF) as (_ & Hnth).
    destruct (Hnth i Hi) as (Hlen & _ & Hb & _).
    exists (nth k (nth i idxss []) 0%nat). split.
    + apply Hb. apply nth_In. rewrite Hlen. exact Hk'.
    + cbn [data].
      apply (selected_row x X_train nb_samples N n (size_of input_shape)
               HN Hwx Hwt HD Hk idxss i k HF Hi Hk').
Qed.

Lemma knn_sampler_returns_flattened_rows_witness :
  exists X,
    (forall w,
       fst (_sample_knn exact_kneighbors ex_image_x ex_image_train 1 w) = Ok X)
    /\
    shape X = [1%nat; Z.to_nat 1; size_of [2%nat; 2%nat]] /\
    forall i k, (i < 1)%nat -> (k < Z.to_nat 1)%nat ->
      exists m, (m < 2)%nat /\
        row (size_of [2%nat; 2%nat]) (i * Z.to_nat 1 + k) (data X)
        = row (size_of [2%nat; 2%nat]) m (data ex_image_train).
Proof.
  apply (knn_sampler_returns_flattened_rows exact_kneighbors ex_image_x
           ex_image_train 1 1 2 [2%nat; 2%nat]).
  - exact exact_kneighbors_contract.
  - reflexivity.
  - lia.
  - reflexivity.
  - reflexivity.
  - reflexivity.
  - simpl; lia.
  - lia.
Defined.

(** C6 as stated fails: for 2x2 instances the sampler returns members of
    shape [(4,)], not of the input shape [(2, 2)]. *)
Lemma knn_sample_not_of_input_shape :
  fst (_sample_knn exact_kneighbors ex_image_x ex_image_train 1 ex_world)
  = Ok (mk_ndarray [1%nat; 1%nat; 4%nat] [1; 1; 1; 2]) /\
  skipn 2 [1%nat; 1%nat; 4%nat] <> tl (shape ex_image_train).
Proof.
  split; [vm_compute; reflexivity | discriminate].
Qed.

(** * Affine regressors *)

Lemma row_map (f : Q -> Q) w i l : row w i (map f l) = map f (row w i l).
Proof. unfold row. rewrite skipn_map, firstn_map. reflexivity. Qed.

Lemma skipn_combine {A B} n : forall (l : list A) (l' : list B),
  skipn n (combine l l') = combine (skipn n l) (skipn n l').
Proof.
  induction n as [|n IH]; intros l l'; [reflexivity|].
  destruct l as [|a l], l' as [|b l']; cbn [skipn combine]; try reflexivity.
  - destruct (skipn n l); reflexivity.
  - apply IH.
Qed.

Lemma row_map_combine (f : Q * Q -> Q) w i l l' :
  row w i (map f (combine l l')) = map f (combine (row w i l) (row w i l')).
Proof.
  unfold row. rewrite skipn_map, firstn_map, skipn_combine, combine_firstn.
  reflexivity.
Qed.

Lemma length_concat_repeat (b : list Q) K :
  length (concat (repeat b K)) = (K * length b)%nat.
Proof.
  rewrite length_concat_uniform with (D := length b).
  - rewrite repeat_length. reflexivity.
  - apply Forall_forall. intros c Hc. apply repeat_spec in Hc. subst c.
    reflexivity.
Qed.

(** Row [i * K + u] of an array repeated [K] times along axis 1 is row [i]
    of the original. *)
Lemma row_repeat_axis1 (l : list Q) N K D i u :
  length l = (N * D)%nat -> (i < N)%nat -> (u < K)%nat ->
  row D (i * K + u)
      (flat_map (fun i => concat (repeat (row D i l) K)) (seq 0 N))
  = row D i l.
Proof.
  intros Hl Hi Hu.
  assert (Hrow : forall p, (p < N)%nat -> length (row D p l) = D).
  { intros p Hp. apply length_row. rewrite Hl. nia. }
  rewrite <- row_row by exact Hu.
  rewrite flat_map_concat_map, row_concat_uniform.
  - rewrite nth_indep with (d' := concat (repeat (row D 0 l) K))
      by (rewrite length_map, length_seq; exact Hi).
    rewrite (map_nth (fun i => concat (repeat (row D i l) K))).
    rewrite seq_nth by exact Hi. cbn [Nat.add].
    rewrite row_concat_uniform.
    + apply nth_repeat_lt. exact Hu.
    + apply Forall_forall. intros c Hc. apply repeat_spec in Hc. subst c.
      apply Hrow. exact Hi.
    + rewrite repeat_length. exact Hu.
  - apply Forall_forall. intros c Hc. apply in_map_iff in Hc.
    destruct Hc as (p & <- & Hp). apply in_seq in Hp.
    rewrite length_concat_repeat, Hrow by lia. reflexivity.
  - rewrite length_map, length_seq. exact Hi.
Qed.

Lemma length_repeat_axis1 (l : list Q) N K D :
  length l = (N * D)%nat ->
  length (flat_map (fun i => concat (repeat (row D i l) K)) (seq 0 N))
  = (N * (K * D))%nat.
Proof.
  intros Hl. rewrite length_flat_map_uniform with (m := (K * D)%nat).
  - rewrite length_seq. reflexivity.
  - intros p Hp. apply in_seq in Hp. rewrite length_concat_repeat, length_row.
    + reflexivity.
    + rewrite Hl. nia.
Qed.


Lemma affine_fn_shape A b batch m rest :
  shape batch = m :: rest ->
  affine_fn A b batch
  = mk_ndarray [m]
      (map (fun r => dot A (row (size_of rest) r (data batch)) + b) (seq 0 m)).
Proof. intros H. unfold affine_fn. rewrite H. reflexivity. Qed.


Lemma Qsum_zero l : Forall (fun q => q == 0) l -> Qsum l == 0.
Proof.
  induction 1 as [|q l Hq _ IH]; cbn [Qsum fold_right]; [reflexivity|].
  fold (Qsum l). rewrite Hq, IH. reflexivity.
Qed.



(** * Affine regressors score zero *)

Section AffineRegressor.

Variable np_log : Q -> Q.
Variable kneighbors : ndarray -> Z -> ndarray -> result (list (list nat)).


End AffineRegressor.



(** * Successful runs *)

Lemma bind_predict_eq {B} predict_fn batch (k : ndarray -> M B) w :
  bind (predict predict_fn batch) k w
  = k (predict_fn batch)
      (mk_world (entropy w) (cursor w) (trace w ++ [EvPredict batch])).
Proof. reflexivity. Qed.

Lemma bind_assert_true {B} c (k : unit -> M B) w :
  c = true -> bind (assert c) k w = k tt w.
Proof. intros ->. reflexivity. Qed.

Lemma randint_size3_eq high N nb D w :
  (0 < high)%Z -> (0 <= nb)%Z ->
  randint_size high [Z.of_nat N; nb; Z.of_nat D] w
  = (Ok (mk_ndarray [N; Z.to_nat nb; D]
           (map (fun i => inject_Z (entropy w (cursor w + i)%nat mod high))
                (seq 0 (size_of [N; Z.to_nat nb; D])))),
     mk_world (entropy w) (cursor w + size_of [N; Z.to_nat nb; D])
       (trace w ++ [EvRandint high [N; Z.to_nat nb; D]])).
Proof.
  intros Hh Hnb. unfold randint_size. cbn [existsb map].
  destruct (Z.ltb_spec (Z.of_nat N) 0); [lia|].
  destruct (Z.ltb_spec (Z.of_nat D) 0); [lia|].
  destruct (Z.ltb_spec nb 0); [lia|]. cbn [orb].
  rewrite !Nat2Z.id. unfold randint.
  destruct (Z.leb_spec high 0); [lia|]. reflexivity.
Qed.

Lemma reshape_exact a s :
  length (data a) = size_of s -> reshape a s = Ok (mk_ndarray s (data a)).
Proof.
  intros H. unfold reshape. rewrite H, Nat.eqb_refl. reflexivity.
Qed.

(** On a batch of [N >= 1] instances with [D >= 1] flattened features, a
    feature range with one row per feature, [res <> 0] and
    [nb_samples >= 0], the grid sampler returns an array of shape
    [(N, nb_samples, D)]. *)
Lemma sample_grid_succeeds x (fr : FeatureRange) epsilon nb_samples res N D w :
  hd_error (shape x) = Some N -> N <> 0%nat ->
  length (data x) = (N * D)%nat -> (1 <= D)%nat ->
  length fr = D -> res <> 0%Z -> (0 <= nb_samples)%Z ->
  exists X w',
    _sample_gridSampling x (Some fr) epsilon nb_samples res w = (Ok X, w') /\
    shape X = [N; Z.to_nat nb_samples; D] /\
    length (data X) = (N * (Z.to_nat nb_samples * D))%nat.
Proof.
  intros Hx HN Hlen HD Hfr Hres Hnb.
  unfold _sample_gridSampling.
  rewrite (bind_lift_ok _ N) by (apply shape_at_hd; exact Hx).
  rewrite (bind_lift_ok _ (mk_ndarray [N; D] (data x)))
    by (apply reshape_rows_exact; assumption).
  rewrite (bind_lift_ok _ D) by reflexivity.
  rewrite bind_assert_true by (apply Nat.ltb_lt; lia).
  rewrite bind_assert_true by reflexivity.
  unfold grid_deltas. destruct (Z.eqb_spec res 0) as [?|_]; [contradiction|].
  rewrite (bind_lift_ok _ _ _ _ eq_refl).
  unfold bind at 1.
  rewrite randint_size3_eq by (exact Hnb || lia).
  unfold bind at 1.
  rewrite randint_size3_eq
    by (exact Hnb || (pose proof (grid_size_ge2 epsilon res); lia)).
  set (K := Z.to_nat nb_samples).
  erewrite bind_lift_ok;
    [ | apply np_binop_rank3 with (a1 := N) (a2 := K) (a3 := D)
                                  (b1 := N) (b2 := K) (b3 := D);
        [ reflexivity | reflexivity
        | repeat (constructor; [left; reflexivity|]); constructor ] ].
  erewrite bind_lift_ok;
    [ | apply np_binop_rank3_vector with (a1 := bdim N N) (a2 := bdim K K)
                                         (a3 := bdim D D) (b3 := length fr);
        [ reflexivity | reflexivity
        | left; rewrite bdim_same; symmetry; exact Hfr ] ].
  rewrite (bind_lift_ok _ N) by reflexivity.
  rewrite (bind_lift_ok _ D) by reflexivity.
  erewrite bind_lift_ok;
    [ | apply reshape_exact; cbn [data size_of fold_right]; lia ].
  erewrite bind_lift_ok;
    [ | apply np_binop_rank3 with (a1 := N) (a2 := 1%nat) (a3 := D)
                                  (b1 := bdim N N) (b2 := bdim K K)
                                  (b3 := bdim (bdim D D) (length fr));
        [ reflexivity | reflexivity | rewrite Hfr, !bdim_same;
          constructor; [left; reflexivity|];
          constructor; [right; left; reflexivity|];
          constructor; [left; reflexivity | constructor] ] ].
  eexists. eexists. split; [reflexivity|].
  rewrite Hfr, !bdim_same. unfold bdim at 1. cbn [Nat.eqb].
  split; [reflexivity|].
  cbn [data]. rewrite bcast_length by reflexivity.
  cbn [combine map fst snd]. rewrite !bdim_same. unfold bdim. cbn [Nat.eqb].
  cbn [size_of fold_right]. lia.
Qed.

Lemma np_repeat_axis1_eq a reps s0 s1 rest :
  shape a = s0 :: s1 :: rest ->
  np_repeat_axis1 a reps
  = Ok (mk_ndarray (s0 :: (s1 * reps)%nat :: rest)
          (flat_map (fun i => concat (repeat (row (size_of rest) i (data a)) reps))
                    (seq 0 (s0 * s1)))).
Proof. intros H. unfold np_repeat_axis1. rewrite H. reflexivity. Qed.

Lemma superpose_eq a b a0 a1 :
  shape a = shape b ->
  superpose a b [a0; a1]
  = Ok (mk_ndarray (shape a)
          (map (fun uv => fst uv * a0 + snd uv * a1) (combine (data a) (data b)))).
Proof.
  intros H. unfold superpose. rewrite H, shape_eqb_refl. reflexivity.
Qed.

Lemma mean_axes_rank3 a s0 s1 s2 :
  shape a = [s0; s1; s2] ->
  exists s, mean_axes 3 a = Ok s /\ sshape s = [s0].
Proof.
  intros H. unfold mean_axes. rewrite H. cbn. eexists. split; reflexivity.
Qed.

(** Unfolds the sizes of the shapes at hand, keeping the size of [s] whole. *)
Ltac sizes s :=
  cbn [data size_of fold_right app];
  change (fold_right Nat.mul 1%nat s) with (size_of s).

Lemma regression_succeeds predict_fn x input_shape X_samples a0 a1 N K w :
  regressor_shaped predict_fn input_shape ->
  shape x = N :: input_shape ->
  length (data x) = (N * size_of input_shape)%nat ->
  shape X_samples = [N; K; size_of input_shape] ->
  length (data X_samples) = (N * (K * size_of input_shape))%nat ->
  exists r w',
    _calculate_linearity_regression predict_fn x input_shape X_samples
      [a0; a1] w = (Ok r, w') /\
    sshape (snd r) = [N].
Proof.
  intros Hpf Hx Hxl HX HXl.
  unfold _calculate_linearity_regression.
  rewrite HX. cbn [firstn app].
  rewrite (bind_lift_ok _ N) by (unfold shape_at; rewrite HX; reflexivity).
  rewrite (bind_lift_ok _ K) by (unfold shape_at; rewrite HX; reflexivity).
  erewrite bind_lift_ok
    by (apply reshape_exact; sizes input_shape; lia).
  rewrite bind_predict_eq.
  match goal with |- context [predict_fn ?b] =>
    destruct (Hpf b (N * K)%nat eq_refl) as (Hs1 & Hw1);
    destruct (predict_fn b) as [s1 d1] end.
  cbn [shape data] in Hs1, Hw1. unfold wf in Hw1. cbn [shape data] in Hw1.
  subst s1. cbn [size_of fold_right] in Hw1.
  erewrite bind_lift_ok
    by (apply reshape_exact; sizes input_shape; lia).
  rewrite bind_predict_eq.
  destruct (Hpf x N Hx) as (Hs2 & Hw2).
  destruct (predict_fn x) as [s2 d2].
  cbn [shape data] in Hs2, Hw2. unfold wf in Hw2. cbn [shape data] in Hw2.
  subst s2. cbn [size_of fold_right] in Hw2. cbn [shape app].
  erewrite bind_lift_ok
    by (apply reshape_exact; sizes input_shape; lia).
  rewrite (bind_lift_ok _ N) by reflexivity.
  cbn [shape tl].
  erewrite bind_lift_ok
    by (apply reshape_exact; sizes input_shape; lia).
  rewrite (bind_lift_ok _ K) by reflexivity.
  erewrite bind_lift_ok by (apply np_repeat_axis1_eq; reflexivity).
  rewrite Nat.mul_1_l.
  erewrite bind_lift_ok by (apply superpose_eq; reflexivity).
  erewrite bind_lift_ok
    by (apply reshape_exact; sizes input_shape; lia).
  rewrite (bind_lift_ok _ N) by (unfold shape_at; rewrite Hx; reflexivity).
  rewrite Hx. cbn [tl].
  erewrite bind_lift_ok
    by (apply reshape_exact; sizes input_shape; lia).
  rewrite (bind_lift_ok _ K) by reflexivity.
  erewrite bind_lift_ok by (apply np_repeat_axis1_eq; reflexivity).
  rewrite Nat.mul_1_l.
  erewrite bind_lift_ok by (apply superpose_eq; reflexivity).
  cbn [shape data].
  rewrite (bind_lift_ok _ N) by reflexivity.
  rewrite (bind_lift_ok _ K) by reflexivity.
  cbn [skipn].
  erewrite bind_lift_ok.
  2:{ apply reshape_exact. sizes input_shape.
      rewrite length_map, length_combine, Nat.mul_1_r.
      rewrite (length_repeat_axis1 (data x) N K (size_of input_shape) Hxl), HXl.
      lia. }
  rewrite bind_predict_eq.
  match goal with |- context [predict_fn ?b] =>
    destruct (Hpf b (N * K)%nat eq_refl) as (Hs3 & Hw3);
    destruct (predict_fn b) as [s3 d3] end.
  cbn [shape data] in Hs3, Hw3. unfold wf in Hw3. cbn [shape data] in Hw3.
  subst s3. cbn [size_of fold_right] in Hw3.
  erewrite bind_lift_ok
    by (apply reshape_exact; sizes input_shape; lia).
  unfold squared_difference, rmap.
  erewrite np_binop_rank3;
    [ | reflexivity | reflexivity
      | repeat (constructor; [left; reflexivity|]); constructor ].
  cbn [rbind]. rewrite !bdim_same.
  rewrite (bind_lift_ok _ _ _ _ eq_refl).
  cbn [shape length].
  match goal with |- context [mean_axes 3 ?a] =>
    destruct (mean_axes_rank3 a N K 1 eq_refl) as (s & Hm & Hsh) end.
  rewrite (bind_lift_ok _ s) by exact Hm.
  eexists. eexists. split; [reflexivity | exact Hsh].
Qed.

Lemma classifier_succeeds np_log predict_fn x input_shape X_samples a0 a1 N K C
  w :
  classifier_shaped predict_fn input_shape C ->
  shape x = N :: input_shape ->
  length (data x) = (N * size_of input_shape)%nat ->
  shape X_samples = [N; K; size_of input_shape] ->
  length (data X_samples) = (N * (K * size_of input_shape))%nat ->
  exists r w',
    _calculate_linearity_measure np_log predict_fn x input_shape X_samples
      [a0; a1] w = (Ok r, w') /\
    sshape (snd r) = [N].
Proof.
  intros Hpf Hx Hxl HX HXl.
  unfold _calculate_linearity_measure.
  rewrite HX. cbn [firstn app].
  rewrite (bind_lift_ok _ N) by (unfold shape_at; rewrite HX; reflexivity).
  rewrite (bind_lift_ok _ K) by (unfold shape_at; rewrite HX; reflexivity).
  erewrite bind_lift_ok by (apply reshape_exact; sizes input_shape; lia).
  rewrite bind_predict_eq.
  match goal with |- context [predict_fn ?b] =>
    destruct (Hpf b (N * K)%nat eq_refl) as (Hs1 & Hw1);
    destruct (predict_fn b) as [s1 d1] end.
  cbn [shape data] in Hs1, Hw1. unfold wf in Hw1. cbn [shape data] in Hw1.
  subst s1. cbn [size_of fold_right] in Hw1.
  rewrite bind_predict_eq.
  destruct (Hpf x N Hx) as (Hs2 & Hw2).
  destruct (predict_fn x) as [s2 d2].
  cbn [shape data] in Hs2, Hw2. unfold wf in Hw2. cbn [shape data] in Hw2.
  subst s2. cbn [size_of fold_right] in Hw2.
  unfold log_floor, np_map. cbn [shape data last_dim length Nat.sub skipn app tl].
  erewrite bind_lift_ok
    by (apply reshape_exact; sizes input_shape; rewrite length_map; lia).
  rewrite (bind_lift_ok _ N) by reflexivity.
  erewrite bind_lift_ok
    by (apply reshape_exact; sizes input_shape; rewrite length_map; lia).
  rewrite (bind_lift_ok _ K) by reflexivity.
  erewrite bind_lift_ok by (apply np_repeat_axis1_eq; reflexivity).
  rewrite Nat.mul_1_l.
  erewrite bind_lift_ok by (apply superpose_eq; reflexivity).
  erewrite bind_lift_ok by (apply reshape_exact; sizes input_shape; lia).
  rewrite (bind_lift_ok _ N) by (unfold shape_at; rewrite Hx; reflexivity).
  rewrite Hx. cbn [tl].
  erewrite bind_lift_ok by (apply reshape_exact; sizes input_shape; lia).
  rewrite (bind_lift_ok _ K) by reflexivity.
  erewrite bind_lift_ok by (apply np_repeat_axis1_eq; reflexivity).
  rewrite Nat.mul_1_l.
  erewrite bind_lift_ok by (apply superpose_eq; reflexivity).
  cbn [shape data].
  rewrite (bind_lift_ok _ N) by reflexivity.
  rewrite (bind_lift_ok _ K) by reflexivity.
  cbn [skipn].
  erewrite bind_lift_ok.
  2:{ apply reshape_exact. sizes input_shape.
      rewrite length_map, length_combine, Nat.mul_1_r.
      rewrite (length_repeat_axis1 (data x) N K (size_of input_shape) Hxl), HXl.
      lia. }
  rewrite bind_predict_eq.
  match goal with |- context [predict_fn ?b] =>
    destruct (Hpf b (N * K)%nat eq_refl) as (Hs3 & Hw3);
    destruct (predict_fn b) as [s3 d3] end.
  cbn [shape data] in Hs3, Hw3. unfold wf in Hw3. cbn [shape data] in Hw3.
  subst s3. cbn [size_of fold_right] in Hw3.
  unfold log_floor, np_map. cbn [shape data last_dim length Nat.sub skipn app].
  erewrite bind_lift_ok
    by (apply reshape_exact; sizes input_shape; rewrite length_map; lia).
  unfold squared_difference, rmap.
  erewrite np_binop_rank3;
    [ | reflexivity | reflexivity
      | repeat (constructor; [left; reflexivity|]); constructor ].
  cbn [rbind]. rewrite !bdim_same.
  rewrite (bind_lift_ok _ _ _ _ eq_refl).
  cbn [shape length].
  match goal with |- context [mean_axes 3 ?a] =>
    destruct (mean_axes_rank3 a N K C eq_refl) as (s & Hm & Hsh) end.
  rewrite (bind_lift_ok _ s) by exact Hm.
  eexists. eexists. split; [reflexivity | exact Hsh].
Qed.

Lemma affine_fn_regressor_shaped A b input_shape :
  regressor_shaped (affine_fn A b) input_shape.
Proof.
  intros batch m H. rewrite (affine_fn_shape A b batch m input_shape H).
  split; [reflexivity|]. unfold wf. cbn [shape data size_of fold_right].
  rewrite length_map, length_seq. lia.
Qed.

Section GridRun.

Variable np_log : Q -> Q.
Variable kneighbors : ndarray -> Z -> ndarray -> result (list (list nat)).

(** With a feature range of one row per flattened feature, a well-shaped
    prediction function, [res <> 0], [nb_samples >= 0] and a pair of
    coefficients, a grid scoring run returns one score per instance. *)
Lemma grid_scoring_succeeds predict_fn x (fr : FeatureRange) epsilon nb_samples
  res alphas a0 a1 model_type N input_shape w :
  shape x = N :: input_shape -> N <> 0%nat -> wf x ->
  (1 <= size_of input_shape)%nat -> length fr = size_of input_shape ->
  res <> 0%Z -> (0 <= nb_samples)%Z ->
  effective_alphas alphas = [a0; a1] ->
  predict_shaped model_type predict_fn input_shape ->
  exists s w',
    _linearity_measure np_log kneighbors predict_fn x None (Some fr)
      "gridSampling" epsilon nb_samples res alphas model_type w = (Ok s, w') /\
    sshape s = [N].
Proof.
  intros Hx HN Hwf HD Hfr Hres Hnb Hal Hpf.
  unfold wf in Hwf. rewrite Hx in Hwf. cbn [size_of fold_right] in Hwf.
  fold (size_of input_shape) in Hwf.
  assert (Hhd : hd_error (shape x) = Some N) by (rewrite Hx; reflexivity).
  unfold _linearity_measure. cbn [String.eqb Ascii.eqb Bool.eqb orb].
  rewrite bind_assert_true by reflexivity.
  destruct (sample_grid_succeeds x fr epsilon nb_samples res N
              (size_of input_shape) w Hhd HN Hwf HD Hfr Hres Hnb)
    as (X & w1 & Hrun & HX & HXl).
  unfold bind at 1. rewrite bind_assert_true by reflexivity.
  rewrite Hrun. fold (effective_alphas alphas). rewrite Hal, Hx. cbn [tl].
  destruct Hpf as [(-> & Hpf) | (-> & C & Hpf)];
    cbn [String.eqb Ascii.eqb Bool.eqb].
  - destruct (regression_succeeds predict_fn x input_shape X a0 a1 N
                (Z.to_nat nb_samples) w1 Hpf Hx Hwf HX HXl)
      as (r & w2 & Hs & Hsh).
    exists (snd r), w2. unfold bind. rewrite Hs. split; [reflexivity | exact Hsh].
  - destruct (classifier_succeeds np_log predict_fn x input_shape X a0 a1 N
                (Z.to_nat nb_samples) C w1 Hpf Hx Hwf HX HXl)
      as (r & w2 & Hs & Hsh).
    exists (snd r), w2. unfold bind. rewrite Hs. split; [reflexivity | exact Hsh].
Qed.

(** C8: scoring with the ['knn'] strategy on an unfit facade raises an
    assertion error with the outside world untouched (no sampling, no
    prediction); after [fit(X_train)], scoring with the grid strategy
    succeeds on well-formed input, returns one score per instance, and is the
    grid scoring run under the feature range that [fit] inferred and
    stored. *)
Theorem fit_state_decides_scoring unfit self X_train predict_fn x w n N
  input_shape a0 a1 :
  self_is_fit unfit = false -> self_method unfit = "knn"%string ->
  self_method self = "gridSampling"%string ->
  shape X_train = n :: input_shape -> n <> 0%nat -> wf X_train ->
  shape x = N :: input_shape -> N <> 0%nat -> wf x ->
  (1 <= size_of input_shape)%nat ->
  self_res self <> 0%Z -> (0 <= self_nb_samples self)%Z ->
  effective_alphas (self_alphas self) = [a0; a1] ->
  predict_shaped (self_model_type self) predict_fn input_shape ->
  LinearityMeasure_linearity_measure np_log kneighbors unfit predict_fn x w
  = (Raise AssertionError, w)
  /\
  exists fitted features_range s w',
    LinearityMeasure_fit self X_train = Ok fitted /\
    _infer_features_range X_train = Ok features_range /\
    self_features_range fitted = Some features_range /\
    LinearityMeasure_linearity_measure np_log kneighbors fitted predict_fn x w
    = (Ok (fitted, s), w') /\
    _linearity_measure np_log kneighbors predict_fn x None
      (Some features_range) "gridSampling" (self_epsilon self)
      (self_nb_samples self) (self_res self) (self_alphas self)
      (self_model_type self) w = (Ok s, w') /\
    sshape s = [N].
Proof.
  intros Hunfit Hknn Hgrid Ht Hn Hwt Hx HN Hwx HD Hres Hnb Hal Hpf.
  split; [apply unfit_knn_raises; assumption|].
  assert (Hlen : length (data X_train) = (n * size_of input_shape)%nat).
  { unfold wf in Hwt. rewrite Ht in Hwt. exact Hwt. }
  destruct (infer_features_range_spec X_train n (size_of input_shape)
              ltac:(rewrite Ht; reflexivity) Hn Hlen)
    as (fr & Hfr & Hfrl & _).
  assert (Hfit : exists fitted, LinearityMeasure_fit self X_train = Ok fitted).
  { unfold LinearityMeasure_fit. rewrite Hfr. eexists. reflexivity. }
  destruct Hfit as (fitted & Hfit).
  destruct (fit_grid_unfolds np_log kneighbors self fitted X_train predict_fn x
              w Hgrid Hfit) as (fr' & Hfr' & Hstored & _ & Hfacade).
  rewrite Hfr in Hfr'. apply Ok_inj in Hfr'. subst fr'.
  destruct (grid_scoring_succeeds predict_fn x fr (self_epsilon self)
              (self_nb_samples self) (self_res self) (self_alphas self) a0 a1
              (self_model_type self) N input_shape w
              Hx HN Hwx HD Hfrl Hres Hnb Hal Hpf) as (s & w' & Hrun & Hsh).
  exists fitted, fr, s, w'.
  split; [exact Hfit|]. split; [exact Hfr|]. split; [exact Hstored|].
  split; [|split; [exact Hrun | exact Hsh]].
  rewrite Hfacade, Hx, Ht. cbn [tl]. rewrite shape_eqb_refl.
  unfold bind. rewrite Hrun. reflexivity.
Qed.

End GridRun.

Lemma fit_state_decides_scoring_witness :
  LinearityMeasure_linearity_measure ex_log exact_kneighbors
    (LinearityMeasure_init "knn" (4 # 100) 3 100 None "regressor" false)
    ex_linear ex_x ex_world
  = (Raise AssertionError, ex_world)
  /\
  exists fitted features_range s w',
    LinearityMeasure_fit
      (LinearityMeasure_init "gridSampling" (4 # 100) 3 100 None "regressor"
         false) ex_train = Ok fitted /\
    _infer_features_range ex_train = Ok features_range /\
    self_features_range fitted = Some features_range /\
    LinearityMeasure_linearity_measure ex_log exact_kneighbors fitted ex_linear
      ex_x ex_world
    = (Ok (fitted, s), w') /\
    _linearity_measure ex_log exact_kneighbors ex_linear ex_x None
      (Some features_range) "gridSampling" (4 # 100) 3 100 None "regressor"
      ex_world = (Ok s, w') /\
    sshape s = [1%nat].
Proof.
  apply (fit_state_decides_scoring ex_log exact_kneighbors
           (LinearityMeasure_init "knn" (4 # 100) 3 100 None "regressor" false)
           (LinearityMeasure_init "gridSampling" (4 # 100) 3 100 None
              "regressor" false)
           ex_train ex_linear ex_x ex_world 3 1 [2%nat] (1 # 2) (1 # 2)).
  - reflexivity.
  - reflexivity.
  - reflexivity.
  - reflexivity.
  - lia.
  - reflexivity.
  - reflexivity.
  - lia.
  - reflexivity.
  - simpl; lia.
  - simpl; lia.
  - simpl; lia.
  - reflexivity.
  - left. split; [reflexivity | apply affine_fn_regressor_shaped].
Defined.

(** * What the scorers compute *)

Lemma rowwise_fn_shape f batch m rest :
  shape batch = m :: rest ->
  rowwise_fn f batch
  = mk_ndarray [m]
      (map (fun r => f (row (size_of rest) r (data batch))) (seq 0 m)).
Proof. intros H. unfold rowwise_fn. rewrite H. reflexivity. Qed.

(** For a regressor acting instance by instance through [f], the first
    array the regression scorer returns holds [f] of each superposed input
    [a0 * x_i + a1 * sample_ik], and the second holds the superposed outputs
    [a0 * f(x_i) + a1 * f(sample_ik)]. *)
Lemma regression_entries f x input_shape X_samples a0 a1 w r w' :
  _calculate_linearity_regression (rowwise_fn f) x input_shape X_samples
    [a0; a1] w = (Ok r, w') ->
  exists N K,
    shape x = N :: input_shape /\
    firstn 2 (shape X_samples) = [N; K] /\
    shape (fst (fst r)) = [N; K; 1%nat] /\
    shape (snd (fst r)) = [N; K; 1%nat] /\
    forall i u, (i < N)%nat -> (u < K)%nat ->
      nth (i * K + u) (data (fst (fst r))) 0
      = f (superposition a0 a1
             (row (size_of input_shape) i (data x))
             (row (size_of input_shape) (i * K + u) (data X_samples))) /\
      nth (i * K + u) (data (snd (fst r))) 0
      = f (row (size_of input_shape) i (data x)) * a0
        + f (row (size_of input_shape) (i * K + u) (data X_samples)) * a1.
Proof.
  intros H. unfold _calculate_linearity_regression in H.
  repeat step H.
  apply ret_ok in H. destruct H as [-> _]. cbn [fst snd].
  pose proof E as Hs0. pose proof E0 as Hs1.
  apply shape_at_ok in Hs0, Hs1.
  assert (Hss : firstn 2 (shape X_samples) = [v; v0]).
  { destruct (shape X_samples) as [|p [|q t]]; try discriminate.
    cbn in Hs0, Hs1. injection Hs0 as ->. injection Hs1 as ->. reflexivity. }
  rewrite Hss in *. clear Hs0 Hs1 E E0.
  apply reshape_ok in E1. destruct E1 as (HXlen & ->).
  erewrite rowwise_fn_shape in E2 by reflexivity.
  ok_subst E2. cbn [data] in *.
  apply reshape_ok in E3. destruct E3 as (_ & ->).
  pose proof (shape_at_ok _ _ _ E12) as Hx0.
  destruct (shape x) as [|N sx] eqn:Hx; [discriminate Hx0|].
  cbn in Hx0. injection Hx0 as ->. clear E12.
  erewrite rowwise_fn_shape in E4 by exact Hx. ok_subst E4.
  apply reshape_ok in E5. destruct E5 as (_ & ->). cbn [shape app] in *.
  cbn in E6. ok_subst E6.
  apply reshape_ok in E7. destruct E7 as (_ & ->). cbn [shape data tl] in *.
  cbn in E8. ok_subst E8.
  apply np_repeat_axis1_ok in E9.
  destruct E9 as (t0 & t1 & rest & Hsh & ->). cbn [shape data] in *.
  injection Hsh as <- <- <-.
  apply superpose_ok in E10. destruct E10 as (Hsh & c0 & c1 & Hal & ->).
  injection Hal as <- <-. cbn [shape data] in *.
  injection Hsh as -> _.
  apply reshape_ok in E11. destruct E11 as (_ & ->).
  apply reshape_ok in E13. destruct E13 as (Hxlen & ->).
  cbn in E14. ok_subst E14.
  apply np_repeat_axis1_ok in E15.
  destruct E15 as (t0 & t1 & rest & Hsh & ->). cbn [shape data tl] in *.
  injection Hsh as <- <- <-.
  apply superpose_ok in E16. destruct E16 as (Hsh & c0 & c1 & Hal & ->).
  injection Hal as <- <-. cbn [shape data app] in *.
  injection Hsh as _ ->.
  cbn in E17, E18. ok_subst E17. ok_subst E18.
  apply reshape_ok in E19. destruct E19 as (_ & ->). cbn [skipn] in *.
  erewrite rowwise_fn_shape in E20 by reflexivity. ok_subst E20.
  apply reshape_ok in E21. destruct E21 as (_ & ->). cbn [shape data] in *.
  rewrite !Nat.mul_1_l, !Nat.mul_1_r, ?Nat.add_0_r in *.
  change (size_of [1%nat]) with 1%nat in *.
  cbn [size_of fold_right] in HXlen, Hxlen. fold (size_of input_shape) in *.
  rewrite Nat.mul_1_l in Hxlen.
  set (D := size_of input_shape) in *.
  exists v, v0.
  split; [reflexivity|]. split; [reflexivity|].
  split; [reflexivity|]. split; [reflexivity|].
  intros i u Hi Hu.
  assert (Hr : (i * v0 + u < v * v0)%nat) by nia.
  split.
  - rewrite nth_map_seq by exact Hr.
    rewrite row_map_combine.
    rewrite (row_repeat_axis1 (data x) v v0 D i u Hxlen Hi Hu).
    reflexivity.
  - rewrite nth_map_in with (d' := (0, 0)).
    2:{ rewrite length_combine, length_map, length_seq.
        rewrite (length_repeat_axis1 _ v v0 1)
          by (rewrite length_map, length_seq; lia).
        lia. }
    rewrite combine_nth.
    2:{ rewrite length_map, length_seq.
        rewrite (length_repeat_axis1 _ v v0 1)
          by (rewrite length_map, length_seq; lia).
        lia. }
    cbn [fst snd].
    rewrite nth_map_seq by exact Hr.
    f_equal. f_equal.
    replace (i * v0 + u)%nat with ((i * v0 + u) * 1 + 0)%nat by lia.
    rewrite <- nth_row by lia.
    rewrite row_repeat_axis1;
      [ | rewrite length_map, length_seq; lia | exact Hi | exact Hu ].
    rewrite nth_row by lia.
    rewrite nth_map_seq by lia. f_equal. f_equal. lia.
Qed.

Lemma flat_map_singleton {A B} (g : A -> B) (l : list A) :
  flat_map (fun a => [g a]) l = map g l.
Proof. induction l as [|a l IH]; cbn; [reflexivity | rewrite IH; reflexivity]. Qed.

(** The scores of two arrays of shape [(N, K, C)]: per leading index, the
    mean of the squared differences over the [K * C] entries of the slice. *)
Lemma score_formula a b sq s N K C :
  shape a = [N; K; C] -> shape b = [N; K; C] ->
  squared_difference a b = Ok sq -> mean_axes 3 sq = Ok s ->
  s = mk_scores [N]
        (map (fun i => mean_squared_difference (data a) (data b)
                         (i * (K * C)) (K * C))
             (seq 0 N)).
Proof.
  intros Ha Hb Hsq Hmean.
  unfold squared_difference, rmap in Hsq.
  rewrite (np_binop_rank3 Qminus a b N K C N K C Ha Hb) in Hsq
    by (repeat (constructor; [left; reflexivity|]); constructor).
  cbn [rbind] in Hsq. ok_subst Hsq.
  rewrite !bdim_same in Hmean.
  unfold mean_axes in Hmean. cbn [np_map shape data length] in Hmean.
  cbn [Nat.leb Nat.ltb andb firstn skipn Nat.sub size_of fold_right] in Hmean.
  ok_subst Hmean. f_equal.
  rewrite flat_map_concat_map. rewrite <- flat_map_concat_map.
  cbn [seq map]. rewrite (flat_map_singleton _ (seq 0 N)).
  apply map_ext_in. intros i Hi. apply in_seq in Hi.
  unfold mean_squared_difference. rewrite !Nat.mul_1_r. f_equal.
  apply map_ext_in. intros u Hu. apply in_seq in Hu.
  rewrite Nat.add_0_r.
  pose proof (bcast_length Qminus [N; K; C] [N; K; C] (data a) (data b)
                eq_refl) as Hlen.
  cbn [combine map fst snd] in Hlen. rewrite !bdim_same in Hlen.
  cbn [size_of fold_right] in Hlen.
  assert (HC : C <> 0%nat) by (intros ->; lia).
  rewrite nth_map_in with (d' := 0) by (rewrite Hlen; nia).
  pose proof (Nat.div_mod_eq u C) as Hdm.
  pose proof (Nat.mod_upper_bound u C HC) as Hmod.
  assert (Hdiv : (u / C < K)%nat)
    by (apply Nat.Div0.div_lt_upper_bound; lia).
  pose proof (@bcast3_nth Qminus N K C N K C (data a) (data b) i (u / C)
                (u mod C)) as Hn.
  rewrite !bdim_same in Hn.
  rewrite !(bidx_same N i), !(bidx_same K (u / C)), !(bidx_same C (u mod C))
    in Hn by lia.
  replace ((i * K + u / C) * C + u mod C)%nat with (i * (K * C) + u)%nat
    in Hn by nia.
  rewrite Nat.mul_1_r. rewrite Hn by lia. reflexivity.
Qed.

Lemma regression_shapes predict_fn x input_shape X_samples alphas w r w' :
  _calculate_linearity_regression predict_fn x input_shape X_samples alphas w
    = (Ok r, w') ->
  exists N K sq,
    firstn 2 (shape X_samples) = [N; K] /\
    shape (fst (fst r)) = [N; K; 1%nat] /\
    shape (snd (fst r)) = [N; K; 1%nat] /\
    squared_difference (fst (fst r)) (snd (fst r)) = Ok sq /\
    mean_axes 3 sq = Ok (snd r).
Proof.
  intros H. unfold _calculate_linearity_regression in H.
  repeat step H.
  apply ret_ok in H. destruct H as [-> _]. cbn [fst snd].
  pose proof E as Hs0. pose proof E0 as Hs1.
  apply shape_at_ok in Hs0, Hs1.
  assert (Hss : firstn 2 (shape X_samples) = [v; v0]).
  { destruct (shape X_samples) as [|p [|q t]]; try discriminate.
    cbn in Hs0, Hs1. injection Hs0 as ->. injection Hs1 as ->. reflexivity. }
  rewrite Hss in *.
  apply reshape_ok in E3. destruct E3 as (_ & ->).
  apply reshape_ok in E21. destruct E21 as (_ & ->).
  apply superpose_ok in E10. destruct E10 as (Hsh & c0 & c1 & _ & ->).
  cbn [shape app] in *. rewrite Hsh in *. cbn [length] in E23.
  exists v, v0, v22. auto.
Qed.

(** X2: the scores the regression scorer returns are, per instance, the mean
    over the samples of the squared difference of the two arrays it returns
    with them. *)
Theorem regression_score_is_mean_squared_difference predict_fn x input_shape
  X_samples alphas w out_sum sum_out score w' :
  _calculate_linearity_regression predict_fn x input_shape X_samples alphas w
    = (Ok (out_sum, sum_out, score), w') ->
  exists N K,
    firstn 2 (shape X_samples) = [N; K] /\
    score = mk_scores [N]
              (map (fun i => mean_squared_difference (data out_sum)
                               (data sum_out) (i * K) K)
                   (seq 0 N)).
Proof.
  intros H.
  destruct (regression_shapes _ _ _ _ _ _ _ _ H)
    as (N & K & sq & Hss & Ho & Hs & Hsq & Hmean).
  cbn [fst snd] in *.
  exists N, K. split; [exact Hss|].
  rewrite (score_formula _ _ _ _ N K 1 Ho Hs Hsq Hmean).
  rewrite Nat.mul_1_r. reflexivity.
Qed.

(** X1: for a regressor acting instance by instance through [f], the
    regression scorer returns the array of [f] at each superposed input
    [a0 * x_i + a1 * sample_iu], the array of the superposed outputs
    [a0 * f(x_i) + a1 * f(sample_iu)], and as the score of instance [i] the
    mean over its samples of the squared difference of the two. *)
Theorem regression_score_of_rowwise_model f x input_shape X_samples a0 a1 w
  out_sum sum_out score w' :
  _calculate_linearity_regression (rowwise_fn f) x input_shape X_samples
    [a0; a1] w = (Ok (out_sum, sum_out, score), w') ->
  exists N K,
    shape x = N :: input_shape /\
    firstn 2 (shape X_samples) = [N; K] /\
    (forall i u, (i < N)%nat -> (u < K)%nat ->
       nth (i * K + u) (data out_sum) 0
       = f (superposition a0 a1
              (row (size_of input_shape) i (data x))
              (row (size_of input_shape) (i * K + u) (data X_samples))) /\
       nth (i * K + u) (data sum_out) 0
       = f (row (size_of input_shape) i (data x)) * a0
         + f (row (size_of input_shape) (i * K + u) (data X_samples)) * a1) /\
    score
    = mk_scores [N]
        (map (fun i =>
                np_mean
                  (map (fun u =>
                          (f (superposition a0 a1
                                (row (size_of input_shape) i (data x))
                                (row (size_of input_shape) (i * K + u)
                                     (data X_samples)))
                           - (f (row (size_of input_shape) i (data x)) * a0
                              + f (row (size_of input_shape) (i * K + u)
                                     (data X_samples)) * a1)) ^ 2)
                       (seq 0 K)))
             (seq 0 N)).
Proof.
  intros H.
  destruct (regression_entries _ _ _ _ _ _ _ _ _ H)
    as (N & K & Hx & Hss & _ & _ & Hent).
  destruct (regression_shapes _ _ _ _ _ _ _ _ H)
    as (N' & K' & sq & Hss' & Ho & Hs & Hsq & Hmean).
  rewrite Hss in Hss'. injection Hss' as <- <-.
  cbn [fst snd] in *.
  exists N, K. split; [exact Hx|]. split; [exact Hss|].
  split; [exact Hent|].
  rewrite (score_formula _ _ _ _ N K 1 Ho Hs Hsq Hmean). f_equal.
  apply map_ext_in. intros i Hi. apply in_seq in Hi.
  unfold mean_squared_difference. rewrite !Nat.mul_1_r. f_equal.
  apply map_ext_in. intros u Hu. apply in_seq in Hu.
  destruct (Hent i u ltac:(lia) ltac:(lia)) as (E1 & E2).
  rewrite E1, E2. reflexivity.
Qed.

Lemma regression_score_of_rowwise_model_witness :
  exists N K,
    shape ex_x = N :: [2%nat] /\
    firstn 2 (shape ex_grid_sample) = [N; K] /\
    (forall i u, (i < N)%nat -> (u < K)%nat ->
       nth (i * K + u) (data ex_out_sum) 0
       = ex_quadratic
           (superposition (1 # 2) (1 # 2)
              (row (size_of [2%nat]) i (data ex_x))
              (row (size_of [2%nat]) (i * K + u) (data ex_grid_sample))) /\
       nth (i * K + u) (data ex_sum_out) 0
       = ex_quadratic (row (size_of [2%nat]) i (data ex_x)) * (1 # 2)
         + ex_quadratic
             (row (size_of [2%nat]) (i * K + u) (data ex_grid_sample))
           * (1 # 2)) /\
    ex_score
    = mk_scores [N]
        (map (fun i =>
                np_mean
                  (map (fun u =>
                          (ex_quadratic
                             (superposition (1 # 2) (1 # 2)
                                (row (size_of [2%nat]) i (data ex_x))
                                (row (size_of [2%nat]) (i * K + u)
                                     (data ex_grid_sample)))
                           - (ex_quadratic
                                (row (size_of [2%nat]) i (data ex_x)) * (1 # 2)
                              + ex_quadratic
                                  (row (size_of [2%nat]) (i * K + u)
                                     (data ex_grid_sample)) * (1 # 2))) ^ 2)
                       (seq 0 K)))
             (seq 0 N)).
Proof.
  apply (regression_score_of_rowwise_model ex_quadratic ex_x [2%nat]
           ex_grid_sample (1 # 2) (1 # 2) ex_world ex_out_sum ex_sum_out
           ex_score (snd ex_scorer_run)).
  apply injective_projections; [vm_compute; reflexivity | reflexivity].
Defined.

Lemma regression_score_is_mean_squared_difference_witness :
  exists N K,
    firstn 2 (shape ex_grid_sample) = [N; K] /\
    ex_score = mk_scores [N]
                 (map (fun i => mean_squared_difference (data ex_out_sum)
                                  (data ex_sum_out) (i * K) K)
                      (seq 0 N)).
Proof.
  apply (regression_score_is_mean_squared_difference
           (rowwise_fn ex_quadratic) ex_x [2%nat] ex_grid_sample
           [1 # 2; 1 # 2] ex_world ex_out_sum ex_sum_out ex_score
           (snd ex_scorer_run)).
  apply injective_projections; [vm_compute; reflexivity | reflexivity].
Defined.

Lemma Qsum_nonneg_zero l :
  Forall (fun q => 0 <= q) l -> Qsum l == 0 -> Forall (fun q => q == 0) l.
Proof.
  induction 1 as [|q l Hq Hl IH]; intros Hs; [constructor|].
  cbn [Qsum fold_right] in Hs. fold (Qsum l) in Hs.
  pose proof (Qsum_nonneg l Hl) as Hn.
  constructor; [lra | apply IH; lra].
Qed.

Lemma Qsquare_zero (d : Q) : d ^ 2 == 0 -> d == 0.
Proof.
  cbn. intros H. apply Qmult_integral in H. destruct H; assumption.
Qed.

(** A mean squared difference over a non-empty slice is zero exactly when
    the two arrays agree on the slice. *)
Lemma mean_squared_difference_zero a b start count :
  (0 < count)%nat ->
  (exists q, mean_squared_difference a b start count = Num q /\ q == 0) <->
  (forall u, (u < count)%nat -> nth (start + u) a 0 == nth (start + u) b 0).
Proof.
  intros Hc. unfold mean_squared_difference.
  set (l := map (fun u => (nth (start + u) a 0 - nth (start + u) b 0) ^ 2)
                (seq 0 count)).
  assert (Hl : length l = count) by (unfold l; rewrite length_map, length_seq; reflexivity).
  assert (Hnn : Forall (fun q => 0 <= q) l).
  { unfold l. rewrite Forall_map, Forall_forall. intros u _.
    apply Qsquare_nonneg. }
  assert (Hlen : 0 < inject_Z (Z.of_nat (length l))).
  { change 0 with (inject_Z 0). rewrite <- Zlt_Qlt. lia. }
  destruct l as [|q0 l'] eqn:El; [cbn in Hl; lia|]. rewrite <- El in *.
  assert (Hm : np_mean l = Num (Qsum l / inject_Z (Z.of_nat (length l))))
    by (rewrite El; reflexivity).
  rewrite Hm. clear El. split.
  - intros (q & Hq & Hz) u Hu. injection Hq as <-.
    assert (Hs : Qsum l == 0).
    { apply Qmult_integral_l with (x := / inject_Z (Z.of_nat (length l))).
      - intros E. apply Qinv_lt_0_compat in Hlen. lra.
      - rewrite Qmult_comm. exact Hz. }
    pose proof (Qsum_nonneg_zero l Hnn Hs) as Hall.
    rewrite Forall_forall in Hall.
    assert (Hin : In ((nth (start + u) a 0 - nth (start + u) b 0) ^ 2) l).
    { unfold l. apply in_map_iff. exists u. split; [reflexivity|].
      apply in_seq. lia. }
    apply Hall, Qsquare_zero in Hin. lra.
  - intros Heq. eexists. split; [reflexivity|].
    rewrite (Qsum_zero l).
    + unfold Qdiv. apply Qmult_0_l.
    + unfold l. rewrite Forall_map, Forall_forall. intros u Hu.
      apply in_seq in Hu. rewrite (Heq u) by lia. cbn. ring.
Qed.

(** X3: with at least one sample, the regression score of an instance is
    zero exactly when the output of every superposed input equals the
    superposition of the outputs. *)
Theorem regression_score_zero_iff predict_fn x input_shape X_samples alphas w
  out_sum sum_out score w' :
  _calculate_linearity_regression predict_fn x input_shape X_samples alphas w
    = (Ok (out_sum, sum_out, score), w') ->
  exists N K,
    firstn 2 (shape X_samples) = [N; K] /\
    length (sdata score) = N /\
    forall i, (i < N)%nat -> (0 < K)%nat ->
      (exists q, nth i (sdata score) NaN = Num q /\ q == 0) <->
      (forall u, (u < K)%nat ->
         nth (i * K + u) (data out_sum) 0 == nth (i * K + u) (data sum_out) 0).
Proof.
  intros H.
  destruct (regression_shapes _ _ _ _ _ _ _ _ H)
    as (N & K & sq & Hss & Ho & Hs & Hsq & Hmean).
  cbn [fst snd] in *.
  rewrite (score_formula _ _ _ _ N K 1 Ho Hs Hsq Hmean).
  exists N, K. split; [exact Hss|]. cbn [sdata].
  split; [rewrite length_map, length_seq; reflexivity|].
  intros i Hi HK. rewrite nth_map_seq by exact Hi.
  rewrite !Nat.mul_1_r.
  apply mean_squared_difference_zero. exact HK.
Qed.

Lemma regression_score_zero_iff_witness :
  exists N K,
    firstn 2 (shape ex_grid_sample) = [N; K] /\
    length (sdata ex_score) = N /\
    forall i, (i < N)%nat -> (0 < K)%nat ->
      (exists q, nth i (sdata ex_score) NaN = Num q /\ q == 0) <->
      (forall u, (u < K)%nat ->
         nth (i * K + u) (data ex_out_sum) 0
         == nth (i * K + u) (data ex_sum_out) 0).
Proof.
  apply (regression_score_zero_iff
           (rowwise_fn ex_quadratic) ex_x [2%nat] ex_grid_sample
           [1 # 2; 1 # 2] ex_world ex_out_sum ex_sum_out ex_score
           (snd ex_scorer_run)).
  apply injective_projections; [vm_compute; reflexivity | reflexivity].
Defined.

Lemma rowwise_classifier_shape C f batch m rest :
  shape batch = m :: rest ->
  rowwise_classifier C f batch
  = mk_ndarray [m; C]
      (flat_map (fun r => f (row (size_of rest) r (data batch))) (seq 0 m)).
Proof. intros H. unfold rowwise_classifier. rewrite H. reflexivity. Qed.

Lemma nth_rowwise (C : nat) (g : nat -> list Q) n r c :
  (forall r, length (g r) = C) -> (r < n)%nat -> (c < C)%nat ->
  nth (r * C + c) (flat_map g (seq 0 n)) 0 = nth c (g r) 0.
Proof.
  intros Hg Hr Hc.
  rewrite (nth_flat_map_uniform g (seq 0 n) C 0%nat 0 r c);
    [ | intros a _; apply Hg | rewrite length_seq; exact Hr | exact Hc ].
  rewrite seq_nth by exact Hr. reflexivity.
Qed.

Lemma length_rowwise (C : nat) (g : nat -> list Q) n :
  (forall r, length (g r) = C) ->
  length (flat_map g (seq 0 n)) = (n * C)%nat.
Proof.
  intros Hg. rewrite (length_flat_map_uniform g (seq 0 n) C), length_seq;
    [reflexivity | intros a _; apply Hg].
Qed.

Lemma rowwise_classifier_shaped C f input_shape :
  (forall v, length (f v) = C) ->
  classifier_shaped (rowwise_classifier C f) input_shape C.
Proof.
  intros Hf batch m Hs. unfold rowwise_classifier, wf. rewrite Hs.
  cbn [hd tl shape data]. split; [reflexivity|].
  rewrite (length_rowwise C) by (intros r; apply Hf).
  cbn [size_of fold_right]. lia.
Qed.

(** For a classifier acting instance by instance through [f], the first
    array the classifier scorer returns holds the log-probabilities of each
    superposed input, and the second the superposed log-probabilities of the
    instance and of the sample. *)
Lemma classifier_entries np_log C f x input_shape X_samples a0 a1 w r
  w' :
  (forall v, length (f v) = C) ->
  _calculate_linearity_measure np_log (rowwise_classifier C f) x input_shape
    X_samples [a0; a1] w = (Ok r, w') ->
  exists N K,
    shape x = N :: input_shape /\
    firstn 2 (shape X_samples) = [N; K] /\
    shape (fst (fst r)) = [N; K; C] /\
    shape (snd (fst r)) = [N; K; C] /\
    forall i u c, (i < N)%nat -> (u < K)%nat -> (c < C)%nat ->
      let x_i := row (size_of input_shape) i (data x) in
      let s_iu := row (size_of input_shape) (i * K + u) (data X_samples) in
      nth ((i * K + u) * C + c) (data (fst (fst r))) 0
      = np_log (nth c (f (superposition a0 a1 x_i s_iu)) 0
                + (1 # 10000000000)) /\
      nth ((i * K + u) * C + c) (data (snd (fst r))) 0
      = np_log (nth c (f x_i) 0 + (1 # 10000000000)) * a0
        + np_log (nth c (f s_iu) 0 + (1 # 10000000000)) * a1.
Proof.
  intros Hf H. unfold _calculate_linearity_measure in H.
  repeat step H.
  apply ret_ok in H. destruct H as [-> _]. cbn [fst snd].
  pose proof E as Hs0. pose proof E0 as Hs1.
  apply shape_at_ok in Hs0, Hs1.
  assert (Hss : firstn 2 (shape X_samples) = [v; v0]).
  { destruct (shape X_samples) as [|p [|q t]]; try discriminate.
    cbn in Hs0, Hs1. injection Hs0 as ->. injection Hs1 as ->. reflexivity. }
  rewrite Hss in *. clear Hs0 Hs1 E E0.
  apply reshape_ok in E1. destruct E1 as (HXlen & ->).
  erewrite rowwise_classifier_shape in E2 by reflexivity. ok_subst E2.
  pose proof (shape_at_ok _ _ _ E11) as Hx0.
  destruct (shape x) as [|N sx] eqn:Hx; [discriminate Hx0|].
  cbn in Hx0. injection Hx0 as ->. clear E11.
  erewrite rowwise_classifier_shape in E3 by exact Hx. ok_subst E3.
  unfold log_floor, np_map in *. cbn [shape data last_dim length Nat.sub skipn app] in *.
  apply reshape_ok in E4. destruct E4 as (_ & ->).
  cbn in E5. ok_subst E5.
  apply reshape_ok in E6. destruct E6 as (_ & ->). cbn [shape data tl] in *.
  cbn in E7. ok_subst E7.
  apply np_repeat_axis1_ok in E8.
  destruct E8 as (t0 & t1 & rest & Hsh & ->). cbn [shape data] in *.
  injection Hsh as <- <- <-.
  apply superpose_ok in E9. destruct E9 as (Hsh & c0 & c1 & Hal & ->).
  injection Hal as <- <-. cbn [shape data] in *.
  injection Hsh as -> _.
  apply reshape_ok in E10. destruct E10 as (_ & ->).
  apply reshape_ok in E12. destruct E12 as (Hxlen & ->).
  cbn in E13. ok_subst E13.
  apply np_repeat_axis1_ok in E14.
  destruct E14 as (t0 & t1 & rest & Hsh & ->). cbn [shape data tl] in *.
  injection Hsh as <- <- <-.
  apply superpose_ok in E15. destruct E15 as (Hsh & c0 & c1 & Hal & ->).
  injection Hal as <- <-. cbn [shape data app] in *.
  injection Hsh as _ ->.
  cbn in E16, E17. ok_subst E16. ok_subst E17.
  apply reshape_ok in E18. destruct E18 as (_ & ->). cbn [skipn] in *.
  erewrite rowwise_classifier_shape in E19 by reflexivity. ok_subst E19.
  cbn [shape data last_dim length Nat.sub skipn app] in *.
  apply reshape_ok in E20. destruct E20 as (_ & ->). cbn [shape data] in *.
  rewrite !Nat.mul_1_l, !Nat.mul_1_r, ?Nat.add_0_r in *.
  change (size_of [C]) with (C * 1)%nat in *. rewrite !Nat.mul_1_r in *.
  cbn [size_of fold_right] in HXlen, Hxlen. fold (size_of input_shape) in *.
  rewrite Nat.mul_1_l in Hxlen.
  set (D := size_of input_shape) in *.
  exists v, v0.
  split; [reflexivity|]. split; [reflexivity|].
  split; [reflexivity|]. split; [reflexivity|].
  intros i u c Hi Hu Hc.
  assert (Hr : (i * v0 + u < v * v0)%nat) by nia.
  assert (Hrc : ((i * v0 + u) * C + c < v * v0 * C)%nat) by nia.
  assert (Lx : length (map (fun p : Q => np_log (p + (1 # 10000000000)))
                         (flat_map (fun r => f (row D r (data x))) (seq 0 v)))
               = (v * C)%nat).
  { rewrite length_map. apply length_rowwise. intros r0. apply Hf. }
  assert (Ls : length (map (fun p : Q => np_log (p + (1 # 10000000000)))
                         (flat_map (fun r => f (row D r (data X_samples)))
                                   (seq 0 (v * v0))))
               = (v * v0 * C)%nat).
  { rewrite length_map. apply length_rowwise. intros r0. apply Hf. }
  split.
  - rewrite nth_map_in with (d' := 0)
      by (rewrite (length_rowwise C) by (intros r0; apply Hf); exact Hrc).
    rewrite (nth_rowwise C) by (first [intros r0; apply Hf | assumption]).
    rewrite row_map_combine.
    rewrite (row_repeat_axis1 (data x) v v0 D i u Hxlen Hi Hu).
    reflexivity.
  - rewrite nth_map_in with (d' := (0, 0)).
    2:{ rewrite length_combine, Ls, (length_repeat_axis1 _ v v0 C Lx). nia. }
    rewrite combine_nth
      by (rewrite Ls, (length_repeat_axis1 _ v v0 C Lx); nia).
    cbn [fst snd]. f_equal; f_equal.
    + rewrite <- (nth_row C (i * v0 + u) c) by exact Hc.
      rewrite (row_repeat_axis1 _ v v0 C i u Lx Hi Hu).
      rewrite nth_row by exact Hc.
      rewrite nth_map_in with (d' := 0)
        by (rewrite (length_rowwise C) by (intros r0; apply Hf); nia).
      rewrite (nth_rowwise C) by (first [intros r0; apply Hf | assumption]).
      reflexivity.
    + rewrite nth_map_in with (d' := 0)
        by (rewrite (length_rowwise C) by (intros r0; apply Hf); exact Hrc).
      rewrite (nth_rowwise C) by (first [intros r0; apply Hf | assumption]).
      reflexivity.
Qed.

Lemma classifier_shapes np_log predict_fn x input_shape X_samples alphas C w r
  w' :
  classifier_shaped predict_fn input_shape C ->
  _calculate_linearity_measure np_log predict_fn x input_shape X_samples
    alphas w = (Ok r, w') ->
  exists N K sq,
    firstn 2 (shape X_samples) = [N; K] /\
    shape (fst (fst r)) = [N; K; C] /\
    shape (snd (fst r)) = [N; K; C] /\
    squared_difference (fst (fst r)) (snd (fst r)) = Ok sq /\
    mean_axes 3 sq = Ok (snd r).
Proof.
  intros Hpf H. unfold _calculate_linearity_measure in H.
  repeat step H.
  apply ret_ok in H. destruct H as [-> _]. cbn [fst snd].
  pose proof E as Hs0. pose proof E0 as Hs1.
  apply shape_at_ok in Hs0, Hs1.
  assert (Hss : firstn 2 (shape X_samples) = [v; v0]).
  { destruct (shape X_samples) as [|p [|q t]]; try discriminate.
    cbn in Hs0, Hs1. injection Hs0 as ->. injection Hs1 as ->. reflexivity. }
  rewrite Hss in *. clear Hs0 Hs1 E E0.
  apply reshape_ok in E1. destruct E1 as (_ & ->).
  ok_subst E2. ok_subst E3.
  pose proof (shape_at_ok _ _ _ E11) as Hx0.
  destruct (shape x) as [|N sx] eqn:Hx; [discriminate Hx0|].
  cbn in Hx0. injection Hx0 as ->. clear E11.
  apply reshape_ok in E10. destruct E10 as (_ & ->).
  apply reshape_ok in E12. destruct E12 as (_ & ->).
  cbn in E13. ok_subst E13.
  apply np_repeat_axis1_ok in E14.
  destruct E14 as (t0 & t1 & rest & Hsh & ->). cbn [shape data tl] in *.
  injection Hsh as <- <- <-.
  apply superpose_ok in E15. destruct E15 as (Hsh & c0 & c1 & _ & ->).
  cbn [shape data app] in *. injection Hsh as -> _ ->.
  cbn in E16, E17. ok_subst E16. ok_subst E17.
  apply reshape_ok in E18. destruct E18 as (_ & ->). cbn [skipn] in *.
  ok_subst E19.
  destruct (Hpf {| shape := (v * v0)%nat :: input_shape;
                   data := data X_samples |} (v * v0)%nat eq_refl)
    as (Ho & _).
  destruct (Hpf x v Hx) as (Hxo & _).
  match type of E20 with
  | context [predict_fn ?b] =>
      destruct (Hpf b (v * (1 * v0))%nat eq_refl) as (Hos & _)
  end.
  unfold log_floor, np_map in *. cbn [shape data] in *.
  rewrite Ho, Hxo, ?Hos in *.
  cbn [last_dim length Nat.sub skipn app tl] in *.
  apply reshape_ok in E4. destruct E4 as (_ & ->).
  cbn in E5. ok_subst E5.
  apply reshape_ok in E6. destruct E6 as (_ & ->). cbn [shape data tl] in *.
  cbn in E7. ok_subst E7.
  apply np_repeat_axis1_ok in E8.
  destruct E8 as (t0 & t1 & rest & Hsh & ->). cbn [shape data] in *.
  injection Hsh as <- <- <-.
  apply superpose_ok in E9. destruct E9 as (Hsh & c2 & c3 & _ & ->).
  cbn [shape data] in *.
  apply reshape_ok in E20. destruct E20 as (_ & ->). cbn [shape data length] in *.
  rewrite !Nat.mul_1_l in *.
  exists v, v0, v21. auto.
Qed.

(** X5: for a classifier with [C] classes, the score of an instance is the
    mean, over its samples and the classes, of the squared difference of the
    two arrays of log-probabilities the scorer returns with the scores. *)
Theorem classifier_score_is_mean_squared_difference np_log predict_fn x
  input_shape X_samples alphas C w out_sum sum_out score w' :
  classifier_shaped predict_fn input_shape C ->
  _calculate_linearity_measure np_log predict_fn x input_shape X_samples
    alphas w = (Ok (out_sum, sum_out, score), w') ->
  exists N K,
    firstn 2 (shape X_samples) = [N; K] /\
    score = mk_scores [N]
              (map (fun i => mean_squared_difference (data out_sum)
                               (data sum_out) (i * (K * C)) (K * C))
                   (seq 0 N)).
Proof.
  intros Hpf H.
  destruct (classifier_shapes _ _ _ _ _ _ _ _ _ _ Hpf H)
    as (N & K & sq & Hss & Ho & Hs & Hsq & Hmean).
  cbn [fst snd] in *.
  exists N, K. split; [exact Hss|].
  exact (score_formula _ _ _ _ N K C Ho Hs Hsq Hmean).
Qed.

(** X4: for a classifier acting instance by instance through [f], with [C]
    class probabilities, the classifier scorer returns the array of the
    log-probabilities at each superposed input, the array of the superposed
    log-probabilities of instance and sample, and as the score of instance
    [i] the mean over its samples and the classes of the squared difference
    of the two. *)
Theorem classifier_score_of_rowwise_model np_log C f x input_shape X_samples
  a0 a1 w out_sum sum_out score w' :
  (forall v, length (f v) = C) ->
  _calculate_linearity_measure np_log (rowwise_classifier C f) x input_shape
    X_samples [a0; a1] w = (Ok (out_sum, sum_out, score), w') ->
  let logp v c := np_log (nth c (f v) 0 + (1 # 10000000000)) in
  let x_ i := row (size_of input_shape) i (data x) in
  let s_ r := row (size_of input_shape) r (data X_samples) in
  exists N K,
    shape x = N :: input_shape /\
    firstn 2 (shape X_samples) = [N; K] /\
    (forall i u c, (i < N)%nat -> (u < K)%nat -> (c < C)%nat ->
       nth ((i * K + u) * C + c) (data out_sum) 0
       = logp (superposition a0 a1 (x_ i) (s_ (i * K + u)%nat)) c /\
       nth ((i * K + u) * C + c) (data sum_out) 0
       = logp (x_ i) c * a0 + logp (s_ (i * K + u)%nat) c * a1) /\
    score
    = mk_scores [N]
        (map (fun i =>
                np_mean
                  (map (fun t =>
                          let r := (i * K + t / C)%nat in
                          let c := (t mod C)%nat in
                          (logp (superposition a0 a1 (x_ i) (s_ r)) c
                           - (logp (x_ i) c * a0 + logp (s_ r) c * a1)) ^ 2)
                       (seq 0 (K * C))))
             (seq 0 N)).
Proof.
  intros Hf H. cbn zeta.
  destruct (classifier_entries _ _ _ _ _ _ _ _ _ _ _ Hf H)
    as (N & K & Hx & Hss & _ & _ & Hent).
  destruct (classifier_shapes _ _ _ _ _ _ C _ _ _
              (rowwise_classifier_shaped C f input_shape Hf) H)
    as (N' & K' & sq & Hss' & Ho & Hs & Hsq & Hmean).
  rewrite Hss in Hss'. injection Hss' as <- <-.
  cbn [fst snd] in *. cbn zeta in Hent.
  exists N, K. split; [exact Hx|]. split; [exact Hss|].
  split; [exact Hent|].
  rewrite (score_formula _ _ _ _ N K C Ho Hs Hsq Hmean). f_equal.
  apply map_ext_in. intros i Hi. apply in_seq in Hi.
  unfold mean_squared_difference. f_equal.
  apply map_ext_in. intros t Ht. apply in_seq in Ht.
  assert (HC : C <> 0%nat) by (intros ->; lia).
  pose proof (Nat.div_mod_eq t C) as Hdm.
  pose proof (Nat.mod_upper_bound t C HC) as Hmod.
  assert (Hdiv : (t / C < K)%nat)
    by (apply Nat.Div0.div_lt_upper_bound; lia).
  destruct (Hent i (t / C)%nat (t mod C)%nat ltac:(lia) Hdiv Hmod)
    as (E1 & E2).
  replace (i * (K * C) + t)%nat with ((i * K + t / C) * C + t mod C)%nat
    by nia.
  rewrite E1, E2. reflexivity.
Qed.

Lemma ex_probs_length v : length (ex_probs v) = 2%nat.
Proof. reflexivity. Qed.

Lemma classifier_score_of_rowwise_model_witness :
  let logp v c := ex_log (nth c (ex_probs v) 0 + (1 # 10000000000)) in
  let x_ i := row (size_of [2%nat]) i (data ex_x) in
  let s_ r := row (size_of [2%nat]) r (data ex_grid_sample) in
  exists N K,
    shape ex_x = N :: [2%nat] /\
    firstn 2 (shape ex_grid_sample) = [N; K] /\
    (forall i u c, (i < N)%nat -> (u < K)%nat -> (c < 2)%nat ->
       nth ((i * K + u) * 2 + c) (data ex_log_out_sum) 0
       = logp (superposition (1 # 2) (1 # 2) (x_ i) (s_ (i * K + u)%nat)) c /\
       nth ((i * K + u) * 2 + c) (data ex_log_sum_out) 0
       = logp (x_ i) c * (1 # 2) + logp (s_ (i * K + u)%nat) c * (1 # 2)) /\
    ex_log_score
    = mk_scores [N]
        (map (fun i =>
                np_mean
                  (map (fun t =>
                          let r := (i * K + t / 2)%nat in
                          let c := (t mod 2)%nat in
                          (logp (superposition (1 # 2) (1 # 2) (x_ i) (s_ r)) c
                           - (logp (x_ i) c * (1 # 2)
                              + logp (s_ r) c * (1 # 2))) ^ 2)
                       (seq 0 (K * 2))))
             (seq 0 N)).
Proof.
  apply (classifier_score_of_rowwise_model ex_log 2 ex_probs ex_x [2%nat]
           ex_grid_sample (1 # 2) (1 # 2) ex_world ex_log_out_sum
           ex_log_sum_out ex_log_score (snd ex_classifier_scorer_run)).
  - exact ex_probs_length.
  - apply injective_projections; [vm_compute; reflexivity | reflexivity].
Defined.

Lemma classifier_score_is_mean_squared_difference_witness :
  exists N K,
    firstn 2 (shape ex_grid_sample) = [N; K] /\
    ex_log_score
    = mk_scores [N]
        (map (fun i => mean_squared_difference (data ex_log_out_sum)
                         (data ex_log_sum_out) (i * (K * 2)) (K * 2))
             (seq 0 N)).
Proof.
  apply (classifier_score_is_mean_squared_difference ex_log
           (rowwise_classifier 2 ex_probs) ex_x [2%nat] ex_grid_sample
           [1 # 2; 1 # 2] 2 ex_world ex_log_out_sum ex_log_sum_out
           ex_log_score (snd ex_classifier_scorer_run)).
  - apply rowwise_classifier_shaped. exact ex_probs_length.
  - apply injective_projections; [vm_compute; reflexivity | reflexivity].
Defined.

(** * What a scoring run needs *)

Lemma regression_alphas predict_fn x input_shape X_samples alphas w r w' :
  _calculate_linearity_regression predict_fn x input_shape X_samples alphas w
    = (Ok r, w') ->
  exists a0 a1, alphas = [a0; a1].
Proof.
  intros H. unfold _calculate_linearity_regression in H.
  repeat step H.
  apply superpose_ok in E10. destruct E10 as (_ & a0 & a1 & Hal & _).
  exists a0, a1. exact Hal.
Qed.

Lemma classifier_alphas np_log predict_fn x input_shape X_samples alphas w r
  w' :
  _calculate_linearity_measure np_log predict_fn x input_shape X_samples
    alphas w = (Ok r, w') ->
  exists a0 a1, alphas = [a0; a1].
Proof.
  intros H. unfold _calculate_linearity_measure in H.
  repeat step H.
  apply superpose_ok in E9. destruct E9 as (_ & a0 & a1 & Hal & _).
  exists a0, a1. exact Hal.
Qed.

Section ScoringArguments.

Variable np_log : Q -> Q.
Variable kneighbors : ndarray -> Z -> ndarray -> result (list (list nat)).

(** X6: a scoring run returns scores only for a supported strategy with the
    data it needs (a training set for ['knn']; a feature range, a non-zero
    resolution and a non-negative number of samples for ['gridSampling']),
    a supported model type, and exactly two coefficients. *)
Theorem scoring_run_arguments predict_fn x X_train features_range method
  epsilon nb_samples res alphas model_type w s w' :
  _linearity_measure np_log kneighbors predict_fn x X_train features_range
    method epsilon nb_samples res alphas model_type w = (Ok s, w') ->
  ((method = "knn"%string /\ X_train <> None) \/
   (method = "gridSampling"%string /\ features_range <> None /\
    res <> 0%Z /\ (0 <= nb_samples)%Z)) /\
  (model_type = "classifier"%string \/ model_type = "regressor"%string) /\
  exists a0 a1, effective_alphas alphas = [a0; a1].
Proof.
  intros H. unfold _linearity_measure in H.
  step H. step H. fold (effective_alphas alphas) in H.
  split; [|split].
  - destruct (String.eqb_spec method "knn") as [Hm|_].
    + left. split; [exact Hm|]. step E0.
      destruct X_train; [discriminate | discriminate E1].
    + destruct (String.eqb_spec method "gridSampling") as [Hm|_];
        [|discriminate E0].
      right. split; [exact Hm|]. step E0.
      destruct features_range as [fr|]; [|discriminate E1].
      destruct (sample_grid_entries _ _ _ _ _ _ _ _ E0)
        as (N & D & _ & _ & _ & _ & Hnb & Hres & _).
      split; [discriminate|]. split; assumption.
  - destruct (String.eqb_spec model_type "classifier") as [Hm|_];
      [left; exact Hm|].
    destruct (String.eqb_spec model_type "regressor") as [Hm|_];
      [right; exact Hm | discriminate H].
  - destruct (model_type =? "classifier")%string.
    + step H. eapply classifier_alphas. exact E1.
    + destruct (model_type =? "regressor")%string; [|discriminate H].
      step H. eapply regression_alphas. exact E1.
Qed.

End ScoringArguments.

Lemma scoring_run_arguments_witness :
  (("gridSampling"%string = "knn"%string /\ @None ndarray <> None) \/
   ("gridSampling"%string = "gridSampling"%string /\ Some ex_range <> None /\
    100%Z <> 0%Z /\ (0 <= 3)%Z)) /\
  ("regressor"%string = "classifier"%string \/
   "regressor"%string = "regressor"%string) /\
  exists a0 a1, effective_alphas None = [a0; a1].
Proof.
  apply (scoring_run_arguments ex_log exact_kneighbors ex_linear
           ex_x None (Some ex_range) "gridSampling" (4 # 100) 3 100 None
           "regressor" ex_world ex_grid_scores (snd ex_grid_run)).
  apply injective_projections; [vm_compute; reflexivity | reflexivity].
Defined.

(** * The model type and the shape of the predictions *)

Lemma reshape_raises a s e : reshape a s = Raise e -> e = ValueError.
Proof.
  unfold reshape. destruct (length (data a) =? size_of s)%nat; [discriminate|].
  intros H. inversion H. reflexivity.
Qed.

Lemma reshape_mismatch a s :
  length (data a) <> size_of s -> reshape a s = Raise ValueError.
Proof.
  intros H. unfold reshape.
  destruct (Nat.eqb_spec (length (data a)) (size_of s)); [contradiction|].
  reflexivity.
Qed.

(** X7: scored as a classifier, a prediction function that returns one
    output per instance (a regressor) yields no scores for two or more
    samples: the run raises [ValueError]. *)
Theorem regressor_scored_as_classifier_raises np_log predict_fn x input_shape
  X_samples alphas N K rest w :
  regressor_shaped predict_fn input_shape ->
  shape X_samples = N :: K :: rest -> (2 <= N * K)%nat ->
  exists w',
    _calculate_linearity_measure np_log predict_fn x input_shape X_samples
      alphas w = (Raise ValueError, w').
Proof.
  intros Hpf HX HNK.
  unfold _calculate_linearity_measure.
  rewrite HX. cbn [firstn app].
  rewrite (bind_lift_ok _ N) by (unfold shape_at; rewrite HX; reflexivity).
  rewrite (bind_lift_ok _ K) by (unfold shape_at; rewrite HX; reflexivity).
  destruct (reshape X_samples ((N * K)%nat :: input_shape)) as [Xr|e] eqn:E1.
  - apply reshape_ok in E1. destruct E1 as (_ & ->).
    rewrite (bind_lift_ok _ _ _ _ eq_refl).
    rewrite bind_predict_eq. rewrite bind_predict_eq.
    match goal with |- context [log_floor np_log (predict_fn ?b)] =>
      destruct (Hpf b (N * K)%nat eq_refl) as (Hs1 & Hw1) end.
    unfold wf in Hw1. rewrite Hs1 in Hw1. cbn [size_of fold_right] in Hw1.
    rewrite reshape_mismatch.
    + eexists. reflexivity.
    + unfold log_floor, np_map. cbn [shape data]. rewrite Hs1, length_map, Hw1.
      cbn [last_dim length Nat.sub skipn app size_of fold_right]. nia.
  - apply reshape_raises in E1. subst e. eexists. reflexivity.
Qed.


Lemma regressor_scored_as_classifier_raises_witness :
  exists w',
    _calculate_linearity_measure ex_log ex_linear ex_x [2%nat] ex_grid_sample
      [1 # 2; 1 # 2] ex_world = (Raise ValueError, w').
Proof.
  apply (regressor_scored_as_classifier_raises ex_log ex_linear ex_x [2%nat]
           ex_grid_sample [1 # 2; 1 # 2] 1 3 [2%nat] ex_world).
  - apply affine_fn_regressor_shaped.
  - reflexivity.
  - simpl; lia.
Defined.


(** * The grid sampler and the random stream *)


Lemma bind_lift_raise {A B} e (k : A -> M B) w :
  bind (lift (Raise e)) k w = (Raise e, w).
Proof. reflexivity. Qed.

(** Follows the next step of a run that has not touched the world yet: the
    step either raises, which settles the goal, or goes on. *)
Ltac next_or_raise :=
  match goal with
  | |- context [bind (lift ?r) _ _] =>
      let E := fresh "E" in
      destruct r eqn:E;
      [ rewrite (bind_lift_ok _ _ _ _ eq_refl)
      | eexists; apply bind_lift_raise ]
  | |- context [bind (assert ?c) _ _] =>
      let E := fresh "E" in
      destruct c eqn:E;
      [ rewrite bind_assert_true by reflexivity
      | eexists; reflexivity ]
  end.

(** X10: without a feature range, with [res = 0] or with a negative number
    of samples the grid sampler raises before it draws a random number: the
    world is as it was. *)
Theorem grid_sampler_rejects_before_drawing x features_range epsilon
  nb_samples res w :
  features_range = None \/ res = 0%Z \/ (nb_samples < 0)%Z ->
  exists e,
    _sample_gridSampling x features_range epsilon nb_samples res w
    = (Raise e, w).
Proof.
  intros Hbad. unfold _sample_gridSampling.
  next_or_raise. next_or_raise. next_or_raise. next_or_raise.
  destruct features_range as [fr|]; [|eexists; reflexivity].
  rewrite bind_assert_true by reflexivity.
  destruct Hbad as [Hfr | [Hres | Hnb]]; [discriminate Hfr | |].
  - subst res. eexists. reflexivity.
  - next_or_raise.
    unfold bind at 1, randint_size. cbn [existsb].
    destruct (Z.ltb_spec nb_samples 0) as [_|?]; [|lia].
    rewrite orb_true_r. cbn [orb]. eexists. reflexivity.
Qed.

Lemma np_binop_rank3_vector_mismatch f a b a1 a2 a3 b3 :
  shape a = [a1; a2; a3] -> shape b = [b3] ->
  a3 <> b3 -> a3 <> 1%nat -> b3 <> 1%nat ->
  np_binop f a b = Raise ValueError.
Proof.
  intros Ha Hb H1 H2 H3. unfold np_binop. rewrite Ha, Hb.
  cbn [length Nat.max pad_shape Nat.sub repeat app broadcast_shapes rbind].
  destruct (Nat.eqb_spec a3 b3); [contradiction|].
  destruct (Nat.eqb_spec a3 1); [contradiction|].
  destruct (Nat.eqb_spec b3 1); [contradiction|].
  reflexivity.
Qed.

(** X11: a feature range whose number of rows is neither one nor the number
    of features of the instances is refused with [ValueError], but only
    after both blocks of random integers have been drawn. *)
Theorem grid_sampler_checks_range_after_drawing x (fr : FeatureRange) epsilon
  nb_samples res N D w :
  hd_error (shape x) = Some N -> N <> 0%nat ->
  length (data x) = (N * D)%nat -> (2 <= D)%nat ->
  res <> 0%Z -> (0 <= nb_samples)%Z ->
  length fr <> D -> length fr <> 1%nat ->
  let size := [N; Z.to_nat nb_samples; D] in
  _sample_gridSampling x (Some fr) epsilon nb_samples res w
  = (Raise ValueError,
     mk_world (entropy w) (cursor w + 2 * size_of size)
       (trace w ++ [EvRandint 2 size; EvRandint (grid_size epsilon res) size])).
Proof.
  intros Hx HN Hlen HD Hres Hnb Hfr Hfr1. cbn zeta.
  unfold _sample_gridSampling.
  rewrite (bind_lift_ok _ N) by (apply shape_at_hd; exact Hx).
  rewrite (bind_lift_ok _ (mk_ndarray [N; D] (data x)))
    by (apply reshape_rows_exact; assumption).
  rewrite (bind_lift_ok _ D) by reflexivity.
  rewrite bind_assert_true by (apply Nat.ltb_lt; lia).
  rewrite bind_assert_true by reflexivity.
  unfold grid_deltas. destruct (Z.eqb_spec res 0) as [?|_]; [contradiction|].
  rewrite (bind_lift_ok _ _ _ _ eq_refl).
  unfold bind at 1.
  rewrite randint_size3_eq by (exact Hnb || lia).
  unfold bind at 1.
  rewrite randint_size3_eq
    by (exact Hnb || (pose proof (grid_size_ge2 epsilon res); lia)).
  set (K := Z.to_nat nb_samples).
  erewrite bind_lift_ok;
    [ | apply np_binop_rank3 with (a1 := N) (a2 := K) (a3 := D)
                                  (b1 := N) (b2 := K) (b3 := D);
        [ reflexivity | reflexivity
        | repeat (constructor; [left; reflexivity|]); constructor ] ].
  erewrite np_binop_rank3_vector_mismatch
    with (a1 := bdim N N) (a2 := bdim K K) (a3 := bdim D D) (b3 := length fr);
    [ | reflexivity | reflexivity
      | rewrite bdim_same; congruence | rewrite bdim_same; lia
      | exact Hfr1 ].
  rewrite bind_lift_raise. cbn [entropy cursor trace].
  f_equal. f_equal; [lia | rewrite <- app_assoc; reflexivity].
Qed.



Lemma grid_sampler_rejects_before_drawing_witness :
  exists e,
    _sample_gridSampling ex_x (Some ex_range) (4 # 100) 3 0 ex_world
    = (Raise e, ex_world).
Proof.
  apply (grid_sampler_rejects_before_drawing ex_x (Some ex_range) (4 # 100) 3
           0 ex_world).
  right. left. reflexivity.
Defined.

Lemma grid_sampler_checks_range_after_drawing_witness :
  let size := [1%nat; Z.to_nat 3; 2%nat] in
  _sample_gridSampling ex_x (Some ex_long_range) (4 # 100) 3 100 ex_world
  = (Raise ValueError,
     mk_world (entropy ex_world) (cursor ex_world + 2 * size_of size)
       (trace ex_world ++ [EvRandint 2 size;
                           EvRandint (grid_size (4 # 100) 100) size])).
Proof.
  apply (grid_sampler_checks_range_after_drawing ex_x ex_long_range (4 # 100)
           3 100 1 2 ex_world).
  - reflexivity.
  - lia.
  - reflexivity.
  - lia.
  - lia.
  - lia.
  - simpl; lia.
  - simpl; lia.
Defined.


(** * The nearest-neighbour sampler and the index *)

Lemma length_concat_repeat_row (r : list Q) n :
  length (concat (repeat r n)) = (n * length r)%nat.
Proof.
  induction n as [|n IH]; cbn [repeat concat]; [reflexivity|].
  rewrite length_app, IH. lia.
Qed.

Section KnnQueries.

Variable kneighbors : ndarray -> Z -> ndarray -> result (list (list nat)).

Variables (x : ndarray) (nb_samples : Z) (N D : nat).
Hypothesis x_shape : shape x = [N; D].
Hypothesis x_size : length (data x) = (N * D)%nat.

(** The query of instance [i] against a training set of [n] points: [n]
    copies of the instance. *)
Local Abbreviation query n i :=
  (mk_ndarray [n%nat; D] (concat (repeat (row D i (data x)) n%nat))).

Lemma knn_step_world i X_train w st w' :
  (i < N)%nat ->
  knn_step kneighbors x nb_samples i X_train w = (Ok st, w') ->
  exists n d,
    hd_error (shape X_train) = Some n /\ n <> 0%nat /\
    length (data X_train) = (n * d)%nat /\
    fst st = mk_ndarray [n; d] (data X_train) /\
    w' = mk_world (entropy w) (cursor w)
           (trace w ++ [EvKNeighbors nb_samples
                          (mk_ndarray [n; d] (data X_train)) (query n i)]).
Proof.
  intros Hi H. unfold knn_step in H.
  repeat step H.
  apply ret_ok in H. destruct H as [-> ->]. cbn [fst entropy cursor trace].
  apply shape_at_ok in E.
  apply reshape_rows_ok in E0. destruct E0 as (Hn & Hmod & ->).
  cbn in E1. ok_subst E1.
  unfold shape_at in E2. rewrite x_shape in E2. cbn in E2. ok_subst E2.
  rewrite np_stack_repeat in E3 by exact Hn. ok_subst E3.
  cbn [shape data] in *. cbn in E4. ok_subst E4.
  apply reshape_rows_ok in E5. destruct E5 as (_ & _ & ->).
  cbn [data] in *.
  assert (Hrow : length (row D i (data x)) = D)
    by (apply length_row; rewrite x_size; nia).
  rewrite length_concat_repeat_row, Hrow.
  rewrite (Nat.mul_comm v D), Nat.div_mul by exact Hn.
  exists v, (length (data X_train) / v)%nat.
  split. { destruct (shape X_train); [discriminate E | exact E]. }
  split; [exact Hn|].
  split. { apply Nat.Div0.div_exact in Hmod. exact Hmod. }
  split; reflexivity.
Qed.

Lemma knn_loop_world range : forall X_train w l w' n d,
  (forall i, In i range -> (i < N)%nat) ->
  hd_error (shape X_train) = Some n -> n <> 0%nat ->
  length (data X_train) = (n * d)%nat ->
  knn_loop kneighbors x nb_samples range X_train w = (Ok l, w') ->
  w' = mk_world (entropy w) (cursor w)
         (trace w ++ map (fun i => EvKNeighbors nb_samples
                                     (mk_ndarray [n; d] (data X_train))
                                     (query n i)) range).
Proof.
  induction range as [|i range IH]; intros X_train w l w' n d Hr Hn Hn0 Hl H;
    cbn [knn_loop] in H.
  - apply ret_ok in H. destruct H as [_ ->]. cbn [map].
    rewrite app_nil_r. destruct w; reflexivity.
  - step H. step H. apply ret_ok in H. destruct H as [_ ->].
    destruct (knn_step_world i X_train w v w0 (Hr i (or_introl eq_refl)) E)
      as (n' & d' & Hn' & _ & Hl' & Hst & ->).
    assert (n' = n) by congruence. subst n'.
    assert (d' = d) by (rewrite Hl in Hl'; nia). subst d'.
    rewrite Hst in E0.
    apply (IH _ _ _ _ n d) in E0;
      [ | intros j Hj; apply Hr; right; exact Hj | reflexivity | exact Hn0
        | exact Hl ].
    rewrite E0.
    cbn [entropy cursor trace data map]. rewrite <- app_assoc. reflexivity.
Qed.

End KnnQueries.

(** X13: a run of the nearest-neighbour sampler that returns a sample has
    put one query to the index per instance, in order, each against the
    whole flattened training set and each made of as many copies of the
    instance as there are training points; it draws no random number. *)
Theorem knn_sampler_queries kneighbors x X_train nb_samples w X w' :
  _sample_knn kneighbors x X_train nb_samples w = (Ok X, w') ->
  exists N D n d,
    hd_error (shape x) = Some N /\ length (data x) = (N * D)%nat /\
    hd_error (shape X_train) = Some n /\
    length (data X_train) = (n * d)%nat /\
    w' = mk_world (entropy w) (cursor w)
           (trace w ++
            map (fun i =>
                   EvKNeighbors nb_samples (mk_ndarray [n; d] (data X_train))
                     (mk_ndarray [n; D] (concat (repeat (row D i (data x)) n))))
                (seq 0 N)).
Proof.
  intros H. unfold _sample_knn in H.
  do 4 step H. apply lift_ok in H. destruct H as [_ ->].
  apply shape_at_ok in E.
  apply reshape_rows_ok in E0. destruct E0 as (HN & Hmod & ->).
  cbn in E1. ok_subst E1.
  apply Nat.Div0.div_exact in Hmod.
  set (D := (length (data x) / v)%nat) in *.
  assert (Hx : hd_error (shape x) = Some v)
    by (destruct (shape x); [discriminate E | exact E]).
  destruct v as [|N']; [congruence|].
  cbn [seq knn_loop] in E2.
  pose proof E2 as E2'.
  step E2'. 
  destruct (knn_step_world kneighbors
              {| shape := [S N'; D]; data := data x |} nb_samples (S N') D
              eq_refl Hmod 0%nat X_train w _ _ ltac:(lia) E0)
    as (n & d & Hn & Hn0 & Hl & _ & _).
  exists (S N'), D, n, d.
  split; [exact Hx|]. split; [exact Hmod|].
  split; [exact Hn|]. split; [exact Hl|].
  apply (knn_loop_world kneighbors
           {| shape := [S N'; D]; data := data x |} nb_samples (S N') D
           eq_refl Hmod (0%nat :: seq 1 N') X_train w v2 _ n d);
    [ | exact Hn | exact Hn0 | exact Hl | exact E2 ].
  intros i Hi. change (0%nat :: seq 1 N') with (seq 0 (S N')) in Hi.
  apply in_seq in Hi. lia.
Qed.

Lemma knn_sampler_queries_witness :
  exists N D n d,
    hd_error (shape ex_x) = Some N /\ length (data ex_x) = (N * D)%nat /\
    hd_error (shape ex_train) = Some n /\
    length (data ex_train) = (n * d)%nat /\
    snd ex_knn_sampler_run
    = mk_world (entropy ex_world) (cursor ex_world)
        (trace ex_world ++
         map (fun i =>
                EvKNeighbors 2 (mk_ndarray [n; d] (data ex_train))
                  (mk_ndarray [n; D]
                     (concat (repeat (row D i (data ex_x)) n))))
             (seq 0 N)).
Proof.
  apply (knn_sampler_queries exact_kneighbors ex_x ex_train 2 ex_world
           ex_knn_sample (snd ex_knn_sampler_run)).
  apply injective_projections; [vm_compute; reflexivity | reflexivity].
Defined.

Lemma sqdist_nonneg a b : 0 <= sqdist a b.
Proof.
  unfold sqdist. apply Qsum_nonneg. rewrite Forall_map, Forall_forall.
  intros uv _. apply Qsquare_nonneg.
Qed.

Lemma sqdist_self a : sqdist a a == 0.
Proof.
  unfold sqdist. apply Qsum_zero. rewrite Forall_map, Forall_forall.
  intros [u v] Hin. cbn [fst snd].
  assert (u = v) as ->.
  { clear -Hin. induction a as [|c a IH]; cbn in Hin; [contradiction|].
    destruct Hin as [E|Hin]; [congruence | exact (IH Hin)]. }
  cbn. ring.
Qed.

Lemma sqdist_zero_eq a : forall b,
  length a = length b -> sqdist a b == 0 -> Forall2 Qeq a b.
Proof.
  induction a as [|u a IH]; intros [|v b] Hl H; try discriminate Hl;
    [constructor|].
  unfold sqdist in H. cbn [combine map Qsum fold_right fst snd] in H.
  fold (Qsum (map (fun uv => (fst uv - snd uv) ^ 2) (combine a b))) in H.
  fold (sqdist a b) in H.
  pose proof (sqdist_nonneg a b) as Hn.
  pose proof (Qsquare_nonneg (u - v)) as Hs.
  constructor.
  - assert (Hz : (u - v) ^ 2 == 0) by lra.
    apply Qsquare_zero in Hz. lra.
  - apply IH; [cbn in Hl; lia | lra].
Qed.

(** X14: under the contract of the index, an instance that is itself a
    training point comes back as its own first sample: the first member of
    its neighbourhood has the features of the instance. *)
Theorem knn_first_sample_of_training_instance kneighbors x X_train nb_samples
  N n D i j :
  kneighbors_contract kneighbors ->
  hd_error (shape x) = Some N -> N <> 0%nat ->
  length (data x) = (N * D)%nat ->
  hd_error (shape X_train) = Some n ->
  length (data X_train) = (n * D)%nat ->
  (1 <= D)%nat -> (1 <= nb_samples <= Z.of_nat n)%Z ->
  (i < N)%nat -> (j < n)%nat ->
  row D i (data x) = row D j (data X_train) ->
  exists X,
    (forall w, fst (_sample_knn kneighbors x X_train nb_samples w) = Ok X) /\
    Forall2 Qeq (row D i (data x))
                (row D (i * Z.to_nat nb_samples) (data X)).
Proof.
  intros Hc Hx HN Hxs Ht Hts HD Hk Hi Hj Hrow.
  destruct (sample_knn_spec kneighbors Hc x X_train nb_samples N n D
              Hx HN Hxs Ht Hts HD Hk) as (idxss & HF & Hrun).
  eexists. split.
  { intros w. destruct (Hrun w) as (w' & E). rewrite E. reflexivity. }
  cbn [data].
  set (K := Z.to_nat nb_samples) in *.
  assert (HK : (0 < K)%nat) by (unfold K; lia).
  pose proof (selected_row x X_train nb_samples N n D HN Hxs Hts HD Hk idxss
                i 0%nat HF Hi HK) as Hsel.
  rewrite Nat.add_0_r in Hsel. fold K in Hsel. rewrite Hsel.
  destruct (Forall2_nth_seq _ N idxss [] HF) as (_ & Hnth).
  destruct (Hnth i Hi) as (Hlen & _ & Hb & Hord & Hout).
  fold K in Hlen, Hord.
  set (idxs := nth i idxss []) in *.
  set (q := row D i (data x)) in *.
  assert (Hin0 : In (nth 0 idxs 0%nat) idxs) by (apply nth_In; lia).
  assert (Hle : sqdist q (row D (nth 0 idxs 0%nat) (data X_train))
                <= sqdist q (row D j (data X_train))).
  { destruct (in_dec Nat.eq_dec j idxs) as [Hin|Hnin].
    - apply (In_nth _ _ 0%nat) in Hin. destruct Hin as (b & Hb' & <-).
      destruct b as [|b]; [apply Qle_refl|].
      apply Hord. lia.
    - apply Hout; assumption. }
  rewrite <- Hrow in Hle. rewrite (sqdist_self q) in Hle.
  apply sqdist_zero_eq.
  - unfold q. rewrite !length_row; [reflexivity | |].
    + specialize (Hb _ Hin0). rewrite Hts. nia.
    + rewrite Hxs. nia.
  - pose proof (sqdist_nonneg q (row D (nth 0 idxs 0%nat) (data X_train))).
    lra.
Qed.

Lemma knn_first_sample_of_training_instance_witness :
  exists X,
    (forall w, fst (_sample_knn exact_kneighbors ex_x ex_train 2 w) = Ok X) /\
    Forall2 Qeq (row 2 0 (data ex_x)) (row 2 (0 * Z.to_nat 2) (data X)).
Proof.
  apply (knn_first_sample_of_training_instance exact_kneighbors ex_x ex_train
           2 1 3 2 0 1).
  - exact exact_kneighbors_contract.
  - reflexivity.
  - lia.
  - reflexivity.
  - reflexivity.
  - reflexivity.
  - lia.
  - lia.
  - lia.
  - lia.
  - reflexivity.
Defined.

(** * Scoring on nearest neighbours *)

Section KnnRun.

Variable np_log : Q -> Q.
Variable kneighbors : ndarray -> Z -> ndarray -> result (list (list nat)).
Hypothesis contract : kneighbors_contract kneighbors.

Lemma knn_step_cursor x nb_samples i X_train w st w' :
  knn_step kneighbors x nb_samples i X_train w = (Ok st, w') ->
  cursor w' = cursor w.
Proof.
  intros H. unfold knn_step in H.
  repeat step H.
  apply ret_ok in H. destruct H as [_ ->]. reflexivity.
Qed.

Lemma knn_loop_cursor x nb_samples range : forall X_train w l w',
  knn_loop kneighbors x nb_samples range X_train w = (Ok l, w') ->
  cursor w' = cursor w.
Proof.
  induction range as [|i range IH]; intros X_train w l w' H; cbn [knn_loop] in H.
  - apply ret_ok in H. destruct H as [_ ->]. reflexivity.
  - step H. step H. apply ret_ok in H. destruct H as [_ ->].
    rewrite (IH _ _ _ _ E0). eapply knn_step_cursor. exact E.
Qed.

Lemma knn_sampler_cursor x X_train nb_samples w X w' :
  _sample_knn kneighbors x X_train nb_samples w = (Ok X, w') ->
  cursor w' = cursor w.
Proof.
  intros H. unfold _sample_knn in H.
  do 4 step H. apply lift_ok in H. destruct H as [_ ->].
  eapply knn_loop_cursor. exact E2.
Qed.

Lemma sample_knn_succeeds x X_train nb_samples N n D w :
  hd_error (shape x) = Some N -> N <> 0%nat ->
  length (data x) = (N * D)%nat ->
  hd_error (shape X_train) = Some n ->
  length (data X_train) = (n * D)%nat ->
  (1 <= D)%nat -> (1 <= nb_samples <= Z.of_nat n)%Z ->
  exists X w',
    _sample_knn kneighbors x X_train nb_samples w = (Ok X, w') /\
    shape X = [N; Z.to_nat nb_samples; D] /\
    length (data X) = (N * (Z.to_nat nb_samples * D))%nat.
Proof.
  intros Hx HN Hxs Ht Hts HD Hk.
  destruct (sample_knn_spec kneighbors contract x X_train nb_samples N n D
              Hx HN Hxs Ht Hts HD Hk) as (idxss & HF & Hrun).
  destruct (Hrun w) as (w' & E).
  eexists. exists w'. split; [exact E|]. split; [reflexivity|].
  cbn [data].
  pose proof (Forall2_length HF) as Hlen. rewrite length_seq in Hlen.
  rewrite (length_concat_uniform _ (Z.to_nat nb_samples * D)).
  - rewrite !length_map, <- Hlen. reflexivity.
  - apply Forall_forall. intros b Hb. apply in_map_iff in Hb.
    destruct Hb as (a & <- & Ha). apply in_map_iff in Ha.
    destruct Ha as (idxs & <- & Hin). unfold selected_rows. cbn [data].
    apply (In_nth _ _ []) in Hin. destruct Hin as (p & Hp & <-).
    destruct (Forall2_nth_seq _ N idxss [] HF) as (_ & Hnth).
    rewrite <- Hlen in Hp.
    destruct (Hnth p Hp) as (HlK & _ & Hb & _).
    rewrite (length_concat_uniform _ D).
    + rewrite length_map, HlK. reflexivity.
    + apply Forall_forall. intros b Hb'. apply in_map_iff in Hb'.
      destruct Hb' as (j & <- & Hj). apply length_row.
      specialize (Hb j Hj). rewrite Hts. nia.
Qed.

(** X15: with an index that meets its contract, a training set and a batch
    of instances of the same input shape, [1 <= nb_samples <= n], a pair of
    coefficients and a prediction function shaped as its model type asks,
    the stateless entry point with the ['knn'] strategy returns one score
    per instance and draws no random number. *)
Theorem knn_scoring_succeeds predict_fn x X_train features_range epsilon
  nb_samples res alphas a0 a1 model_type N n input_shape w :
  shape x = N :: input_shape -> N <> 0%nat -> wf x ->
  shape X_train = n :: input_shape -> wf X_train ->
  (1 <= size_of input_shape)%nat -> (1 <= nb_samples <= Z.of_nat n)%Z ->
  effective_alphas alphas = [a0; a1] ->
  predict_shaped model_type predict_fn input_shape ->
  exists s w',
    linearity_measure np_log kneighbors predict_fn x features_range "knn"
      (Some X_train) epsilon nb_samples res alphas model_type w = (Ok s, w') /\
    sshape s = [N] /\ cursor w' = cursor w.
Proof.
  intros Hx HN Hwx Ht Hwt HD Hk Hal Hpf.
  unfold wf in Hwx, Hwt. rewrite Hx in Hwx. rewrite Ht in Hwt.
  cbn [size_of fold_right] in Hwx, Hwt. fold (size_of input_shape) in Hwx, Hwt.
  assert (Hx' : hd_error (shape x) = Some N) by (rewrite Hx; reflexivity).
  assert (Ht' : hd_error (shape X_train) = Some n) by (rewrite Ht; reflexivity).
  unfold linearity_measure. cbn [String.eqb Ascii.eqb Bool.eqb].
  rewrite bind_assert_true by reflexivity.
  unfold _linearity_measure. cbn [String.eqb Ascii.eqb Bool.eqb orb].
  rewrite bind_assert_true by reflexivity.
  destruct (sample_knn_succeeds x X_train nb_samples N n
              (size_of input_shape) w Hx' HN Hwx Ht' Hwt HD Hk)
    as (X & w1 & Hrun & HX & HXl).
  pose proof (knn_sampler_cursor _ _ _ _ _ _ Hrun) as Hcur.
  unfold bind at 1. rewrite bind_assert_true by reflexivity.
  rewrite Hrun. fold (effective_alphas alphas). rewrite Hal, Hx. cbn [tl].
  destruct Hpf as [(-> & Hpf) | (-> & C & Hpf)];
    cbn [String.eqb Ascii.eqb Bool.eqb].
  - destruct (regression_succeeds predict_fn x input_shape X a0 a1 N
                (Z.to_nat nb_samples) w1 Hpf Hx Hwx HX HXl)
      as (r & w2 & Hs & Hsh).
    exists (snd r), w2. unfold bind. rewrite Hs.
    split; [reflexivity|]. split; [exact Hsh|].
    destruct (regression_trace _ _ _ _ _ _ _ _ Hs)
      as (? & ? & ? & _ & _ & _ & Hc & _).
    congruence.
  - destruct (classifier_succeeds np_log predict_fn x input_shape X a0 a1 N
                (Z.to_nat nb_samples) C w1 Hpf Hx Hwx HX HXl)
      as (r & w2 & Hs & Hsh).
    exists (snd r), w2. unfold bind. rewrite Hs.
    split; [reflexivity|]. split; [exact Hsh|].
    destruct (classifier_trace _ _ _ _ _ _ _ _ _ Hs)
      as (? & ? & ? & _ & _ & _ & Hc & _).
    congruence.
Qed.

End KnnRun.

Lemma knn_scoring_succeeds_witness :
  exists s w',
    linearity_measure ex_log exact_kneighbors ex_linear ex_x None "knn"
      (Some ex_train) (4 # 100) 2 100 None "regressor" ex_world = (Ok s, w') /\
    sshape s = [1%nat] /\ cursor w' = cursor ex_world.
Proof.
  apply (knn_scoring_succeeds ex_log exact_kneighbors
           exact_kneighbors_contract ex_linear ex_x ex_train None (4 # 100) 2
           100 None (1 # 2) (1 # 2) "regressor" 1 3 [2%nat] ex_world).
  - reflexivity.
  - lia.
  - reflexivity.
  - reflexivity.
  - reflexivity.
  - simpl; lia.
  - lia.
  - reflexivity.
  - left. split; [reflexivity | apply affine_fn_regressor_shaped].
Defined.

(** * The facade and the stateless entry point *)

Lemma shape_eqb_neq s t : s <> t -> shape_eqb s t = false.
Proof.
  intros H. unfold shape_eqb.
  destruct (list_eq_dec Nat.eq_dec s t); [contradiction | reflexivity].
Qed.

Section Entry.

Variable np_log : Q -> Q.
Variable kneighbors : ndarray -> Z -> ndarray -> result (list (list nat)).

(** X16: the facade returns scores only on a fit object and for instances of
    the input shape it was fit on, with a supported strategy, and it returns
    the object as it was. *)
Theorem facade_scores_only_after_fit (self self' : LinearityMeasure)
  predict_fn x w s w' :
  LinearityMeasure_linearity_measure np_log kneighbors self predict_fn x w
    = (Ok (self', s), w') ->
  self_is_fit self = true /\
  self_input_shape self = Some (tl (shape x)) /\
  (self_method self = "knn"%string \/
   self_method self = "gridSampling"%string) /\
  self' = self.
Proof.
  intros H.
  destruct (self_is_fit self) eqn:Hfit.
  - split; [reflexivity|].
    unfold LinearityMeasure_linearity_measure in H. rewrite Hfit in H.
    step H.
    destruct (self_input_shape self) as [sh|]; [|discriminate E].
    apply shape_eqb_eq in E. subst sh. split; [reflexivity|].
    destruct (String.eqb_spec (self_method self) "knn") as [Hm|_].
    + split; [left; exact Hm|].
      repeat step H. apply ret_ok in H. destruct H as [H _].
      congruence.
    + destruct (String.eqb_spec (self_method self) "gridSampling") as [Hm|_];
        [|discriminate H].
      split; [right; exact Hm|].
      cbn [negb] in H.
      repeat step H. apply ret_ok in H. destruct H as [H _].
      congruence.
  - exfalso.
    destruct (String.eqb_spec (self_method self) "knn") as [Hm|Hk].
    + rewrite (unfit_knn_raises np_log kneighbors self predict_fn x w Hfit Hm)
        in H.
      discriminate H.
    + destruct (String.eqb_spec (self_method self) "gridSampling") as [Hm|Hg].
      * rewrite (unfit_grid_raises np_log kneighbors self predict_fn x w Hfit
                   Hm) in H.
        discriminate H.
      * unfold LinearityMeasure_linearity_measure in H. rewrite Hfit in H.
        apply String.eqb_neq in Hk, Hg. rewrite Hk, Hg in H.
        discriminate H.
Qed.

(** X17: a fit facade refuses instances of another input shape with an
    assertion error before it looks at anything else: whatever the strategy
    (a supported one or not), the world is untouched. *)
Theorem fitted_facade_rejects_other_shape (self0 self : LinearityMeasure)
  X_train predict_fn x w :
  LinearityMeasure_fit self0 X_train = Ok self ->
  tl (shape x) <> tl (shape X_train) ->
  LinearityMeasure_linearity_measure np_log kneighbors self predict_fn x w
  = (Raise AssertionError, w).
Proof.
  intros Hfit Hs. unfold LinearityMeasure_fit in Hfit.
  apply rbind_ok in Hfit. destruct Hfit as (fr & _ & Hfit).
  apply Ok_inj in Hfit. subst self.
  unfold LinearityMeasure_linearity_measure.
  cbn [self_is_fit self_input_shape].
  rewrite (shape_eqb_neq _ _ Hs). reflexivity.
Qed.

(** X18: after [fit(X_train)], scoring instances of the training input shape
    through the facade is scoring them through the stateless entry point
    with the same settings, the training set and no explicit feature range;
    the facade returns itself along with the result. *)
Theorem fitted_facade_is_stateless_scoring method epsilon nb_samples res
  alphas model_type verbose X_train (self : LinearityMeasure) predict_fn x w :
  LinearityMeasure_fit
    (LinearityMeasure_init method epsilon nb_samples res alphas model_type
       verbose) X_train = Ok self ->
  tl (shape x) = tl (shape X_train) ->
  LinearityMeasure_linearity_measure np_log kneighbors self predict_fn x w
  = (lin <- linearity_measure np_log kneighbors predict_fn x None method
              (Some X_train) epsilon nb_samples res alphas model_type ;;
     ret (self, lin)) w.
Proof.
  intros Hfit Hs. unfold LinearityMeasure_fit in Hfit.
  apply rbind_ok in Hfit. destruct Hfit as (fr & Hfr & Hfit).
  apply Ok_inj in Hfit. subst self.
  unfold LinearityMeasure_linearity_measure, linearity_measure,
    LinearityMeasure_init.
  cbn [self_is_fit self_input_shape self_method self_X_train
       self_features_range self_epsilon self_nb_samples self_res self_alphas
       self_model_type self_verbose negb].
  rewrite Hs, shape_eqb_refl.
  destruct (method =? "knn")%string.
  - unfold bind, assert, ret, lift.
    destruct (_linearity_measure _ _ _ _ _ _ _ _ _ _ _ _ w) as [[l|e] w1];
      reflexivity.
  - destruct (method =? "gridSampling")%string; [|reflexivity].
    unfold bind, assert, ret, lift. rewrite Hfr.
    cbn [self_is_fit self_input_shape self_method self_X_train
         self_features_range self_epsilon self_nb_samples self_res self_alphas
         self_model_type self_verbose].
    destruct (_linearity_measure _ _ _ _ _ _ _ _ _ _ _ _ w) as [[l|e] w1];
      reflexivity.
Qed.

(** X19: a strategy other than ['knn'] and ['gridSampling'] is refused
    before any work, by an assertion error in [_linearity_measure] and by a
    name error at the stateless entry point and at the facade. *)
Theorem unsupported_method_errors predict_fn x X_train features_range method
  epsilon nb_samples res alphas model_type verbose w :
  method <> "knn"%string -> method <> "gridSampling"%string ->
  _linearity_measure np_log kneighbors predict_fn x X_train features_range
    method epsilon nb_samples res alphas model_type w
  = (Raise AssertionError, w) /\
  linearity_measure np_log kneighbors predict_fn x features_range method
    X_train epsilon nb_samples res alphas model_type w
  = (Raise NameError, w) /\
  LinearityMeasure_linearity_measure np_log kneighbors
    (LinearityMeasure_init method epsilon nb_samples res alphas model_type
       verbose) predict_fn x w
  = (Raise NameError, w).
Proof.
  intros Hk Hg. apply String.eqb_neq in Hk, Hg.
  unfold _linearity_measure, linearity_measure,
    LinearityMeasure_linearity_measure, LinearityMeasure_init.
  cbn [self_is_fit self_method]. rewrite Hk, Hg.
  split; [reflexivity|]. split; reflexivity.
Qed.

(** X20: the model type is looked at only after sampling: with a model type
    other than ['classifier'] and ['regressor'], a grid run on well-formed
    input first draws its sample and then raises a name error, in the world
    the sampler left behind and without a call of the prediction
    function. *)
Theorem unsupported_model_type_raises_after_sampling predict_fn x
  (fr : FeatureRange) epsilon nb_samples res alphas model_type N D w :
  model_type <> "classifier"%string -> model_type <> "regressor"%string ->
  hd_error (shape x) = Some N -> N <> 0%nat ->
  length (data x) = (N * D)%nat -> (1 <= D)%nat ->
  length fr = D -> res <> 0%Z -> (0 <= nb_samples)%Z ->
  exists X w',
    _sample_gridSampling x (Some fr) epsilon nb_samples res w = (Ok X, w') /\
    _linearity_measure np_log kneighbors predict_fn x None (Some fr)
      "gridSampling" epsilon nb_samples res alphas model_type w
    = (Raise NameError, w') /\
    predict_calls (trace w') = predict_calls (trace w).
Proof.
  intros Hc Hr Hx HN Hlen HD Hfr Hres Hnb.
  apply String.eqb_neq in Hc, Hr.
  destruct (sample_grid_succeeds x fr epsilon nb_samples res N D w
              Hx HN Hlen HD Hfr Hres Hnb) as (X & w' & Hrun & _).
  exists X, w'. split; [exact Hrun|]. split.
  - unfold _linearity_measure. cbn [String.eqb Ascii.eqb Bool.eqb orb].
    rewrite bind_assert_true by reflexivity.
    unfold bind at 1. rewrite bind_assert_true by reflexivity.
    rewrite Hrun, Hc, Hr. reflexivity.
  - unfold predict_calls.
    rewrite (sample_grid_no_predict _ _ _ _ _ _ _ _ Hrun). reflexivity.
Qed.

End Entry.

Lemma facade_scores_only_after_fit_witness :
  self_is_fit ex_fitted = true /\
  self_input_shape ex_fitted = Some (tl (shape ex_x)) /\
  (self_method ex_fitted = "knn"%string \/
   self_method ex_fitted = "gridSampling"%string) /\
  ex_fitted = ex_fitted.
Proof.
  apply (facade_scores_only_after_fit ex_log exact_kneighbors ex_fitted
           ex_fitted ex_linear ex_x ex_world ex_grid_scores
           (snd ex_facade_run)).
  apply injective_projections; [vm_compute; reflexivity | reflexivity].
Defined.

Lemma fitted_facade_rejects_other_shape_witness :
  LinearityMeasure_linearity_measure ex_log exact_kneighbors ex_fitted
    ex_linear ex_image_x ex_world
  = (Raise AssertionError, ex_world).
Proof.
  apply (fitted_facade_rejects_other_shape ex_log exact_kneighbors ex_facade
           ex_fitted ex_train ex_linear ex_image_x ex_world).
  - reflexivity.
  - simpl. discriminate.
Defined.

Lemma fitted_facade_is_stateless_scoring_witness :
  LinearityMeasure_linearity_measure ex_log exact_kneighbors ex_fitted
    ex_linear ex_x ex_world
  = (lin <- linearity_measure ex_log exact_kneighbors ex_linear ex_x None
              "gridSampling" (Some ex_train) (4 # 100) 3 100 None "regressor" ;;
     ret (ex_fitted, lin)) ex_world.
Proof.
  apply (fitted_facade_is_stateless_scoring ex_log exact_kneighbors
           "gridSampling" (4 # 100) 3 100 None "regressor" false ex_train
           ex_fitted ex_linear ex_x ex_world).
  - reflexivity.
  - reflexivity.
Defined.

Lemma unsupported_method_errors_witness :
  _linearity_measure ex_log exact_kneighbors ex_linear ex_x (Some ex_train)
    (Some ex_range) "grid" (4 # 100) 3 100 None "regressor" ex_world
  = (Raise AssertionError, ex_world) /\
  linearity_measure ex_log exact_kneighbors ex_linear ex_x (Some ex_range)
    "grid" (Some ex_train) (4 # 100) 3 100 None "regressor" ex_world
  = (Raise NameError, ex_world) /\
  LinearityMeasure_linearity_measure ex_log exact_kneighbors
    (LinearityMeasure_init "grid" (4 # 100) 3 100 None "regressor" false)
    ex_linear ex_x ex_world
  = (Raise NameError, ex_world).
Proof.
  apply (unsupported_method_errors ex_log exact_kneighbors ex_linear ex_x
           (Some ex_train) (Some ex_range) "grid" (4 # 100) 3 100 None
           "regressor" false ex_world).
  - discriminate.
  - discriminate.
Defined.

Lemma unsupported_model_type_raises_after_sampling_witness :
  exists X w',
    _sample_gridSampling ex_x (Some ex_range) (4 # 100) 3 100 ex_world
    = (Ok X, w') /\
    _linearity_measure ex_log exact_kneighbors ex_linear ex_x None
      (Some ex_range) "gridSampling" (4 # 100) 3 100 None "regression"
      ex_world
    = (Raise NameError, w') /\
    predict_calls (trace w') = predict_calls (trace ex_world).
Proof.
  apply (unsupported_model_type_raises_after_sampling ex_log exact_kneighbors
           ex_linear ex_x ex_range (4 # 100) 3 100 None "regression" 1 2
           ex_world).
  - discriminate.
  - discriminate.
  - reflexivity.
  - lia.
  - reflexivity.
  - lia.
  - reflexivity.
  - lia.
  - lia.
Defined.

(** * The inferred feature range *)

(** X21: [_infer_features_range] returns a range only for a training set
    with at least one instance, one row per flattened feature, and in every
    row the minimum does not exceed the maximum. *)
Theorem inferred_range_is_ordered X_train (fr : FeatureRange) :
  _infer_features_range X_train = Ok fr ->
  exists n,
    hd_error (shape X_train) = Some n /\ n <> 0%nat /\
    length (data X_train) = (n * length fr)%nat /\
    Forall (fun r => fst r <= snd r) fr.
Proof.
  intros H. pose proof H as H0. unfold _infer_features_range in H0.
  apply rbind_ok in H0. destruct H0 as (n & E & H0).
  apply rbind_ok in H0. destruct H0 as (X2 & E0 & _).
  apply shape_at_ok in E.
  apply reshape_rows_ok in E0. destruct E0 as (Hn & Hmod & _).
  apply Nat.Div0.div_exact in Hmod.
  assert (Hhd : hd_error (shape X_train) = Some n)
    by (destruct (shape X_train); [discriminate E | exact E]).
  destruct (infer_features_range_spec X_train n _ Hhd Hn Hmod)
    as (fr' & Hfr' & Hl & Hspec).
  rewrite H in Hfr'. apply Ok_inj in Hfr'. subst fr'.
  exists n. split; [exact Hhd|]. split; [exact Hn|].
  split; [rewrite Hl; exact Hmod|].
  apply Forall_forall. intros r Hin.
  apply (In_nth _ _ (0, 0)) in Hin. destruct Hin as (j & Hj & <-).
  rewrite Hl in Hj. destruct (Hspec j Hj) as (Hb & _).
  destruct (Hb 0%nat ltac:(lia)) as (H1 & H2).
  eapply Qle_trans; eassumption.
Qed.

Lemma inferred_range_is_ordered_witness :
  exists n,
    hd_error (shape ex_train) = Some n /\ n <> 0%nat /\
    length (data ex_train) = (n * length ex_range)%nat /\
    Forall (fun r => fst r <= snd r) ex_range.
Proof.
  apply (inferred_range_is_ordered ex_train ex_range).
  reflexivity.
Defined.

(** X22: on a training set without instances [_infer_features_range], and
    with it [fit], raises [ValueError]. *)
Theorem empty_training_set_is_refused (self : LinearityMeasure) X_train :
  hd_error (shape X_train) = Some 0%nat ->
  _infer_features_range X_train = Raise ValueError /\
  LinearityMeasure_fit self X_train = Raise ValueError.
Proof.
  intros H.
  assert (E : _infer_features_range X_train = Raise ValueError).
  { unfold _infer_features_range, shape_at.
    destruct (shape X_train) as [|n rest]; [discriminate H|].
    injection H as ->. reflexivity. }
  split; [exact E|]. unfold LinearityMeasure_fit. rewrite E. reflexivity.
Qed.

Lemma empty_training_set_is_refused_witness :
  _infer_features_range ex_empty_train = Raise ValueError /\
  LinearityMeasure_fit ex_facade ex_empty_train = Raise ValueError.
Proof.
  apply (empty_training_set_is_refused ex_facade ex_empty_train).
  reflexivity.
Defined.

(** * Prediction calls, whatever the outcome *)

Lemma calls_bind {A B} n (m : M A) (k : A -> M B) :
  calls_at_most 0 m -> (forall a, calls_at_most n (k a)) ->
  calls_at_most n (bind m k).
Proof.
  intros Hm Hk w r w' H. unfold bind in H.
  destruct (m w) as [[a|e] w1] eqn:E.
  - specialize (Hm _ _ _ E). specialize (Hk a _ _ _ H). lia.
  - inversion H; subst. specialize (Hm _ _ _ E). lia.
Qed.

Lemma calls_bind_predict {B} n predict_fn batch (k : ndarray -> M B) :
  (forall a, calls_at_most n (k a)) ->
  calls_at_most (S n) (bind (predict predict_fn batch) k).
Proof.
  intros Hk w r w' H. rewrite bind_predict_eq in H.
  specialize (Hk _ _ _ _ H). cbn [trace] in Hk.
  unfold predict_calls in *. rewrite predict_batches_app in Hk.
  cbn [predict_batches] in Hk. rewrite length_app in Hk. cbn [length] in Hk.
  lia.
Qed.

Lemma calls_lift {A} n (r : result A) : calls_at_most n (lift r).
Proof. intros w r' w' H. inversion H; subst. lia. Qed.

Lemma calls_ret {A} n (a : A) : calls_at_most n (ret a).
Proof. intros w r' w' H. inversion H; subst. lia. Qed.

Lemma calls_raise {A} n e : calls_at_most n (@raise A e).
Proof. intros w r' w' H. inversion H; subst. lia. Qed.

Lemma calls_assert n c : calls_at_most n (assert c).
Proof. destruct c; [apply calls_ret | apply calls_raise]. Qed.

Lemma calls_randint_size high size : calls_at_most 0 (randint_size high size).
Proof.
  unfold randint_size, randint.
  destruct (existsb _ _); [apply calls_raise|].
  destruct (high <=? 0)%Z; [apply calls_raise|].
  intros w r w' H. inversion H; subst. cbn [trace].
  unfold predict_calls. rewrite predict_batches_app. cbn [predict_batches].
  rewrite app_nil_r. lia.
Qed.

Lemma calls_log_kneighbors k train queries :
  calls_at_most 0 (log_event (EvKNeighbors k train queries)).
Proof.
  intros w r w' H. inversion H; subst. cbn [trace].
  unfold predict_calls. rewrite predict_batches_app. cbn [predict_batches].
  rewrite app_nil_r. lia.
Qed.

(** Bounds the prediction calls of a chain of steps. *)
Ltac calls :=
  repeat first
    [ apply calls_ret | apply calls_raise | apply calls_lift
    | apply calls_assert | apply calls_randint_size
    | apply calls_log_kneighbors
    | apply calls_bind_predict; intros ?
    | apply calls_bind; [ | intros ? ] ].

Lemma calls_sample_grid x features_range epsilon nb_samples res :
  calls_at_most 0
    (_sample_gridSampling x features_range epsilon nb_samples res).
Proof. unfold _sample_gridSampling. calls. Qed.

Lemma calls_regression predict_fn x input_shape X_samples alphas :
  calls_at_most 3
    (_calculate_linearity_regression predict_fn x input_shape X_samples
       alphas).
Proof. unfold _calculate_linearity_regression. calls. Qed.

Section CallsBound.

Variable np_log : Q -> Q.
Variable kneighbors : ndarray -> Z -> ndarray -> result (list (list nat)).

Lemma calls_classifier predict_fn x input_shape X_samples alphas :
  calls_at_most 3
    (_calculate_linearity_measure np_log predict_fn x input_shape X_samples
       alphas).
Proof. unfold _calculate_linearity_measure. calls. Qed.

Lemma calls_knn_step x nb_samples i X_train :
  calls_at_most 0 (knn_step kneighbors x nb_samples i X_train).
Proof. unfold knn_step. calls. Qed.

Lemma calls_knn_loop x nb_samples range : forall X_train,
  calls_at_most 0 (knn_loop kneighbors x nb_samples range X_train).
Proof.
  induction range as [|i range IH]; intros X_train; cbn [knn_loop].
  - apply calls_ret.
  - apply calls_bind; [apply calls_knn_step | intros st].
    apply calls_bind; [apply IH | intros rest]. apply calls_ret.
Qed.

Lemma calls_sample_knn x X_train nb_samples :
  calls_at_most 0 (_sample_knn kneighbors x X_train nb_samples).
Proof.
  unfold _sample_knn.
  apply calls_bind; [apply calls_lift | intros ?].
  apply calls_bind; [apply calls_lift | intros ?].
  apply calls_bind; [apply calls_lift | intros ?].
  apply calls_bind; [apply calls_knn_loop | intros ?].
  apply calls_lift.
Qed.

Lemma calls_linearity_measure predict_fn x X_train features_range method
  epsilon nb_samples res alphas model_type :
  calls_at_most 3
    (_linearity_measure np_log kneighbors predict_fn x X_train features_range
       method epsilon nb_samples res alphas model_type).
Proof.
  unfold _linearity_measure.
  apply calls_bind; [apply calls_assert | intros _].
  apply calls_bind.
  - destruct (method =? "knn")%string.
    + apply calls_bind; [apply calls_assert | intros _].
      destruct X_train; [apply calls_sample_knn | apply calls_raise].
    + destruct (method =? "gridSampling")%string; [|apply calls_raise].
      apply calls_bind; [apply calls_assert | intros _].
      apply calls_sample_grid.
  - intros X.
    destruct (model_type =? "classifier")%string.
    + intros w r w' H. unfold bind in H.
      destruct (_calculate_linearity_measure _ _ _ _ _ _ w) as [[a|e] w1] eqn:E;
        inversion H; subst; exact (calls_classifier _ _ _ _ _ _ _ _ E).
    + destruct (model_type =? "regressor")%string; [|apply calls_raise].
      intros w r w' H. unfold bind in H.
      destruct (_calculate_linearity_regression _ _ _ _ _ w) as [[a|e] w1] eqn:E;
        inversion H; subst; exact (calls_regression _ _ _ _ _ _ _ _ E).
Qed.

(** X23: whatever the arguments and whatever the outcome, scores or an
    exception, a call of the stateless entry point or of the facade makes at
    most three calls of the prediction function. *)
Theorem scoring_makes_at_most_three_predict_calls (self : LinearityMeasure)
  predict_fn x X_train features_range method epsilon nb_samples res alphas
  model_type :
  calls_at_most 3
    (linearity_measure np_log kneighbors predict_fn x features_range method
       X_train epsilon nb_samples res alphas model_type) /\
  calls_at_most 3
    (LinearityMeasure_linearity_measure np_log kneighbors self predict_fn x).
Proof.
  split.
  - unfold linearity_measure.
    destruct (method =? "knn")%string.
    + apply calls_bind; [apply calls_assert | intros _].
      apply calls_linearity_measure.
    + destruct (method =? "gridSampling")%string; [|apply calls_raise].
      apply calls_bind; [apply calls_assert | intros _].
      apply calls_bind.
      * destruct X_train, features_range; calls.
      * intros fr. apply calls_linearity_measure.
  - unfold LinearityMeasure_linearity_measure.
    apply calls_bind.
    { destruct (self_is_fit self); [apply calls_assert | apply calls_ret]. }
    intros _.
    destruct (self_method self =? "knn")%string.
    + apply calls_bind; [apply calls_assert | intros _].
      apply calls_bind; [apply calls_lift | intros X].
      intros w r w' H. unfold bind in H.
      destruct (_linearity_measure _ _ _ _ _ _ _ _ _ _ _ _ w)
        as [[a|e] w1] eqn:E;
        inversion H; subst; exact (calls_linearity_measure _ _ _ _ _ _ _ _ _ _ _ _ _ E).
    + destruct (self_method self =? "gridSampling")%string;
        [|apply calls_raise].
      apply calls_bind.
      { destruct (negb (self_is_fit self)); calls. }
      intros self1.
      apply calls_bind; [apply calls_lift | intros fr].
      intros w r w' H. unfold bind in H.
      destruct (_linearity_measure _ _ _ _ _ _ _ _ _ _ _ _ w)
        as [[a|e] w1] eqn:E;
        inversion H; subst; exact (calls_linearity_measure _ _ _ _ _ _ _ _ _ _ _ _ _ E).
Qed.

End CallsBound.
